(** * Templated C++ string format: a shallow embedding of [utils/format.h]
    and [utils/format.cpp], and the properties of [Format] proved on it.

    Conventions of the embedding.

    - A C string ([const char*]) is a [string]; the end of the Rocq string
      stands for the terminating NUL, and [c_str] cuts a [std::string] at its
      first NUL as [std::string::c_str] read as a C string does.
    - A scanner position [const char* formatParameter, int& pos] is the pair
      of the offset [pos : Z] and the text from that offset on
      ([rest : string]); [formatParameter[pos]] is [peek rest] and [++pos]
      drops the head of [rest].
    - [int] is a 32-bit integer and [int64_t] a 64-bit integer, kept in
      [Z]. An overflow of signed arithmetic is undefined behaviour in C++:
      where the source can overflow, the run leaves the model ([Stuck]).
    - A function that writes to a [std::ostream&] returns the text it wrote;
      writing in sequence is concatenation.
    - A function that may throw returns an [outcome].
    - [long double] values are rationals ([Q]), rounded to a 64-bit
      significand where the source computes on them. *)

From Stdlib Require Import ZArith QArith Qround Ascii String List Bool Lia.
Import ListNotations.

#[local] Set Warnings "-register-all".

Local Open Scope string_scope.
Local Open Scope Z_scope.

(** ** Outcomes: values, C++ exceptions, and runs that leave the model *)

Inductive exn : Type :=
| IllegalFormatStringException (errorPosition : Z) (message : string)
| out_of_range (message : string)
| runtime_error (message : string).

Inductive outcome (A : Type) : Type :=
| Ok (a : A)
| Throw (e : exn)
| Stuck (why : string).

Arguments Ok {A} a.
Arguments Throw {A} e.
Arguments Stuck {A} why.

Definition bind {A B : Type} (m : outcome A) (k : A -> outcome B) : outcome B :=
  match m with
  | Ok a => k a
  | Throw e => Throw e
  | Stuck w => Stuck w
  end.

Notation "x <- m ;; k" := (bind m (fun x => k))
  (at level 61, m at next level, right associativity).
Notation "' pat <- m ;; k" := (bind m (fun x => match x with pat => k end))
  (at level 61, pat pattern, m at next level, right associativity).

Definition illegal {A : Type} (pos : Z) (message : string) : outcome A :=
  Throw (IllegalFormatStringException pos message).

(** ** Characters and C strings *)

Definition NUL : ascii := "000"%char.

Definition code (c : ascii) : Z := Z.of_N (N_of_ascii c).

Definition peek (rest : string) : ascii :=
  match rest with
  | EmptyString => NUL
  | String c _ => c
  end.

Definition advance (rest : string) : string :=
  match rest with
  | EmptyString => EmptyString
  | String _ rest' => rest'
  end.

Fixpoint c_str (s : string) : string :=
  match s with
  | EmptyString => EmptyString
  | String c s' => if Ascii.eqb c NUL then EmptyString else String c (c_str s')
  end.

Definition strlen (s : string) : Z := Z.of_nat (String.length s).

Fixpoint replicate (n : nat) (c : ascii) : string :=
  match n with
  | O => EmptyString
  | S n' => String c (replicate n' c)
  end.

Fixpoint strchr (s : string) (c : ascii) : bool :=
  match s with
  | EmptyString => Ascii.eqb c NUL
  | String d s' => Ascii.eqb c d || strchr s' c
  end.

Definition is_digit (c : ascii) : bool :=
  (code "0" <=? code c) && (code c <=? code "9").

Definition is_identifier_char (c : ascii) : bool :=
  ((code "a" <=? code c) && (code c <=? code "z"))
  || ((code "A" <=? code c) && (code c <=? code "Z"))
  || ((code "0" <=? code c) && (code c <=? code "9"))
  || Ascii.eqb c "_".

(** ** 32-bit [int] arithmetic *)

Definition INT_MAX : Z := 2147483647.

(** ** Constants of the grammar (format.cpp, anonymous namespace) *)

Definition FORMAT_START : ascii := "{".
Definition FORMAT_END : ascii := "}".
Definition FORMAT_SPECIFIER : ascii := ":".
Definition FORMAT_ENVIRONMENT : ascii := "$".
Definition FORMAT_EXPLICIT_TYPE : ascii := "!".
Definition FORMAT_SELECTOR_OBJ : ascii := ".".
Definition FORMAT_SELECTOR_ARRAY_BEGIN : ascii := "[".
Definition FORMAT_SELECTOR_ARRAY_END : ascii := "]".
Definition FORMAT_ALIGN_LEFT : ascii := "<".
Definition FORMAT_ALIGN_RIGHT : ascii := ">".
Definition FORMAT_ALIGN_CENTER : ascii := "^".
Definition FORMAT_ALIGN_INTERNAL : ascii := "=".
Definition FORMAT_ALTERNATE_TOGGLE : ascii := "#".
Definition FORMAT_SIGNAWARE_ZERO_TOGGLE : ascii := "0".
Definition FORMAT_THOUSANDS_TOGGLE : ascii := ",".
Definition FORMAT_PRECISION_TOGGLE : ascii := ".".
Definition FORMAT_PERCENTAGE_MODE : ascii := "%".
Definition FORMAT_BINARY_TOGGLE : ascii := "b".
Definition FORMAT_OCTAL_TOGGLE : ascii := "o".
Definition FORMAT_LOWERCASE_HEX_TOGGLE : ascii := "x".
Definition FORMAT_UPPERCASE_HEX_TOGGLE : ascii := "X".
Definition FORMAT_SIGN_NEGATIVES_TOGGLE : ascii := "-".
Definition FORMAT_SIGN_ALWAYS_TOGGLE : ascii := "+".
Definition FORMAT_SIGN_POSITIVE_SPACE_TOGGLE : ascii := " ".
Definition FORMAT_LOCALIZED_NUMBER_TOGGLE : ascii := "n".
Definition FORMAT_UNICODE_CHAR_TOGGLE : ascii := "c".
Definition FORMAT_NORMAL_NUMBER_TOGGLE : ascii := "d".
Definition FORMAT_SCIENTIFIC_TOGGLE : ascii := "e".
Definition FORMAT_SCIENTIFIC_UC_TOGGLE : ascii := "E".
Definition FORMAT_FIXED_TOGGLE : ascii := "f".
Definition FORMAT_FIXED_UC_TOGGLE : ascii := "F".
Definition FORMAT_GENERAL_DECIM_TOGGLE : ascii := "g".
Definition FORMAT_GENERAL_DECIM_UC_TOGGLE : ascii := "G".

Definition FORMAT_TEXT_INDEX : Z := -1.
Definition FORMAT_ENVIRONMENT_INDEX : Z := -2.
Definition PRECISION_NOT_SET : Z := -1.
Definition DOUBLE_MAX_DEFAULT_PRECISION : Z := 16.
Definition DOUBLE_MIN_DEFAULT_PRECISION : Z := 1.

(** Container delimiters (format.h, overridable macros). *)

Definition FORMAT_ARRAY_OPEN : string := "[".
Definition FORMAT_ARRAY_CLOSE : string := "]".
Definition FORMAT_ARRAY_SEP : string := ", ".
Definition FORMAT_MAP_OPEN : string := "{".
Definition FORMAT_MAP_CLOSE : string := "}".
Definition FORMAT_MAP_SEP : string := ", ".
Definition FORMAT_PAIR_OPEN : string := "".
Definition FORMAT_PAIR_CLOSE : string := "".
Definition FORMAT_PAIR_SEP : string := ": ".

(** ** Data containers (format.h) *)

Record FormatFragment : Type := mkFragment {
  text : string;
  formatSpecifier : string;
  selectors : list string;          (* std::queue: front is the head *)
  index : Z;
  explicitConversion : ascii;
  handled : bool
}.

Record BasicFormatSpecifiers : Type := mkSpecifiers {
  width : Z;
  precision : Z;
  fill : ascii;
  align : ascii;
  sign : ascii;
  type : ascii;
  alternateForm : bool;
  thousandSeparator : bool
}.

(** A default-constructed [FormatFragment]: empty strings, empty queue; the
    scalar members are set by [InitializeFormatFragment] before any use. *)
Definition new_fragment : FormatFragment :=
  mkFragment "" "" [] 0 NUL false.

Definition set_text (f : FormatFragment) (t : string) : FormatFragment :=
  mkFragment t (formatSpecifier f) (selectors f) (index f) (explicitConversion f) (handled f).

Definition set_formatSpecifier (f : FormatFragment) (s : string) : FormatFragment :=
  mkFragment (text f) s (selectors f) (index f) (explicitConversion f) (handled f).

Definition set_selectors (f : FormatFragment) (q : list string) : FormatFragment :=
  mkFragment (text f) (formatSpecifier f) q (index f) (explicitConversion f) (handled f).

Definition set_explicitConversion (f : FormatFragment) (c : ascii) : FormatFragment :=
  mkFragment (text f) (formatSpecifier f) (selectors f) (index f) c (handled f).

Definition set_handled (f : FormatFragment) (h : bool) : FormatFragment :=
  mkFragment (text f) (formatSpecifier f) (selectors f) (index f) (explicitConversion f) h.

Definition InitializeFormatFragment (fragment : FormatFragment) (idx : Z) : FormatFragment :=
  mkFragment (text fragment) (formatSpecifier fragment) (selectors fragment)
             idx NUL (idx <? 0).

Definition InitializeFormatSpecifier : BasicFormatSpecifiers :=
  mkSpecifiers 0 PRECISION_NOT_SET NUL NUL FORMAT_SIGN_NEGATIVES_TOGGLE NUL false false.

(** ** The template scanner *)

(** [GetPlainTextFragment]: the loop state is the local [expect]. The result
    is the text written to [ostr], and the position reached. *)
Fixpoint GetPlainTextFragment_loop (expect : ascii) (pos : Z) (rest : string)
  : outcome (string * Z * string) :=
  match rest with
  | EmptyString => Ok ("", pos, rest)
  | String c rest' =>
    if negb (Ascii.eqb expect NUL) && negb (Ascii.eqb expect c) then
      illegal pos "Expected a different character, is this supposed to be escaped?"
    else if Ascii.eqb c FORMAT_START then
      match rest' with
      | String c1 rest'' =>
        if Ascii.eqb c1 FORMAT_START then
          '(out, pos', r) <- GetPlainTextFragment_loop expect (pos + 2) rest'' ;;
          Ok (String c out, pos', r)
        else Ok ("", pos, rest)
      | EmptyString => Ok ("", pos, rest)
      end
    else if Ascii.eqb c FORMAT_END then
      if Ascii.eqb expect FORMAT_END then
        '(out, pos', r) <- GetPlainTextFragment_loop NUL (pos + 1) rest' ;;
        Ok (String c out, pos', r)
      else if Ascii.eqb expect NUL then
        GetPlainTextFragment_loop FORMAT_END (pos + 1) rest'
      else GetPlainTextFragment_loop expect (pos + 1) rest'
    else
      '(out, pos', r) <- GetPlainTextFragment_loop expect (pos + 1) rest' ;;
      Ok (String c out, pos', r)
  end.

Definition GetPlainTextFragment (pos : Z) (rest : string) : outcome (string * Z * string) :=
  GetPlainTextFragment_loop NUL pos rest.

Definition is_whitespace (c : ascii) : bool :=
  Ascii.eqb c " " || Ascii.eqb c "009" || Ascii.eqb c "010" || Ascii.eqb c "013".

Fixpoint SkipWhitespace (pos : Z) (rest : string) : Z * string :=
  match rest with
  | EmptyString => (pos, rest)
  | String c rest' =>
    if is_whitespace c then SkipWhitespace (pos + 1) rest' else (pos, rest)
  end.

(** [ParseIntegerNumber]: the loop carries [parsedInteger], [sign],
    [firstChar] and [foundAny]. The sum [parsedInteger * 10 + (c - '0')] is
    computed in [int]: when it does not fit, the behaviour is undefined, and
    the test [parsedInteger < 0] that follows it is reached in defined
    behaviour with a number that is not negative only. *)
Fixpoint ParseIntegerNumber_loop (allowNegative : bool)
    (parsedInteger sgn : Z) (firstChar foundAny : bool) (pos : Z) (rest : string)
  : outcome (Z * Z * bool * Z * string) :=
  match rest with
  | EmptyString => Ok (parsedInteger, sgn, foundAny, pos, rest)
  | String c rest' =>
    if Ascii.eqb c "-" then
      if allowNegative && firstChar then
        ParseIntegerNumber_loop allowNegative parsedInteger (-1) false true (pos + 1) rest'
      else illegal pos "A sign character is not allowed at this position"
    else if is_digit c then
      let parsedInteger' := parsedInteger * 10 + (code c - code "0") in
      if INT_MAX <? parsedInteger' then
        Stuck "ParseIntegerNumber: signed integer overflow"
      else if parsedInteger' <? 0 then
        illegal pos "Integer value overflows, use a smaller number"
      else
        ParseIntegerNumber_loop allowNegative parsedInteger' sgn false true (pos + 1) rest'
    else Ok (parsedInteger, sgn, foundAny, pos, rest)
  end.

Definition ParseIntegerNumber (pos : Z) (rest : string) (allowNegative : bool)
    (defaultValue : Z) : outcome (Z * Z * string) :=
  '(parsed, sgn, foundAny, pos', rest') <-
     ParseIntegerNumber_loop allowNegative 0 1 true false pos rest ;;
  let parsedInteger := if foundAny then parsed else defaultValue in
  if (parsedInteger =? 0) && (sgn <? 0) then
    illegal pos' "-0 is not a valid integer"
  else Ok (parsedInteger * sgn, pos', rest').

(** [ReadIdentifier] returns the identifier written to [ostr]. *)
Fixpoint ReadIdentifier (pos : Z) (rest : string) : string * Z * string :=
  match rest with
  | EmptyString => ("", pos, rest)
  | String c rest' =>
    if is_identifier_char c then
      let '(name, pos', r) := ReadIdentifier (pos + 1) rest' in
      (String c name, pos', r)
    else ("", pos, rest)
  end.

(** [assert(condition)]: a failed assertion aborts the process. *)
Definition assert (condition : bool) : outcome unit :=
  if condition then Ok tt else Stuck "assertion failed".

Definition ReadEnvironmentVariableName (pos : Z) (rest : string)
  : outcome (string * Z * string) :=
  _ <- assert (Ascii.eqb (peek rest) FORMAT_ENVIRONMENT) ;;
  Ok (ReadIdentifier (pos + 1) (advance rest)).

(** [ReadFormatSpecifier] returns the specifier text written to [ostr]; it
    stops on the unescaped closing bracket, or at the end of the string. *)
Fixpoint ReadFormatSpecifier (pos : Z) (rest : string) : outcome (string * Z * string) :=
  match rest with
  | EmptyString => Ok ("", pos, rest)
  | String c rest' =>
    if Ascii.eqb c FORMAT_END then
      match rest' with
      | String c1 rest'' =>
        if Ascii.eqb c1 FORMAT_END then
          '(out, pos', r) <- ReadFormatSpecifier (pos + 2) rest'' ;;
          Ok (String c out, pos', r)
        else Ok ("", pos, rest)
      | EmptyString => Ok ("", pos, rest)
      end
    else if Ascii.eqb c FORMAT_START then
      match rest' with
      | String c1 rest'' =>
        if Ascii.eqb c1 FORMAT_START then
          '(out, pos', r) <- ReadFormatSpecifier (pos + 2) rest'' ;;
          Ok (String c out, pos', r)
        else illegal pos "Expected a different character, is this supposed to be escaped?"
      | EmptyString =>
        illegal pos "Expected a different character, is this supposed to be escaped?"
      end
    else
      '(out, pos', r) <- ReadFormatSpecifier (pos + 1) rest' ;;
      Ok (String c out, pos', r)
  end.

Definition ReadExplicitTypeConversion (fragment : FormatFragment) (pos : Z) (rest : string)
  : outcome (FormatFragment * Z * string) :=
  if Ascii.eqb (peek rest) FORMAT_EXPLICIT_TYPE then
    let rest1 := advance rest in
    let type := peek rest1 in
    if negb (strchr "srid" type) then
      illegal (pos + 1) "Unknown format conversion specifier, expected one of: s, r, i, and d"
    else
      match rest1 with
      | EmptyString =>
        (* strchr finds the terminator; ++pos then steps over it *)
        Stuck "ReadExplicitTypeConversion: position moved past the terminator"
      | String _ rest2 => Ok (set_explicitConversion fragment type, pos + 2, rest2)
      end
  else Ok (fragment, pos, rest).

Definition is_selector_start (c : ascii) : bool :=
  Ascii.eqb c FORMAT_SELECTOR_OBJ || Ascii.eqb c FORMAT_SELECTOR_ARRAY_BEGIN.

Definition ReadSelector (fragment : FormatFragment) (pos : Z) (rest : string)
  : outcome (FormatFragment * Z * string) :=
  let selectorType := peek rest in
  if is_selector_start selectorType then
    let '(name, pos1, rest1) := ReadIdentifier (pos + 1) (advance rest) in
    let endSelector := peek rest1 in
    if Ascii.eqb selectorType FORMAT_SELECTOR_ARRAY_BEGIN
       && negb (Ascii.eqb endSelector FORMAT_SELECTOR_ARRAY_END) then
      illegal pos1 "Illegal selector syntax"
    else
      let '(pos2, rest2) :=
        if Ascii.eqb endSelector FORMAT_SELECTOR_ARRAY_END
        then (pos1 + 1, advance rest1) else (pos1, rest1) in
      Ok (set_selectors fragment (selectors fragment ++ [name]), pos2, rest2)
  else Ok (fragment, pos, rest).

(** [ReadSelectors]: every turn of the loop consumes at least the selector
    character, so the length of the text left bounds the number of turns;
    [fuel] is that bound. *)
Fixpoint ReadSelectors_loop (fuel : nat) (fragment : FormatFragment) (pos : Z) (rest : string)
  : outcome (FormatFragment * Z * string) :=
  if is_selector_start (peek rest) then
    match fuel with
    | O => Stuck "ReadSelectors: out of fuel"
    | S fuel' =>
      '(fragment', pos', rest') <- ReadSelector fragment pos rest ;;
      ReadSelectors_loop fuel' fragment' pos' rest'
    end
  else Ok (fragment, pos, rest).

Definition ReadSelectors (fragment : FormatFragment) (pos : Z) (rest : string)
  : outcome (FormatFragment * Z * string) :=
  ReadSelectors_loop (String.length rest) fragment pos rest.

Definition ParseFormatSpecifier (fragment : FormatFragment) (pos : Z) (rest : string)
  : outcome (FormatFragment * Z * string) :=
  if Ascii.eqb (peek rest) FORMAT_SPECIFIER then
    '(spec, pos', rest') <- ReadFormatSpecifier (pos + 1) (advance rest) ;;
    Ok (set_formatSpecifier fragment spec, pos', rest')
  else Ok (fragment, pos, rest).

(** ** The specifier resolver: [ConvertToBasicFormatSpecifiers] *)

Definition set_align_fill (s : BasicFormatSpecifiers) (a f : ascii) : BasicFormatSpecifiers :=
  mkSpecifiers (width s) (precision s) f a (sign s) (type s) (alternateForm s) (thousandSeparator s).

Definition set_fill (s : BasicFormatSpecifiers) (f : ascii) : BasicFormatSpecifiers :=
  mkSpecifiers (width s) (precision s) f (align s) (sign s) (type s) (alternateForm s) (thousandSeparator s).

Definition set_align (s : BasicFormatSpecifiers) (a : ascii) : BasicFormatSpecifiers :=
  mkSpecifiers (width s) (precision s) (fill s) a (sign s) (type s) (alternateForm s) (thousandSeparator s).

Definition set_sign (s : BasicFormatSpecifiers) (c : ascii) : BasicFormatSpecifiers :=
  mkSpecifiers (width s) (precision s) (fill s) (align s) c (type s) (alternateForm s) (thousandSeparator s).

Definition set_alternateForm (s : BasicFormatSpecifiers) (b : bool) : BasicFormatSpecifiers :=
  mkSpecifiers (width s) (precision s) (fill s) (align s) (sign s) (type s) b (thousandSeparator s).

Definition set_width (s : BasicFormatSpecifiers) (w : Z) : BasicFormatSpecifiers :=
  mkSpecifiers w (precision s) (fill s) (align s) (sign s) (type s) (alternateForm s) (thousandSeparator s).

Definition set_thousandSeparator (s : BasicFormatSpecifiers) (b : bool) : BasicFormatSpecifiers :=
  mkSpecifiers (width s) (precision s) (fill s) (align s) (sign s) (type s) (alternateForm s) b.

Definition set_precision (s : BasicFormatSpecifiers) (p : Z) : BasicFormatSpecifiers :=
  mkSpecifiers (width s) p (fill s) (align s) (sign s) (type s) (alternateForm s) (thousandSeparator s).

Definition set_type (s : BasicFormatSpecifiers) (t : ascii) : BasicFormatSpecifiers :=
  mkSpecifiers (width s) (precision s) (fill s) (align s) (sign s) t (alternateForm s) (thousandSeparator s).

Definition is_align_token (c : ascii) : bool :=
  Ascii.eqb c FORMAT_ALIGN_LEFT || Ascii.eqb c FORMAT_ALIGN_RIGHT
  || Ascii.eqb c FORMAT_ALIGN_INTERNAL || Ascii.eqb c FORMAT_ALIGN_CENTER.

Definition ReadAlignSpecifier (fragment : BasicFormatSpecifiers) (pos : Z) (rest : string)
  : BasicFormatSpecifiers * Z * string :=
  match rest with
  | String fill (String align rest'') =>
    if is_align_token align then (set_align_fill fragment align fill, pos + 2, rest'')
    else if is_align_token fill then (set_align_fill fragment fill NUL, pos + 1, advance rest)
    else (fragment, pos, rest)
  | _ => (fragment, pos, rest)
  end.

Definition ReadSignSpecifier (fragment : BasicFormatSpecifiers) (pos : Z) (rest : string)
  : BasicFormatSpecifiers * Z * string :=
  let sign := peek rest in
  if Ascii.eqb sign FORMAT_SIGN_ALWAYS_TOGGLE || Ascii.eqb sign FORMAT_SIGN_NEGATIVES_TOGGLE
     || Ascii.eqb sign FORMAT_SIGN_POSITIVE_SPACE_TOGGLE
  then (set_sign fragment sign, pos + 1, advance rest)
  else (fragment, pos, rest).

Definition ReadAlternateSpecifier (fragment : BasicFormatSpecifiers) (pos : Z) (rest : string)
  : BasicFormatSpecifiers * Z * string :=
  if Ascii.eqb (peek rest) FORMAT_ALTERNATE_TOGGLE
  then (set_alternateForm fragment true, pos + 1, advance rest)
  else (fragment, pos, rest).

Definition ReadSignAwareZeroSpecifier (fragment : BasicFormatSpecifiers) (pos : Z) (rest : string)
  : BasicFormatSpecifiers * Z * string :=
  if Ascii.eqb (peek rest) FORMAT_SIGNAWARE_ZERO_TOGGLE then
    let fragment1 := set_fill fragment "0" in
    let fragment2 :=
      if Ascii.eqb (align fragment1) NUL then set_align fragment1 FORMAT_ALIGN_INTERNAL
      else fragment1 in
    (fragment2, pos + 1, advance rest)
  else (fragment, pos, rest).

Definition ReadWidthSpecifier (fragment : BasicFormatSpecifiers) (pos : Z) (rest : string)
  : outcome (BasicFormatSpecifiers * Z * string) :=
  '(w, pos', rest') <- ParseIntegerNumber pos rest false 0 ;;
  Ok (set_width fragment w, pos', rest').

Definition ReadThousandSepSpecifier (fragment : BasicFormatSpecifiers) (pos : Z) (rest : string)
  : BasicFormatSpecifiers * Z * string :=
  if Ascii.eqb (peek rest) FORMAT_THOUSANDS_TOGGLE
  then (set_thousandSeparator fragment true, pos + 1, advance rest)
  else (fragment, pos, rest).

Definition ReadPrecisionSpecifier (fragment : BasicFormatSpecifiers) (pos : Z) (rest : string)
  : outcome (BasicFormatSpecifiers * Z * string) :=
  if Ascii.eqb (peek rest) FORMAT_PRECISION_TOGGLE then
    '(p, pos', rest') <- ParseIntegerNumber (pos + 1) (advance rest) false (-1) ;;
    Ok (set_precision fragment p, pos', rest')
  else Ok (fragment, pos, rest).

Definition is_type_token (c : ascii) : bool :=
  Ascii.eqb c FORMAT_BINARY_TOGGLE || Ascii.eqb c FORMAT_UNICODE_CHAR_TOGGLE
  || Ascii.eqb c FORMAT_NORMAL_NUMBER_TOGGLE || Ascii.eqb c FORMAT_SCIENTIFIC_TOGGLE
  || Ascii.eqb c FORMAT_SCIENTIFIC_UC_TOGGLE || Ascii.eqb c FORMAT_FIXED_TOGGLE
  || Ascii.eqb c FORMAT_FIXED_UC_TOGGLE || Ascii.eqb c FORMAT_GENERAL_DECIM_TOGGLE
  || Ascii.eqb c FORMAT_GENERAL_DECIM_UC_TOGGLE || Ascii.eqb c FORMAT_LOCALIZED_NUMBER_TOGGLE
  || Ascii.eqb c FORMAT_OCTAL_TOGGLE || Ascii.eqb c FORMAT_LOWERCASE_HEX_TOGGLE
  || Ascii.eqb c FORMAT_UPPERCASE_HEX_TOGGLE || Ascii.eqb c FORMAT_PERCENTAGE_MODE.

Definition ReadTypeSpecifier (fragment : BasicFormatSpecifiers) (pos : Z) (rest : string)
  : BasicFormatSpecifiers * Z * string :=
  let type := peek rest in
  if is_type_token type then (set_type fragment type, pos + 1, advance rest)
  else (fragment, pos, rest).

(** The callers start at [pos = 0] and ignore the position reached; what is
    left of the specifier text after the eight stages is not looked at. *)
Definition ConvertToBasicFormatSpecifiers (formatParameter : string)
    (specifiers : BasicFormatSpecifiers) : outcome BasicFormatSpecifiers :=
  match formatParameter with
  | EmptyString => Ok specifiers
  | _ =>
    let '(s1, p1, r1) := ReadAlignSpecifier specifiers 0 formatParameter in
    let '(s2, p2, r2) := ReadSignSpecifier s1 p1 r1 in
    let '(s3, p3, r3) := ReadAlternateSpecifier s2 p2 r2 in
    let '(s4, p4, r4) := ReadSignAwareZeroSpecifier s3 p3 r3 in
    '(s5, p5, r5) <- ReadWidthSpecifier s4 p4 r4 ;;
    let '(s6, p6, r6) := ReadThousandSepSpecifier s5 p5 r5 in
    '(s7, p7, r7) <- ReadPrecisionSpecifier s6 p6 r6 ;;
    let '(s8, _, _) := ReadTypeSpecifier s7 p7 r7 in
    Ok s8
  end.

(** ** The output stream: the state a [std::stringstream] formats with

    [operator<<] on numbers and strings is the C++ library's [num_put]
    (ISO C++ [facet.num.put.virtuals]): the value is converted as by
    [printf] with the conversion the flags select, grouped as the locale's
    [numpunct] says, and padded to [width()] with [fill()]. *)

Inductive adjustfield : Type := adjust_left | adjust_right | adjust_internal.
Inductive basefield : Type := base_dec | base_oct | base_hex.
Inductive floatfield : Type := float_default | float_fixed | float_scientific.

Record numpunct : Type := mkNumpunct {
  thousands_sep : ascii;
  decimal_point : ascii;
  grouping : list Z                (* group sizes, from the right; the last repeats *)
}.

(** The classic "C" locale a stream starts with. *)
Definition classic_numpunct : numpunct := mkNumpunct "," "." [].

(** [AlwaysCommaAsThousandsSep]. *)
Definition AlwaysCommaAsThousandsSep : numpunct := mkNumpunct "," "." [3].

Record ios : Type := mkIos {
  ios_width : Z;
  ios_fill : ascii;
  ios_adjust : adjustfield;
  ios_showpos : bool;
  ios_uppercase : bool;
  ios_base : basefield;
  ios_float : floatfield;
  ios_precision : Z;
  ios_punct : numpunct
}.

(** A fresh [std::stringstream]: no width, blank fill, right adjustment (no
    adjustment flag set pads on the left), decimal, precision 6. *)
Definition new_stream : ios :=
  mkIos 0 " " adjust_right false false base_dec float_default 6 classic_numpunct.

Definition setw (w : Z) (s : ios) : ios :=
  mkIos w (ios_fill s) (ios_adjust s) (ios_showpos s) (ios_uppercase s)
        (ios_base s) (ios_float s) (ios_precision s) (ios_punct s).
Definition setfill (c : ascii) (s : ios) : ios :=
  mkIos (ios_width s) c (ios_adjust s) (ios_showpos s) (ios_uppercase s)
        (ios_base s) (ios_float s) (ios_precision s) (ios_punct s).
Definition setadjust (a : adjustfield) (s : ios) : ios :=
  mkIos (ios_width s) (ios_fill s) a (ios_showpos s) (ios_uppercase s)
        (ios_base s) (ios_float s) (ios_precision s) (ios_punct s).
Definition setshowpos (b : bool) (s : ios) : ios :=
  mkIos (ios_width s) (ios_fill s) (ios_adjust s) b (ios_uppercase s)
        (ios_base s) (ios_float s) (ios_precision s) (ios_punct s).
Definition setuppercase (s : ios) : ios :=
  mkIos (ios_width s) (ios_fill s) (ios_adjust s) (ios_showpos s) true
        (ios_base s) (ios_float s) (ios_precision s) (ios_punct s).
Definition setbase (b : basefield) (s : ios) : ios :=
  mkIos (ios_width s) (ios_fill s) (ios_adjust s) (ios_showpos s) (ios_uppercase s)
        b (ios_float s) (ios_precision s) (ios_punct s).
Definition setfloat (f : floatfield) (s : ios) : ios :=
  mkIos (ios_width s) (ios_fill s) (ios_adjust s) (ios_showpos s) (ios_uppercase s)
        (ios_base s) f (ios_precision s) (ios_punct s).
Definition setprecision (p : Z) (s : ios) : ios :=
  mkIos (ios_width s) (ios_fill s) (ios_adjust s) (ios_showpos s) (ios_uppercase s)
        (ios_base s) (ios_float s) p (ios_punct s).
Definition imbue (n : numpunct) (s : ios) : ios :=
  mkIos (ios_width s) (ios_fill s) (ios_adjust s) (ios_showpos s) (ios_uppercase s)
        (ios_base s) (ios_float s) (ios_precision s) n.

(** *** Digits *)

Definition digit_char (upper : bool) (d : Z) : ascii :=
  if d <? 10 then ascii_of_N (Z.to_N (code "0" + d))
  else if upper then ascii_of_N (Z.to_N (code "A" + (d - 10)))
  else ascii_of_N (Z.to_N (code "a" + (d - 10))).

Fixpoint digits_loop (fuel : nat) (base : Z) (upper : bool) (n : Z) (acc : string) : string :=
  match fuel with
  | O => acc
  | S fuel' =>
    let acc' := String (digit_char upper (n mod base)) acc in
    if n / base =? 0 then acc' else digits_loop fuel' base upper (n / base) acc'
  end.

(** The digits of [n >= 0] in [base]; [n] has at most [log2 n + 1] digits. *)
Definition digits (base : Z) (upper : bool) (n : Z) : string :=
  digits_loop (S (Z.to_nat (Z.log2 n))) base upper n "".

Definition decimal (n : Z) : string := digits 10 false n.

Definition string_rev (s : string) : string :=
  string_of_list_ascii (rev (list_ascii_of_string s)).

Definition substr (s : string) (start len : Z) : string :=
  String.substring (Z.to_nat start) (Z.to_nat len) s.

(** Thousands grouping of a digit string ([numpunct::grouping]): groups are
    counted from the right, the last size repeats, a size that is not
    positive ends the grouping. *)
Fixpoint group_loop (fuel : nat) (sep : ascii) (sizes : list Z) (rdigits : string) : string :=
  match fuel with
  | O => rdigits
  | S fuel' =>
    match sizes with
    | [] => rdigits
    | g :: sizes' =>
      if (g <=? 0) || (strlen rdigits <=? g) then rdigits
      else
        let next := match sizes' with [] => sizes | _ => sizes' end in
        substr rdigits 0 g
          ++ String sep (group_loop fuel' sep next (substr rdigits g (strlen rdigits - g)))
    end
  end.

Definition group_digits (punct : numpunct) (ds : string) : string :=
  string_rev (group_loop (String.length ds) (thousands_sep punct) (grouping punct)
                         (string_rev ds)).

(** Padding to the field width, [sign] being the part [internal] leaves on
    the left. *)
Definition pad (s : ios) (sgn body : string) : string :=
  let len := strlen sgn + strlen body in
  if ios_width s <=? len then sgn ++ body
  else
    let padding := replicate (Z.to_nat (ios_width s - len)) (ios_fill s) in
    match ios_adjust s with
    | adjust_left => sgn ++ body ++ padding
    | adjust_right => padding ++ sgn ++ body
    | adjust_internal => sgn ++ padding ++ body
    end.

(** [ostr << s] for a C string: [internal] pads as [right] does. *)
Definition put_string (s : ios) (v : string) : string :=
  match ios_adjust s with
  | adjust_left => pad s "" v
  | _ => pad (setadjust adjust_right s) "" v
  end.

(** [ostr << c] for one character. *)
Definition put_char (s : ios) (c : ascii) : string := put_string s (String c "").

Definition two64 : Z := 18446744073709551616.
Definition two63 : Z := 9223372036854775808.


(** [ostr << v] for an [int64_t]: [oct] and [hex] print the two's
    complement bit pattern and no sign. *)
Definition put_int (s : ios) (v : Z) : string :=
  match ios_base s with
  | base_dec =>
    let sgn := if v <? 0 then "-" else if ios_showpos s then "+" else "" in
    pad s sgn (group_digits (ios_punct s) (decimal (Z.abs v)))
  | base_oct => pad s "" (group_digits (ios_punct s) (digits 8 false (v mod two64)))
  | base_hex =>
    pad s "" (group_digits (ios_punct s) (digits 16 (ios_uppercase s) (v mod two64)))
  end.

(** *** Floating-point values

    A [long double] is the rational it denotes; infinities and NaN are not
    values of the model. Where the source computes on a [long double] the
    result is rounded to the 64-bit significand of the x87 extended format
    ([round_ld], to nearest, ties to even); the exponent range is not
    bounded. [printf] conversions are the correctly rounded decimal
    expansions of the exact value. *)

Local Open Scope Q_scope.

Definition Qabs' (q : Q) : Q := if Qle_bool 0 q then q else Qopp q.

Definition Qlt_bool (a b : Q) : bool := negb (Qle_bool b a).

Definition round_half_even (q : Q) : Z :=
  let f := Qfloor q in
  let r := Qred (q - inject_Z f) in
  match Qcompare r (1 # 2) with
  | Lt => f
  | Gt => (f + 1)%Z
  | Eq => if Z.even f then f else (f + 1)%Z
  end.

Definition pow2 (k : Z) : Q :=
  if (0 <=? k)%Z then inject_Z (2 ^ k) else Qinv (inject_Z (2 ^ (- k))).

Definition pow10 (k : Z) : Q :=
  if (0 <=? k)%Z then inject_Z (10 ^ k) else Qinv (inject_Z (10 ^ (- k))).

(** [floor (log2 a)] for [a > 0]. *)
Definition floor_log2 (a : Q) : Z :=
  let k := (Z.log2 (Qnum a) - Z.log2 (Zpos (Qden a)))%Z in
  if Qle_bool (pow2 k) a then k else (k - 1)%Z.

(** Rounding to a significand of [bits] bits, to nearest, ties to even. *)
Definition round_to (bits : Z) (q : Q) : Q :=
  if Qeq_bool q 0 then 0
  else
    let a := Qabs' q in
    let scale := (bits - 1 - floor_log2 a)%Z in
    let m := round_half_even (a * pow2 scale) in
    let r := Qred (inject_Z m * pow2 (- scale)) in
    if Qle_bool 0 q then r else Qopp r.

Definition round_ld (q : Q) : Q := round_to 64 q.
Definition round_double (q : Q) : Q := round_to 53 q.

(** [std::sqrt] on a [double] that holds the integer [a > 0]: the
    correctly rounded root. With [t = a * 4^scale] an integer and
    [s = floor (sqrt t)], the root of [t] lies below [s + 1/2] exactly when
    [t <= s^2 + s]. *)
Definition sqrt_double (a : Z) : Q :=
  if (a <=? 0)%Z then 0
  else
    let e := (Z.log2 a / 2)%Z in
    let scale := (52 - e)%Z in
    let t := (a * 4 ^ scale)%Z in
    let s := Z.sqrt t in
    let m := if (t <=? s * s + s)%Z then s else (s + 1)%Z in
    Qred (inject_Z m * pow2 (- scale)).

(** Truncation toward zero ([std::trunc], and the conversion to an integer). *)
Definition Qtrunc (q : Q) : Z :=
  if Qle_bool 0 q then Qfloor q else (- Qfloor (Qopp q))%Z.

Definition count_digits (n : Z) : Z := strlen (decimal n).

(** [floor (log10 a)] for [a > 0]: from the digits of the integer part when
    [a >= 1], by scaling up otherwise. *)
Fixpoint scale_up (fuel : nat) (a : Q) (k : Z) : Z :=
  match fuel with
  | O => k
  | S fuel' => if Qle_bool 1 a then k else scale_up fuel' (Qred (a * 10)) (k - 1)
  end.

Definition floor_log10 (a : Q) : Z :=
  if Qle_bool 1 a then (count_digits (Qfloor a) - 1)%Z
  else scale_up (S (Z.to_nat (count_digits (Zpos (Qden a))))) a 0.

(** Whether [a] is below the next power of ten by less than [2^-40] of it.
    There the logarithm is so close to an integer that the rounding of
    [std::log10] decides which integer its truncation gives. *)
Definition just_below_power_of_ten (a : Q) : bool :=
  Qle_bool (pow10 (floor_log10 a + 1) * (1 - Qmake 1 1099511627776)) a.

Local Close Scope Q_scope.

(** The parts of a converted number: digits before the point, digits after
    it, and the exponent suffix. *)
Record converted : Type := mkConverted {
  int_part : string;
  frac_part : string;
  exp_part : string
}.

Definition zeros (n : Z) : string := replicate (Z.to_nat n) "0".

(** [%.pf] of [a >= 0]. *)
Definition convert_fixed (a : Q) (p : Z) : converted :=
  let n := round_half_even (Qmult a (pow10 p)) in
  let ds := decimal n in
  let ds' := zeros (p + 1 - strlen ds) ++ ds in
  let k := strlen ds' - p in
  mkConverted (substr ds' 0 k) (substr ds' k p) "".

(** Mantissa and decimal exponent of [%.pe] of [a >= 0]. *)
Definition scientific_parts (a : Q) (p : Z) : Z * Z :=
  if Qeq_bool a 0 then (0, 0)
  else
    let x := floor_log10 a in
    let n := round_half_even (Qmult a (pow10 (p - x))) in
    if 10 ^ (p + 1) <=? n then (n / 10, x + 1) else (n, x).

Definition exponent_text (upper : bool) (x : Z) : string :=
  let ds := decimal (Z.abs x) in
  String (if upper then "E" else "e")%char
    ((if x <? 0 then "-" else "+") ++ zeros (2 - strlen ds) ++ ds).

(** [%.pe] of [a >= 0]. *)
Definition convert_scientific (upper : bool) (a : Q) (p : Z) : converted :=
  let '(n, x) := scientific_parts a p in
  let ds := zeros (p + 1 - strlen (decimal n)) ++ decimal n in
  mkConverted (substr ds 0 1) (substr ds 1 p) (exponent_text upper x).

Fixpoint strip_trailing_zeros_rev (r : string) : string :=
  match r with
  | String c r' => if Ascii.eqb c "0" then strip_trailing_zeros_rev r' else r
  | EmptyString => r
  end.

Definition strip_trailing_zeros (s : string) : string :=
  string_rev (strip_trailing_zeros_rev (string_rev s)).

(** [%.pg] of [a >= 0]: the style depends on the exponent [x] of the
    scientific conversion; trailing zeros of the fraction are removed. *)
Definition convert_general (upper : bool) (a : Q) (p : Z) : converted :=
  let P := if p =? 0 then 1 else p in
  let '(_, x) := scientific_parts a (P - 1) in
  let c := if (-4 <=? x) && (x <? P) then convert_fixed a (P - 1 - x)
           else convert_scientific upper a (P - 1) in
  mkConverted (int_part c) (strip_trailing_zeros (frac_part c)) (exp_part c).

(** [ostr << v] for a [long double]. A negative precision counts as 6. *)
Definition put_float (s : ios) (v : Q) : string :=
  let p := if ios_precision s <? 0 then 6 else ios_precision s in
  let a := Qabs' v in
  let c := match ios_float s with
           | float_fixed => convert_fixed a p
           | float_scientific => convert_scientific (ios_uppercase s) a p
           | float_default => convert_general (ios_uppercase s) a p
           end in
  let sgn := if Qlt_bool v 0 then "-" else if ios_showpos s then "+" else "" in
  let point := match frac_part c with
               | EmptyString => ""
               | _ => String (decimal_point (ios_punct s)) (frac_part c)
               end in
  pad s sgn (group_digits (ios_punct s) (int_part c) ++ point ++ exp_part c).

Definition Qof (num den : Z) : Q := Qred (Qmake num (Z.to_pos den)).

(** ** The host: what a render call reads from its process *)

Record host : Type := mkHost {
  getenv : string -> option string;      (* std::getenv *)
  user_numpunct : option numpunct;       (* numpunct of std::locale(""), if it is installed *)
  int64_is_long_long : bool              (* is int64_t the type long long? *)
}.

(** ** The numeric formatting engine *)

Section Engine.

Variable h : host.

(** [std::locale("")]: the locale the environment names. Its constructor
    throws [std::runtime_error] when that locale is not installed; the
    message is the one of libstdc++. *)
Definition LOCALE_NAME_NOT_VALID : string :=
  "locale::facet::_S_create_c_locale name not valid".

Definition user_locale : outcome numpunct :=
  match user_numpunct h with
  | Some punct => Ok punct
  | None => Throw (runtime_error LOCALE_NAME_NOT_VALID)
  end.

(** *** Integers *)

Fixpoint skip_leading_zeros (fuel : nat) (s : string) : string :=
  match fuel, s with
  | S fuel', String c s' => if Ascii.eqb c "0" then skip_leading_zeros fuel' s' else s
  | _, _ => s
  end.

(** [std::bitset<64>(value).to_string()]. *)
Definition bitset64_to_string (value : Z) : string :=
  let ds := digits 2 false (value mod two64) in
  zeros (64 - strlen ds) ++ ds.

Definition preprocess_common (specifiers : BasicFormatSpecifiers) (ostr : ios) : ios :=
  let s1 := setw (width specifiers) ostr in
  let s2 := if Ascii.eqb (fill specifiers) NUL then s1 else setfill (fill specifiers) s1 in
  s2.

Definition preprocess_sign (specifiers : BasicFormatSpecifiers) (ostr : ios) : ios :=
  if Ascii.eqb (sign specifiers) FORMAT_SIGN_NEGATIVES_TOGGLE then ostr
  else if Ascii.eqb (sign specifiers) FORMAT_SIGN_ALWAYS_TOGGLE then setshowpos true ostr
  else if Ascii.eqb (sign specifiers) FORMAT_SIGN_POSITIVE_SPACE_TOGGLE then setw 0 ostr
  else ostr.

Definition preprocess_align (specifiers : BasicFormatSpecifiers) (ostr : ios) : ios :=
  if Ascii.eqb (align specifiers) FORMAT_ALIGN_LEFT then setadjust adjust_left ostr
  else if Ascii.eqb (align specifiers) FORMAT_ALIGN_INTERNAL then setadjust adjust_internal ostr
  else if Ascii.eqb (align specifiers) FORMAT_ALIGN_CENTER then setw 0 ostr
  else setadjust adjust_right ostr.

(** The result is the stream state, the text already written (the binary
    digits), and [useValue]. *)
Definition PreprocessStreamForInteger (specifiers : BasicFormatSpecifiers) (ostr : ios)
    (value : Z) : outcome (ios * string * bool) :=
  let s1 := preprocess_common specifiers ostr in
  let s2 := if thousandSeparator specifiers then imbue AlwaysCommaAsThousandsSep s1 else s1 in
  let s3 := preprocess_sign specifiers s2 in
  let s4 := preprocess_align specifiers s3 in
  let t := type specifiers in
  if Ascii.eqb t FORMAT_BINARY_TOGGLE then
    let s5 := setshowpos false s4 in
    let binaryString := bitset64_to_string value in
    Ok (s5, put_string s5 (skip_leading_zeros 63 binaryString), false)
  else if Ascii.eqb t FORMAT_UNICODE_CHAR_TOGGLE then Ok (s4, "", true)
  else if Ascii.eqb t FORMAT_OCTAL_TOGGLE then Ok (setbase base_oct s4, "", true)
  else if Ascii.eqb t FORMAT_UPPERCASE_HEX_TOGGLE then
    Ok (setbase base_hex (setuppercase s4), "", true)
  else if Ascii.eqb t FORMAT_LOWERCASE_HEX_TOGGLE then Ok (setbase base_hex s4, "", true)
  else if Ascii.eqb t FORMAT_LOCALIZED_NUMBER_TOGGLE then
    punct <- user_locale ;;
    Ok (imbue punct s4, "", true)
  else Ok (s4, "", true).

(** The three paddings [left], [center], [right] of the post-processing
    steps, computed in [int]. *)
Definition paddings (alignment : ascii) (addPadding : bool) (w contentWidth : Z) : Z * Z * Z :=
  if addPadding then
    if Ascii.eqb alignment FORMAT_ALIGN_LEFT then (0, 0, w - contentWidth)
    else if Ascii.eqb alignment FORMAT_ALIGN_CENTER then
      let paddingLeft := Z.quot (w - contentWidth) 2 in
      (paddingLeft, 0, w - paddingLeft - contentWidth)
    else if Ascii.eqb alignment FORMAT_ALIGN_INTERNAL then (0, w - contentWidth, 0)
    else (w - contentWidth, 0, 0)
  else (0, 0, 0).

(** [if (addPadding && n > 0) ostr << setw(n) << setfill(c) << c]: the
    character [c], padded to [n] characters with itself. *)
Definition padding_text (addPadding : bool) (n : Z) (c : ascii) : string :=
  if addPadding && (0 <? n) then put_char (setfill c (setw n new_stream)) c else "".

Definition alternate_prefix (specifiers : BasicFormatSpecifiers) : string :=
  if alternateForm specifiers then
    let t := type specifiers in
    if Ascii.eqb t FORMAT_BINARY_TOGGLE then "0b"
    else if Ascii.eqb t FORMAT_OCTAL_TOGGLE then "0o"
    else if Ascii.eqb t FORMAT_LOWERCASE_HEX_TOGGLE then "0x"
    else if Ascii.eqb t FORMAT_UPPERCASE_HEX_TOGGLE then "0X"
    else ""
  else "".

(** The body shared by [PostprocessStreamForInteger] and
    [PostprocessStreamForDecimal]; [nonneg] is [value >= 0], [suffix] the
    percent sign of the decimal percentage mode. *)
Definition postprocess_number (writtenString : string) (specifiers : BasicFormatSpecifiers)
    (nonneg : bool) (suffix : string) : string :=
  let contentWidth := strlen writtenString in
  let space := Ascii.eqb (sign specifiers) FORMAT_SIGN_POSITIVE_SPACE_TOGGLE in
  let addPadding := space || Ascii.eqb (align specifiers) FORMAT_ALIGN_CENTER in
  let fillCharToUse := if Ascii.eqb (fill specifiers) NUL then " "%char else fill specifiers in
  let internalNegative :=
    space && negb nonneg && Ascii.eqb (align specifiers) FORMAT_ALIGN_INTERNAL in
  let contentWidth1 := if space && nonneg then contentWidth + 1 else contentWidth in
  let writtenString1 :=
    if space && nonneg then writtenString
    else if internalNegative then advance writtenString else writtenString in
  let contentWidth2 :=
    if alternateForm specifiers && strchr "boxX" (type specifiers)
    then contentWidth1 + 2 else contentWidth1 in
  let '(paddingLeft, paddingCenter, paddingRight) :=
    paddings (align specifiers) addPadding (width specifiers) contentWidth2 in
  padding_text addPadding paddingLeft fillCharToUse
  ++ (if space && nonneg then " " else if internalNegative then "-" else "")
  ++ padding_text addPadding paddingCenter fillCharToUse
  ++ alternate_prefix specifiers
  ++ writtenString1
  ++ suffix
  ++ padding_text addPadding paddingRight fillCharToUse.

Definition PostprocessStreamForInteger (writtenString : string)
    (specifiers : BasicFormatSpecifiers) (value : Z) : string :=
  postprocess_number writtenString specifiers (0 <=? value) "".

Definition FormatType_int64 (value : Z) (formatSpecifier : string) : outcome string :=
  specifiers <- ConvertToBasicFormatSpecifiers formatSpecifier InitializeFormatSpecifier ;;
  '(buffer, written, useValue) <- PreprocessStreamForInteger specifiers new_stream value ;;
  let written' := if useValue then written ++ put_int buffer value else written in
  Ok (PostprocessStreamForInteger written' specifiers value).

(** *** Strings *)

Definition PreprocessStreamForString (specifiers : BasicFormatSpecifiers) (ostr : ios) : ios :=
  let s1 := preprocess_common specifiers ostr in
  if Ascii.eqb (align specifiers) FORMAT_ALIGN_RIGHT then setadjust adjust_right s1
  else if Ascii.eqb (align specifiers) FORMAT_ALIGN_INTERNAL then setadjust adjust_internal s1
  else if Ascii.eqb (align specifiers) FORMAT_ALIGN_CENTER then setw 0 s1
  else setadjust adjust_left s1.

Definition PostprocessStreamForString (writtenString : string)
    (specifiers : BasicFormatSpecifiers) : string :=
  let contentWidth := strlen writtenString in
  let addPadding := Ascii.eqb (align specifiers) FORMAT_ALIGN_CENTER in
  let fillCharToUse := if Ascii.eqb (fill specifiers) NUL then " "%char else fill specifiers in
  let truncated := (0 <? precision specifiers) && (precision specifiers <? contentWidth) in
  let writtenString1 :=
    if truncated then substr writtenString 0 (precision specifiers) else writtenString in
  let contentWidth1 := if truncated then precision specifiers else contentWidth in
  let addPadding1 :=
    if truncated && (precision specifiers <? width specifiers) then true else addPadding in
  let '(paddingLeft, paddingRight) :=
    if addPadding1 then
      if Ascii.eqb (align specifiers) FORMAT_ALIGN_LEFT
      then (0, width specifiers - contentWidth1)
      else if Ascii.eqb (align specifiers) FORMAT_ALIGN_CENTER then
        let l := Z.quot (width specifiers - contentWidth1) 2 in
        (l, width specifiers - l - contentWidth1)
      else (width specifiers - contentWidth1, 0)
    else (0, 0) in
  padding_text addPadding1 paddingLeft fillCharToUse
  ++ writtenString1
  ++ padding_text addPadding1 paddingRight fillCharToUse.

Definition FormatType_cstr (value : string) (formatSpecifier : string) : outcome string :=
  specifiers <- ConvertToBasicFormatSpecifiers formatSpecifier InitializeFormatSpecifier ;;
  let buffer := PreprocessStreamForString specifiers new_stream in
  Ok (PostprocessStreamForString (put_string buffer value) specifiers).

Definition FormatType_string (value : string) (formatSpecifier : string) : outcome string :=
  FormatType_cstr (c_str value) formatSpecifier.

(** *** Decimals *)

(** The results are the stream state, [value] (scaled in percentage mode),
    [useDynamic], [minPrecision], [maxPrecision] and [scientificCeil];
    [useValue] is always true. *)
Definition PreprocessStreamForDecimal (specifiers : BasicFormatSpecifiers) (ostr : ios)
    (value : Q) (maxPrecision : Z) : outcome (ios * Q * bool * Z * Z * Z) :=
  let s1 := preprocess_common specifiers ostr in
  let s2 := if 0 <=? precision specifiers then setprecision (precision specifiers) s1 else s1 in
  let s3 := if thousandSeparator specifiers then imbue AlwaysCommaAsThousandsSep s2 else s2 in
  let s4 := preprocess_sign specifiers s3 in
  let s5 := preprocess_align specifiers s4 in
  let t := type specifiers in
  let notSet := precision specifiers =? PRECISION_NOT_SET in
  let scientific (s : ios) :=
    Ok (setfloat float_scientific (if notSet then setprecision 6 s else s),
        value, negb notSet, 1, maxPrecision, 0) in
  let fixed (s : ios) (v : Q) :=
    Ok (setfloat float_fixed (if notSet then setprecision 6 s else s),
        v, negb notSet, 1, maxPrecision, 0) in
  if Ascii.eqb t FORMAT_SCIENTIFIC_UC_TOGGLE then scientific (setuppercase s5)
  else if Ascii.eqb t FORMAT_SCIENTIFIC_TOGGLE then scientific s5
  else if Ascii.eqb t FORMAT_GENERAL_DECIM_UC_TOGGLE then
    Ok (setuppercase s5, value, true, 0, 6, 6)
  else if Ascii.eqb t FORMAT_GENERAL_DECIM_TOGGLE then Ok (s5, value, true, 0, 6, 6)
  else if Ascii.eqb t FORMAT_LOCALIZED_NUMBER_TOGGLE then
    punct <- user_locale ;;
    Ok (imbue punct s5, value, true, 0, 6, 6)
  else if Ascii.eqb t FORMAT_PERCENTAGE_MODE then
    fixed (setuppercase s5) (round_ld (Qmult value (inject_Z 100)))
  else if Ascii.eqb t FORMAT_FIXED_UC_TOGGLE then fixed (setuppercase s5) value
  else if Ascii.eqb t FORMAT_FIXED_TOGGLE then fixed s5 value
  else Ok (s5, value, true, 1, maxPrecision, 0).

Definition PostprocessStreamForDecimal (writtenString : string)
    (specifiers : BasicFormatSpecifiers) (value : Q) : string :=
  postprocess_number writtenString specifiers (Qle_bool 0 value)
    (if Ascii.eqb (type specifiers) FORMAT_PERCENTAGE_MODE then "%" else "").

(** [FormatDynamicDecimal::precision]: the square root of the [double]
    epsilon [2^-52]. *)
Definition dynamic_epsilon : Q := Qmake 1 67108864.

Definition scientificLimit : Z := 5.

Definition wrapu32 (z : Z) : Z := z mod 4294967296.

(** The loop counting the trailing zeroes of [intVersion]; [factor] is an
    [unsigned] and wraps, and a remainder by a zero [factor] is undefined. *)
Fixpoint trailing_zeroes_loop (fuel : nat) (intVersion factor trailingZeroes : Z)
  : outcome Z :=
  match fuel with
  | O => Stuck "FormatDynamicDecimal: out of fuel"
  | S fuel' =>
    if factor =? 0 then Stuck "FormatDynamicDecimal: remainder by zero"
    else if intVersion mod factor =? 0 then
      trailing_zeroes_loop fuel' intVersion (wrapu32 (factor * 10)) (trailingZeroes + 1)
    else Ok trailingZeroes
  end.

(** The loop extracting the fractional digits: the state is [f], [n],
    [leadingZeroes] and [inLeadingZeroes]. *)
Fixpoint fraction_loop (fuel : nat) (f : Q) (n leadingZeroes : Z) (inLeadingZeroes : bool)
  : outcome (Z * Z) :=
  if Qlt_bool dynamic_epsilon f then
    match fuel with
    | O => Stuck "FormatDynamicDecimal: out of fuel"
    | S fuel' =>
      let f1 := round_ld (Qmult f (inject_Z 10)) in
      let leading := inLeadingZeroes && Qlt_bool (inject_Z (Qtrunc f1)) dynamic_epsilon in
      let f2 := round_ld (Qminus f1 (inject_Z (Qtrunc f1))) in
      fraction_loop fuel' f2 (n + 1)
                    (if leading then leadingZeroes + 1 else leadingZeroes) leading
    end
  else Ok (n, leadingZeroes).

(** [operator<<(std::ostream&, const FormatDynamicDecimal&)]. The integer
    part must fit [uint64_t] for the cast to be defined. [std::log10] is
    taken exact, and a value just below a power of ten, where its rounding
    decides the number of integer digits, leaves the model. *)
Definition FormatDynamicDecimal (stream : ios) (value : Q)
    (minPrecision maxPrecision scientificCeil : Z) : outcome string :=
  let intVersion := Qtrunc (Qabs' value) in
  if two64 <=? intVersion then Stuck "FormatDynamicDecimal: integer part exceeds uint64_t"
  else if (0 <? intVersion) && just_below_power_of_ten (Qabs' value) then
    Stuck "std::log10: the rounding decides the integer part"
  else
    let intLogVersion := if 0 <? intVersion then floor_log10 (Qabs' value) else 0 in
    let intDigits := if 0 <? intVersion then intLogVersion + 1 else 0 in
    let aboveScientificCeil :=
      (0 <? intVersion) && (scientificCeil <? intDigits) && (0 <? scientificCeil) in
    '(n, scientific) <-
      (if aboveScientificCeil then
         trailingZeroes <- trailing_zeroes_loop 33 intVersion 10 0 ;;
         Ok (intLogVersion - trailingZeroes, false)
       else if intDigits <? maxPrecision then
         let f := Qabs' (Qred (Qminus value (inject_Z (Qtrunc value)))) in
         '(n0, leadingZeroes) <-
            fraction_loop (Z.to_nat (count_digits (Zpos (Qden f)) + 80)) f 0 0
                          (intVersion =? 0) ;;
         let n1 := Z.max n0 minPrecision in
         if (scientificLimit <=? n1) && (0 <? leadingZeroes)
         then Ok (n1 - (leadingZeroes + 1), true)
         else Ok (n1, false)
       else Ok (0, false)) ;;
    let n1 := Z.min n maxPrecision in
    let '(n2, newFlags) :=
      if aboveScientificCeil then
        (if n1 =? maxPrecision then n1 - 1 else n1, float_scientific)
      else if maxPrecision <? intDigits + n1 then
        (if intDigits <? n1 then n1 - intDigits else 0,
         if scientific then float_scientific else float_fixed)
      else (n1, if scientific then float_scientific else float_fixed) in
    Ok (put_float (setfloat newFlags (setprecision n2 stream)) value).

Definition FormatType_long_double (value : Q) (formatSpecifier : string) : outcome string :=
  specifiers <- ConvertToBasicFormatSpecifiers formatSpecifier InitializeFormatSpecifier ;;
  '(buffer, value', useDynamic, minPrecision, maxPrecision, scientificCeil) <-
    PreprocessStreamForDecimal specifiers new_stream value DOUBLE_MAX_DEFAULT_PRECISION ;;
  written <-
    (if useDynamic && (precision specifiers =? PRECISION_NOT_SET)
     then FormatDynamicDecimal buffer value' minPrecision maxPrecision scientificCeil
     else Ok (put_float buffer value')) ;;
  Ok (PostprocessStreamForDecimal written specifiers value').

(** [FormatType(bool)]: the value as an [int64_t]. *)
Definition FormatType_bool (value : bool) (formatSpecifier : string) : outcome string :=
  FormatType_int64 (if value then 1 else 0) formatSpecifier.

(** *** Conversions of the C and C++ libraries *)

(** [std::to_string(int64_t)] and [std::to_string(long double)] (["%Lf"]). *)
Definition to_string_int64 (value : Z) : string := put_int new_stream value.
Definition to_string_long_double (value : Q) : string :=
  put_float (setfloat float_fixed new_stream) value.

Definition isspace (c : ascii) : bool :=
  Ascii.eqb c " " || ((code "009" <=? code c) && (code c <=? code "013")).

Fixpoint skip_space (s : string) : string :=
  match s with
  | String c s' => if isspace c then skip_space s' else s
  | EmptyString => s
  end.

Definition read_sign (s : string) : bool * string :=
  match s with
  | String "-" s' => (true, s')
  | String "+" s' => (false, s')
  | _ => (false, s)
  end.

(** The decimal digits at the head of [s]: their value on top of [acc],
    how many there are, and the text after them. *)
Fixpoint read_digits (s : string) (acc count : Z) : Z * Z * string :=
  match s with
  | String c s' =>
    if is_digit c then read_digits s' (acc * 10 + (code c - code "0")) (count + 1)
    else (acc, count, s)
  | EmptyString => (acc, count, s)
  end.

(** [std::strtoll(value, &dummy, 10)]: no digits give 0, a value out of
    range gives the nearest bound. *)
Definition strtoll (value : string) : Z :=
  let '(negative, s1) := read_sign (skip_space value) in
  let '(n, _, _) := read_digits s1 0 0 in
  let v := if negative then - n else n in
  Z.max (- two63) (Z.min (two63 - 1) v).

Definition lower (c : ascii) : ascii :=
  if (code "A" <=? code c) && (code c <=? code "Z")
  then ascii_of_N (Z.to_N (code c + 32)) else c.

Fixpoint prefix_nocase (p s : string) : bool :=
  match p, s with
  | EmptyString, _ => true
  | String a p', String b s' => Ascii.eqb a (lower b) && prefix_nocase p' s'
  | _, EmptyString => false
  end.

Definition is_hex_digit (c : ascii) : bool :=
  is_digit c || ((code "a" <=? code (lower c)) && (code (lower c) <=? code "f")).

(** [std::strtold(value, &dummy)], for decimal input in the "C" locale. The
    result is the correctly rounded value. Input that denotes an infinity
    or a NaN, a hexadecimal literal, or an exponent beyond the range of
    [long double] leaves the model, and so does a negative zero, which
    the rationals do not hold. *)
Definition strtold (value : string) : outcome Q :=
  let '(negative, s1) := read_sign (skip_space value) in
  if prefix_nocase "inf" s1 || prefix_nocase "nan" s1 then
    Stuck "strtold: infinity or NaN"
  else if prefix_nocase "0x" s1
          && (is_hex_digit (peek (advance (advance s1)))
              || (Ascii.eqb (peek (advance (advance s1))) "."
                  && is_hex_digit (peek (advance (advance (advance s1)))))) then
    Stuck "strtold: hexadecimal literal"
  else
    let '(ipart, icount, s2) := read_digits s1 0 0 in
    let '(mant, fcount, s3) :=
      if Ascii.eqb (peek s2) "." then read_digits (advance s2) ipart 0
      else (ipart, 0, s2) in
    if icount + fcount =? 0 then Ok (Qmake 0 1)
    else
      let '(enegative, s4) :=
        if Ascii.eqb (lower (peek s3)) "e" then read_sign (advance s3) else (false, s3) in
      let '(e, ecount, _) :=
        if Ascii.eqb (lower (peek s3)) "e" then read_digits s4 0 0 else (0, 0, s3) in
      let exponent := if ecount =? 0 then 0 else if enegative then - e else e in
      if 4900 <? Z.abs (exponent - fcount) then Stuck "strtold: exponent out of range"
      else if negative && (mant =? 0) then Stuck "strtold: negative zero"
      else
        let a := round_ld (Qmult (inject_Z mant) (pow10 (exponent - fcount))) in
        Ok (if negative then Qopp a else a).

(** *** The conversion layer: [ConvertAndFormatType] on the built-in types

    The results are the returned [bool], the fragment (whose selector queue
    the call pops), and the text written. *)

Definition pop_selector (fragment : FormatFragment) : FormatFragment :=
  set_selectors fragment (tl (selectors fragment)).

Definition wrote (fragment : FormatFragment) (m : outcome string)
  : outcome (bool * FormatFragment * string) :=
  out <- m ;; Ok (true, fragment, out).

Definition ConvertAndFormatType_long_double (value : Q) (fragment : FormatFragment)
  : outcome (bool * FormatFragment * string) :=
  let conv := explicitConversion fragment in
  let spec := c_str (formatSpecifier fragment) in
  if Ascii.eqb conv "s" || Ascii.eqb conv "r" then
    wrote fragment (FormatType_string (to_string_long_double value) spec)
  else if Ascii.eqb conv "i" then
    if (two63 <=? Qtrunc value) || (Qtrunc value <? - two63)
    then Stuck "static_cast<int64_t>: value out of range"
    else wrote fragment (FormatType_int64 (Qtrunc value) spec)
  else wrote fragment (FormatType_long_double value spec).

(** [ConvertAndFormatType(int64_t)]: the recursion is on the selector
    queue. [sign] calls [ConvertAndFormatType] on a [long long]; where
    [int64_t] is [long], the best overload for that is the fallback template,
    which writes nothing and returns [false]. [sqrt] calls it on the
    [double] that [std::sqrt] returns, a NaN for a negative value.
    [std::abs(value)], [value + 1] and [value - 1] are computed in
    [int64_t]: at the end of its range they overflow, which is undefined. *)
Fixpoint ConvertAndFormatType_int64_loop (queue : list string) (value : Z)
    (fragment : FormatFragment) : outcome (bool * FormatFragment * string) :=
  let switch (fragment : FormatFragment) :=
    let conv := explicitConversion fragment in
    let spec := c_str (formatSpecifier fragment) in
    if Ascii.eqb conv "s" || Ascii.eqb conv "r" then
      wrote fragment (FormatType_string (to_string_int64 value) spec)
    else if Ascii.eqb conv "d" then
      wrote fragment (FormatType_long_double (inject_Z value) spec)
    else wrote fragment (FormatType_int64 value spec) in
  match queue with
  | [] => switch fragment
  | selector :: queue' =>
    let fragment' := set_selectors fragment queue' in
    if String.eqb selector "abs" then
      if value =? - two63 then Stuck "ConvertAndFormatType: signed integer overflow"
      else ConvertAndFormatType_int64_loop queue' (Z.abs value) fragment'
    else if String.eqb selector "sign" then
      if int64_is_long_long h then
        ConvertAndFormatType_int64_loop queue' (if value <? 0 then -1 else 1) fragment'
      else Ok (false, fragment', "")
    else if String.eqb selector "inc" then
      if value =? two63 - 1 then Stuck "ConvertAndFormatType: signed integer overflow"
      else ConvertAndFormatType_int64_loop queue' (value + 1) fragment'
    else if String.eqb selector "dec" then
      if value =? - two63 then Stuck "ConvertAndFormatType: signed integer overflow"
      else ConvertAndFormatType_int64_loop queue' (value - 1) fragment'
    else if String.eqb selector "sqrt" then
      if value <? 0 then Stuck "std::sqrt: NaN"
      else
        ConvertAndFormatType_long_double
          (sqrt_double (Qnum (round_double (inject_Z value)))) fragment'
    else switch fragment'
  end.

Definition ConvertAndFormatType_int64 (value : Z) (fragment : FormatFragment)
  : outcome (bool * FormatFragment * string) :=
  ConvertAndFormatType_int64_loop (selectors fragment) value fragment.

Definition ConvertAndFormatType_bool (value : bool) (fragment : FormatFragment)
  : outcome (bool * FormatFragment * string) :=
  let spec := c_str (formatSpecifier fragment) in
  let convertToType :=
    match formatSpecifier fragment with
    | EmptyString => "s"%char
    | _ => explicitConversion fragment
    end in
  if Ascii.eqb convertToType "s" || Ascii.eqb convertToType "r" then
    wrote fragment (FormatType_cstr (if value then "True" else "False") spec)
  else if Ascii.eqb convertToType "i" then
    wrote fragment (FormatType_int64 (if value then 1 else 0) spec)
  else if Ascii.eqb convertToType "d" then
    wrote fragment (FormatType_long_double (inject_Z (if value then 1 else 0)) spec)
  else wrote fragment (FormatType_bool value spec).

Definition ConvertAndFormatType_cstr (value : string) (fragment : FormatFragment)
  : outcome (bool * FormatFragment * string) :=
  let conv := explicitConversion fragment in
  let spec := c_str (formatSpecifier fragment) in
  if Ascii.eqb conv "i" then wrote fragment (FormatType_int64 (strtoll value) spec)
  else if Ascii.eqb conv "d" then
    wrote fragment (v <- strtold value ;; FormatType_long_double v spec)
  else wrote fragment (FormatType_cstr value spec).

Definition ConvertAndFormatType_string (value : string) (fragment : FormatFragment)
  : outcome (bool * FormatFragment * string) :=
  ConvertAndFormatType_cstr (c_str value) fragment.

(** ** Arguments

    The variadic arguments of [Format], by the overloads and traits that
    select their rendering: the integral types, the floating-point types,
    [bool], the strings, the containers with an [iterator] that are not
    maps, the maps keyed by [std::string] (entries in iteration order), and
    the pair-like types. *)

Inductive value : Type :=
| VInt (v : Z)
| VDecimal (v : Q)
| VBool (b : bool)
| VString (s : string)
| VSequence (elements : list value)
| VMap (entries : list (string * value))
| VPair (first second : value).

(** [value.count(selector) > 0] and [value.at(selector)]. *)
Fixpoint map_at (entries : list (string * value)) (selector : string) : option value :=
  match entries with
  | [] => None
  | (key, v) :: entries' => if String.eqb key selector then Some v else map_at entries' selector
  end.

(** [FormatType(value, const char* formatSpecifier, output)], by overload. *)
Fixpoint FormatType (v : value) (formatSpecifier : string) : outcome string :=
  match v with
  | VInt z => FormatType_int64 z formatSpecifier
  | VDecimal q => FormatType_long_double q formatSpecifier
  | VBool b => FormatType_bool b formatSpecifier
  | VString s => FormatType_string s formatSpecifier
  | VSequence elements =>
    body <-
      (fix each (first : bool) (l : list value) : outcome string :=
         match l with
         | [] => Ok ""
         | elem :: l' =>
           out <- FormatType elem formatSpecifier ;;
           more <- each false l' ;;
           Ok ((if first then "" else FORMAT_ARRAY_SEP) ++ out ++ more)
         end) true elements ;;
    Ok (FORMAT_ARRAY_OPEN ++ body ++ FORMAT_ARRAY_CLOSE)
  | VMap entries =>
    body <-
      (fix each (first : bool) (l : list (string * value)) : outcome string :=
         match l with
         | [] => Ok ""
         | (key, elem) :: l' =>
           k <- FormatType_string key formatSpecifier ;;
           out <- FormatType elem formatSpecifier ;;
           more <- each false l' ;;
           Ok ((if first then "" else FORMAT_MAP_SEP)
               ++ FORMAT_PAIR_OPEN ++ k ++ FORMAT_PAIR_SEP ++ out ++ FORMAT_PAIR_CLOSE
               ++ more)
         end) true entries ;;
    Ok (FORMAT_MAP_OPEN ++ body ++ FORMAT_MAP_CLOSE)
  | VPair first second =>
    a <- FormatType first formatSpecifier ;;
    b <- FormatType second formatSpecifier ;;
    Ok (FORMAT_PAIR_OPEN ++ a ++ FORMAT_PAIR_SEP ++ b ++ FORMAT_PAIR_CLOSE)
  end.

(** [ConvertAndFormatType(value, fragment, output)], by overload. The map
    overload pops a selector and, when it is a key, formats the mapped value
    and returns [true] whatever that call returns; the other containers
    take the fallback template. *)
Fixpoint ConvertAndFormatType (v : value) (fragment : FormatFragment)
  : outcome (bool * FormatFragment * string) :=
  match v with
  | VInt z => ConvertAndFormatType_int64 z fragment
  | VDecimal q => ConvertAndFormatType_long_double q fragment
  | VBool b => ConvertAndFormatType_bool b fragment
  | VString s => ConvertAndFormatType_string s fragment
  | VMap entries =>
    let whole (fragment : FormatFragment) :=
      wrote fragment (FormatType (VMap entries) (c_str (formatSpecifier fragment))) in
    match selectors fragment with
    | [] => whole fragment
    | selector :: _ =>
      let fragment' := pop_selector fragment in
      (fix find (l : list (string * value)) : outcome (bool * FormatFragment * string) :=
         match l with
         | [] => whole fragment'
         | (key, elem) :: l' =>
           if String.eqb key selector then
             '(_, fragment'', out) <- ConvertAndFormatType elem fragment' ;;
             Ok (true, fragment'', out)
           else find l'
         end) entries
    end
  | VSequence _ | VPair _ _ => Ok (false, fragment, "")
  end.

End Engine.

(** ** The field descriptor parser, the binder and the assembler *)

Section Render.

Variable h : host.

(** The macro [FORMAT_DISABLE_THROW_OUT_OF_RANGE]: [true] when defined. It
    is not defined by default. *)
Variable FORMAT_DISABLE_THROW_OUT_OF_RANGE : bool.

Definition TranslateEnvironmentFragment (fragment : FormatFragment) : outcome FormatFragment :=
  if index fragment =? FORMAT_ENVIRONMENT_INDEX then
    let envValue :=
      match getenv h (c_str (text fragment)) with
      | Some envValuePtr => envValuePtr
      | None => ""
      end in
    '(isHandled, fragment', out) <- ConvertAndFormatType_string h envValue fragment ;;
    buffer <-
      (if isHandled then Ok out
       else more <- FormatType_string envValue (c_str (formatSpecifier fragment')) ;;
            Ok (out ++ more)) ;;
    Ok (set_text fragment' buffer)
  else Ok fragment.

(** [ParseFormatParameter]: called on an opening bracket. The results are
    the fragments appended to [fragments], the position reached, and
    [nextParameterIndex]. The sum [parameterIndex + 1] is computed in [int]
    and is undefined for the largest [int]. *)
Definition ParseFormatParameter (pos : Z) (rest : string) (nextParameterIndex : Z)
  : outcome (list FormatFragment * Z * string * Z) :=
  _ <- assert (Ascii.eqb (peek rest) FORMAT_START) ;;
  let '(pos1, rest1) := SkipWhitespace (pos + 1) (advance rest) in
  '(fragment0, parameterIndex, pos2, rest2, nextParameterIndex') <-
    (if Ascii.eqb (peek rest1) FORMAT_ENVIRONMENT then
       '(name, pos2, rest2) <- ReadEnvironmentVariableName pos1 rest1 ;;
       Ok (set_text new_fragment name, FORMAT_ENVIRONMENT_INDEX, pos2, rest2,
           nextParameterIndex)
     else
       '(parameterIndex, pos2, rest2) <-
          ParseIntegerNumber pos1 rest1 false nextParameterIndex ;;
       if INT_MAX <=? parameterIndex then
         Stuck "ParseFormatParameter: signed integer overflow"
       else Ok (new_fragment, parameterIndex, pos2, rest2, parameterIndex + 1)) ;;
  let fragment1 := InitializeFormatFragment fragment0 parameterIndex in
  '(fragment2, pos3, rest3) <- ReadSelectors fragment1 pos2 rest2 ;;
  '(fragment3, pos4, rest4) <- ReadExplicitTypeConversion fragment2 pos3 rest3 ;;
  '(fragment4, pos5, rest5) <- ParseFormatSpecifier fragment3 pos4 rest4 ;;
  fragment5 <- TranslateEnvironmentFragment fragment4 ;;
  let '(pos6, rest6) := SkipWhitespace pos5 rest5 in
  if negb (Ascii.eqb (peek rest6) FORMAT_END) then
    illegal pos6 "Expected format closing bracket '}'"
  else
    let pos7 := pos6 + 1 in
    let rest7 := advance rest6 in
    match rest7 with
    | EmptyString => Ok ([fragment5], pos7, rest7, nextParameterIndex')
    | _ =>
      '(buffer, pos8, rest8) <- GetPlainTextFragment pos7 rest7 ;;
      match buffer with
      | EmptyString => Ok ([fragment5], pos8, rest8, nextParameterIndex')
      | _ =>
        let textFragment :=
          set_text (InitializeFormatFragment new_fragment FORMAT_TEXT_INDEX) buffer in
        Ok ([fragment5; textFragment], pos8, rest8, nextParameterIndex')
      end
    end.

(** The loop of [ParseFormatStr]: every call of [ParseFormatParameter]
    consumes at least the opening bracket, so the length of the text left
    bounds the number of turns; [fuel] is that bound. *)
Fixpoint ParseFormatStr_loop (fuel : nat) (fragments : list FormatFragment)
    (pos : Z) (rest : string) (nextParameterIndex : Z) : outcome (list FormatFragment) :=
  match rest with
  | EmptyString => Ok fragments
  | _ =>
    match fuel with
    | O => Stuck "ParseFormatStr: out of fuel"
    | S fuel' =>
      '(parsed, pos', rest', nextParameterIndex') <-
         ParseFormatParameter pos rest nextParameterIndex ;;
      ParseFormatStr_loop fuel' (fragments ++ parsed) pos' rest' nextParameterIndex'
    end
  end.

(** The results are the text sent to [ostr] and the fragments. *)
Definition ParseFormatStr (formatStr : string) : outcome (string * list FormatFragment) :=
  '(ostr, pos, rest) <- GetPlainTextFragment 0 formatStr ;;
  fragments <- ParseFormatStr_loop (String.length rest) [] pos rest 0 ;;
  Ok (ostr, fragments).

(** [FormatParameter<ArgumentIndex>(fragments, arg)]. *)
Fixpoint FormatParameter (ArgumentIndex : Z) (fragments : list FormatFragment) (arg : value)
  : outcome (list FormatFragment) :=
  match fragments with
  | [] => Ok []
  | fragment :: fragments' =>
    fragment1 <-
      (if index fragment =? ArgumentIndex then
         '(isHandled, fragment', out) <- ConvertAndFormatType h arg fragment ;;
         buffer <-
           (if isHandled then Ok out
            else more <- FormatType h arg (c_str (formatSpecifier fragment')) ;;
                 Ok (out ++ more)) ;;
         Ok (set_handled (set_text fragment' buffer) true)
       else Ok fragment) ;;
    rest <- FormatParameter ArgumentIndex fragments' arg ;;
    Ok (fragment1 :: rest)
  end.

(** [FormatParameters<ArgumentIndex>(fragments, args...)]. *)
Fixpoint FormatParameters (ArgumentIndex : Z) (fragments : list FormatFragment)
    (args : list value) : outcome (list FormatFragment) :=
  match args with
  | [] => Ok fragments
  | arg :: args' =>
    fragments' <- FormatParameter ArgumentIndex fragments arg ;;
    FormatParameters (ArgumentIndex + 1) fragments' args'
  end.

Definition unbound_message (fragment : FormatFragment) : string :=
  "Format parameter: " ++ put_int new_stream (index fragment)
  ++ " does not refer to a valid parameter.".

Fixpoint OutputFragments (fragments : list FormatFragment) : outcome string :=
  match fragments with
  | [] => Ok ""
  | fragment :: fragments' =>
    if negb FORMAT_DISABLE_THROW_OUT_OF_RANGE && negb (handled fragment) then
      Throw (out_of_range (unbound_message fragment))
    else
      more <- OutputFragments fragments' ;;
      Ok (text fragment ++ more)
  end.

(** [Format(formatStr, args...)]; with no arguments it is the overload
    [Format(formatStr)]. *)
Definition Format (formatStr : string) (args : list value) : outcome string :=
  '(ostr, fragments) <- ParseFormatStr (c_str formatStr) ;;
  fragments' <-
    (match fragments with
     | [] => Ok fragments
     | _ => FormatParameters 0 fragments args
     end) ;;
  out <- OutputFragments fragments' ;;
  Ok (ostr ++ out).

End Render.

(** The default build: [FORMAT_DISABLE_THROW_OUT_OF_RANGE] is not defined. *)
Definition strict : bool := false.
Definition lenient : bool := true.

(** A host with an empty environment, the "C" locale, and [int64_t]
    being [long]. *)
Definition bare_host : host := mkHost (fun _ => None) (Some classic_numpunct) false.

(** The [long double] literal [2.7182818284590452353603L]. *)
Definition euler : Q := round_ld (Qof 27182818284590452353603 (10 ^ 22)).

(** ** The words of the specification about literal text *)

Definition is_bracket (c : ascii) : bool :=
  Ascii.eqb c FORMAT_START || Ascii.eqb c FORMAT_END.

(** Escape un-doubling: a doubled bracket is replaced by one bracket, every
    other character is copied. *)
Fixpoint undouble (t : string) : string :=
  match t with
  | EmptyString => EmptyString
  | String c r =>
    match r with
    | String c' r' =>
      if is_bracket c && Ascii.eqb c c' then String c (undouble r')
      else String c (undouble r)
    | EmptyString => String c EmptyString
    end
  end.

(** No unescaped opening bracket: every opening bracket is one of a pair. *)
Fixpoint no_unescaped_open (t : string) : bool :=
  match t with
  | EmptyString => true
  | String c r =>
    if Ascii.eqb c FORMAT_START then
      match r with
      | String c' r' => Ascii.eqb c' FORMAT_START && no_unescaped_open r'
      | EmptyString => false
      end
    else no_unescaped_open r
  end.

(** No unescaped bracket of either kind. *)
Fixpoint literal_only (t : string) : bool :=
  match t with
  | EmptyString => true
  | String c r =>
    if is_bracket c then
      match r with
      | String c' r' => Ascii.eqb c c' && literal_only r'
      | EmptyString => false
      end
    else literal_only r
  end.

(** The text of a field after its opening bracket and the blanks that
    follow it; whether an argument index is written there; whether the field
    is an environment reference. *)
Definition field_start (rest : string) : string :=
  snd (SkipWhitespace 0 (advance rest)).

Definition has_explicit_index (rest : string) : bool :=
  is_digit (peek (field_start rest)).

Definition is_environment_field (rest : string) : bool :=
  Ascii.eqb (peek (field_start rest)) FORMAT_ENVIRONMENT.

(** The number that the decimal digits at the head of [s] denote, read on
    top of [acc]; the index written in a field is the number its digits
    denote. *)
Fixpoint digits_value (s : string) (acc : Z) : Z :=
  match s with
  | EmptyString => acc
  | String c s' =>
    if is_digit c then digits_value s' (acc * 10 + (code c - code "0")) else acc
  end.

Definition written_index (rest : string) : Z := digits_value (field_start rest) 0.

(** The argument indices of the field fragments, in template order. *)
Definition field_indices (fragments : list FormatFragment) : list Z :=
  filter (fun i => negb (i =? FORMAT_TEXT_INDEX)) (map index fragments).

(** A field fragment no argument was bound to: not marked handled, its
    text still empty. *)
Definition unbound (fragment : FormatFragment) : Prop :=
  handled fragment = false /\ text fragment = "".

(** A fragment with an argument index is unbound as long as no argument is
    rendered into it. *)
Definition fresh (f : FormatFragment) : Prop := 0 <= index f -> unbound f.

(** What the parser functions change in a fragment: never its index, its
    text or its handled mark. *)
Definition same_core (f f' : FormatFragment) : Prop :=
  index f' = index f /\ text f' = text f /\ handled f' = handled f.

(** An identifier: letters, digits and underscores only. *)
Fixpoint is_identifier (name : string) : bool :=
  match name with
  | EmptyString => true
  | String c name' => is_identifier_char c && is_identifier name'
  end.

(** The text [OutputFragments] assembles when it raises nothing. *)
Definition texts (fragments : list FormatFragment) : string :=
  fold_right (fun fragment more => text fragment ++ more) "" fragments.

(** Results that agree up to the position an
    [IllegalFormatStringException] reports. *)
Definition same_exn (e1 e2 : exn) : Prop :=
  match e1, e2 with
  | IllegalFormatStringException _ m1, IllegalFormatStringException _ m2 => m1 = m2
  | out_of_range m1, out_of_range m2 => m1 = m2
  | runtime_error m1, runtime_error m2 => m1 = m2
  | _, _ => False
  end.


(** Results of two runs that agree: values related by [R], the same
    exception up to its position, or the same way out of the model. *)
Definition agree {A : Type} (R : A -> A -> Prop) (r1 r2 : outcome A) : Prop :=
  match r1, r2 with
  | Ok a1, Ok a2 => R a1 a2
  | Throw e1, Throw e2 => same_exn e1 e2
  | Stuck w1, Stuck w2 => w1 = w2
  | _, _ => False
  end.

(** The same returned value, or the same exception up to its position. *)
Definition same_result {A : Type} (r1 r2 : outcome A) : Prop := agree eq r1 r2.

(** Two scanner results with the same value and the same text left, of at
    most [bound] characters; the positions may differ. *)
Definition scanned {A : Type} (bound : nat) (x y : A * Z * string) : Prop :=
  fst (fst x) = fst (fst y) /\ snd x = snd y
  /\ (String.length (snd x) <= bound)%nat.

(** Two results of [ParseFormatParameter] with the same fragments, the same
    text left, of at most [bound] characters, and the same running index. *)
Definition field_parsed (bound : nat) (x y : list FormatFragment * Z * string * Z) : Prop :=
  fst (fst (fst x)) = fst (fst (fst y)) /\ snd (fst x) = snd (fst y)
  /\ snd x = snd y /\ (String.length (snd (fst x)) <= bound)%nat.

(** [ParseFormatParameter] from the selectors on, and from the explicit
    conversion on: the parts of its body that follow the index. *)
Definition field_after_selectors (h : host) (nextParameterIndex' : Z)
    (x : FormatFragment * Z * string) : outcome (list FormatFragment * Z * string * Z) :=
  let '(fragment2, pos3, rest3) := x in
  '(fragment3, pos4, rest4) <- ReadExplicitTypeConversion fragment2 pos3 rest3 ;;
  '(fragment4, pos5, rest5) <- ParseFormatSpecifier fragment3 pos4 rest4 ;;
  fragment5 <- TranslateEnvironmentFragment h fragment4 ;;
  let '(pos6, rest6) := SkipWhitespace pos5 rest5 in
  if negb (Ascii.eqb (peek rest6) FORMAT_END) then
    illegal pos6 "Expected format closing bracket '}'"
  else
    let pos7 := pos6 + 1 in
    let rest7 := advance rest6 in
    match rest7 with
    | EmptyString => Ok ([fragment5], pos7, rest7, nextParameterIndex')
    | _ =>
      '(buffer, pos8, rest8) <- GetPlainTextFragment pos7 rest7 ;;
      match buffer with
      | EmptyString => Ok ([fragment5], pos8, rest8, nextParameterIndex')
      | _ =>
        let textFragment :=
          set_text (InitializeFormatFragment new_fragment FORMAT_TEXT_INDEX) buffer in
        Ok ([fragment5; textFragment], pos8, rest8, nextParameterIndex')
      end
    end.

Definition field_tail (h : host) (fragment1 : FormatFragment) (pos2 : Z) (rest2 : string)
    (nextParameterIndex' : Z) : outcome (list FormatFragment * Z * string * Z) :=
  x <- ReadSelectors fragment1 pos2 rest2 ;;
  field_after_selectors h nextParameterIndex' x.

(** A string of decimal digits (possibly empty). *)
Fixpoint is_digits (s : string) : bool :=
  match s with
  | EmptyString => true
  | String c s' => is_digit c && is_digits s'
  end.

(** The host that reads an unset environment variable as the empty
    string. *)
Definition unset_as_empty (h : host) : host :=
  mkHost (fun name => match getenv h name with
                      | Some v => Some v
                      | None => Some ""
                      end)
         (user_numpunct h) (int64_is_long_long h).

(** ** The words of the further properties *)

(** A scanner that goes from [pos] on [rest] to [pos'] on [rest'] has read
    a prefix of the text and counted its characters. *)
Definition consumed (pos : Z) (rest : string) (pos' : Z) (rest' : string) : Prop :=
  exists scannedText : string,
    rest = scannedText ++ rest' /\ pos' = pos + strlen scannedText.

(** The text left is empty, or starts with an opening bracket that is not
    doubled: the start of a field. *)
Definition at_field_or_end (rest : string) : Prop :=
  rest = "" \/ (peek rest = FORMAT_START /\ peek (advance rest) <> FORMAT_START).

(** The points where a run leaves the model: behaviour that C++ leaves
    undefined (a read past the terminator of the template, an overflow of
    signed arithmetic, a cast or a remainder that is not defined), values that
    the model of the floating-point types does not hold (infinities, NaN,
    negative zero, hexadecimal literals, exponents out of range, a logarithm
    whose rounding matters), and the fuel of the digit loops of
    [FormatDynamicDecimal]. *)
Definition model_exits : list string :=
  [ "ReadExplicitTypeConversion: position moved past the terminator";
    "ParseIntegerNumber: signed integer overflow";
    "ParseFormatParameter: signed integer overflow";
    "ConvertAndFormatType: signed integer overflow";
    "strtold: negative zero";
    "std::log10: the rounding decides the integer part";
    "FormatDynamicDecimal: integer part exceeds uint64_t";
    "FormatDynamicDecimal: remainder by zero";
    "FormatDynamicDecimal: out of fuel";
    "strtold: infinity or NaN";
    "strtold: hexadecimal literal";
    "strtold: exponent out of range";
    "static_cast<int64_t>: value out of range";
    "std::sqrt: NaN" ].

(** The messages of the exceptions a format specifier can raise. *)
Definition specifier_errors : list string :=
  [ "A sign character is not allowed at this position";
    "Integer value overflows, use a smaller number" ].

(** An outcome that is a value, an [IllegalFormatStringException] with one
    of the [messages], the [std::runtime_error] of [std::locale("")] on a host
    where the locale of the user cannot be made, or one of the
    [model_exits]. *)
Definition fails_within {A : Type} (h : host) (messages : list string) (m : outcome A)
  : Prop :=
  match m with
  | Ok _ => True
  | Throw (IllegalFormatStringException _ message) => In message messages
  | Throw (out_of_range _) => False
  | Throw (runtime_error message) =>
    message = LOCALE_NAME_NOT_VALID /\ user_numpunct h = None
  | Stuck w => In w model_exits
  end.

(** The messages of the exceptions the parser and the renderer raise. *)
Definition parser_errors : list string :=
  specifier_errors ++
  [ "Expected a different character, is this supposed to be escaped?";
    "Unknown format conversion specifier, expected one of: s, r, i, and d";
    "Illegal selector syntax";
    "Expected format closing bracket '}'" ].

(** Whether the character [c] occurs in [s]. *)
Fixpoint contains (c : ascii) (s : string) : bool :=
  match s with
  | EmptyString => false
  | String a s' => Ascii.eqb a c || contains c s'
  end.

(** [n] copies of the fill character; none when [n] is not positive. *)
Definition padding (n : Z) (c : ascii) : string := replicate (Z.to_nat n) c.

(** The fill character of a field: a blank unless one is given. *)
Definition fill_of (specifiers : BasicFormatSpecifiers) : ascii :=
  if Ascii.eqb (fill specifiers) NUL then " "%char else fill specifiers.

(** A text set in a field of [w] characters. *)
Definition flush_left (w : Z) (c : ascii) (v : string) : string :=
  v ++ padding (w - strlen v) c.
Definition flush_right (w : Z) (c : ascii) (v : string) : string :=
  padding (w - strlen v) c ++ v.
Definition centered (w : Z) (c : ascii) (v : string) : string :=
  padding (Z.quot (w - strlen v) 2) c ++ v
  ++ padding (w - Z.quot (w - strlen v) 2 - strlen v) c.

(** Whether a number is laid out by the post-processing step rather than by
    the stream: for the blank sign and for centring. *)
Definition laid_out_after (sp : BasicFormatSpecifiers) : bool :=
  Ascii.eqb (sign sp) FORMAT_SIGN_POSITIVE_SPACE_TOGGLE
  || Ascii.eqb (align sp) FORMAT_ALIGN_CENTER.

(** The fragment a conversion returns is the one it was given, up to the
    selector queue. *)
Definition requeued (f f' : FormatFragment) : Prop :=
  exists queue : list string, f' = set_selectors f queue.

(** A conversion whose result, when it has one, returns such a fragment. *)
Definition requeues (f : FormatFragment) (m : outcome (bool * FormatFragment * string)) : Prop :=
  forall b f' out, m = Ok (b, f', out) -> requeued f f'.

(** The text one argument is rendered to for one field. *)
Definition rendered (h : host) (arg : value) (fragment : FormatFragment) : outcome string :=
  '(isHandled, fragment', out) <- ConvertAndFormatType h arg fragment ;;
  (if isHandled then Ok out
   else more <- FormatType h arg (c_str (formatSpecifier fragment')) ;;
        Ok (out ++ more)).

(** The field fragment the parser builds for the index [n] and a queue of
    selectors, with no conversion and no specifier. *)
Definition plain_field (n : Z) (queue : list string) : FormatFragment :=
  mkFragment "" "" queue n NUL false.

(** Whether an argument gives a selector a meaning: an integer knows five
    functions, a map its keys; nothing else looks at selectors. *)
Definition understands (arg : value) (name : string) : bool :=
  match arg with
  | VInt _ =>
    String.eqb name "abs" || String.eqb name "sign" || String.eqb name "inc"
    || String.eqb name "dec" || String.eqb name "sqrt"
  | VMap entries =>
    match map_at entries name with
    | Some _ => true
    | None => false
    end
  | _ => false
  end.

(** The fragments of the literal text that follows a field. *)
Definition literal_fragments (t : string) : list FormatFragment :=
  match t with
  | "" => []
  | _ => [mkFragment (undouble t) "" [] FORMAT_TEXT_INDEX NUL true]
  end.

(** The results of [f] on the elements of [l] in order, or the first
    failure. *)
Fixpoint each_ok {A B : Type} (f : A -> outcome B) (l : list A) : outcome (list B) :=
  match l with
  | [] => Ok []
  | a :: l' => b <- f a ;; bs <- each_ok f l' ;; Ok (b :: bs)
  end.

(** The texts of [l] with [sep] between two of them. *)
Definition joined (sep : string) (l : list string) : string :=
  match l with
  | [] => ""
  | a :: l' => a ++ fold_right (fun b acc => sep ++ b ++ acc) "" l'
  end.

(** Blanks: the characters [SkipWhitespace] steps over. *)
Fixpoint is_blank (s : string) : bool :=
  match s with
  | EmptyString => true
  | String c s' => is_whitespace c && is_blank s'
  end.

(** * Properties *)

(** ** Strings *)

Lemma append_nil_r (s : string) : s ++ "" = s.
Proof. induction s as [|c s IH]; simpl; [reflexivity | now rewrite IH]. Qed.

Lemma append_assoc (s1 s2 s3 : string) : (s1 ++ s2) ++ s3 = s1 ++ s2 ++ s3.
Proof. induction s1 as [|c s1 IH]; simpl; [reflexivity | now rewrite IH]. Qed.

Lemma length_append (s1 s2 : string) :
  String.length (s1 ++ s2) = (String.length s1 + String.length s2)%nat.
Proof. induction s1 as [|c s1 IH]; simpl; [reflexivity | now rewrite IH]. Qed.

(** ** Literal text (claims C3 and C4) *)

Lemma is_bracket_cases (c : ascii) :
  (c = FORMAT_START /\ is_bracket c = true)
  \/ (c = FORMAT_END /\ is_bracket c = true)
  \/ (Ascii.eqb c FORMAT_START = false /\ Ascii.eqb c FORMAT_END = false
      /\ is_bracket c = false).
Proof.
  unfold is_bracket.
  destruct (Ascii.eqb_spec c FORMAT_START) as [->|H1]; [left; split; reflexivity|].
  destruct (Ascii.eqb_spec c FORMAT_END) as [->|H2].
  - right; left; split; reflexivity.
  - right; right; repeat split; reflexivity.
Qed.

(** Well-formed literal text is copied un-doubled, whatever follows it,
    when what follows writes nothing and stops the scan. *)
Lemma GetPlainTextFragment_literal_then (tail tail' : string) (n : nat) :
  (forall pos, exists pos', GetPlainTextFragment_loop NUL pos tail = Ok ("", pos', tail')) ->
  forall (s : string) (pos : Z),
    (String.length s <= n)%nat ->
    literal_only s = true ->
    exists pos', GetPlainTextFragment_loop NUL pos (s ++ tail) = Ok (undouble s, pos', tail').
Proof.
  intros Htail.
  induction n as [|n IH]; intros s pos Hlen Hlit.
  - destruct s; [apply Htail | simpl in Hlen; lia].
  - destruct s as [|c r]; [apply Htail|].
    cbn [literal_only] in Hlit. cbn [append GetPlainTextFragment_loop undouble].
    change (Ascii.eqb NUL NUL) with true. cbn [negb andb].
    destruct (is_bracket_cases c) as [[-> Hb]|[[-> Hb]|(Hs & He & Hb)]].
    + (* an opening bracket: it must be doubled *)
      rewrite Hb in Hlit. destruct r as [|c' r']; [discriminate|].
      apply andb_prop in Hlit as [Hc Hlit].
      apply Ascii.eqb_eq in Hc. subst c'.
      change (Ascii.eqb FORMAT_START FORMAT_START) with true.
      cbn [append andb]. cbn iota.
      change (Ascii.eqb FORMAT_START FORMAT_START) with true. cbn iota.
      destruct (IH r' (pos + 2) ltac:(simpl in Hlen; lia) Hlit) as [pos' ->].
      exists pos'. reflexivity.
    + (* a closing bracket: the next character must be one too *)
      rewrite Hb in Hlit. destruct r as [|c' r']; [discriminate|].
      apply andb_prop in Hlit as [Hc Hlit].
      apply Ascii.eqb_eq in Hc. subst c'.
      change (Ascii.eqb FORMAT_END FORMAT_START) with false.
      change (Ascii.eqb FORMAT_END FORMAT_END) with true.
      change (Ascii.eqb NUL FORMAT_END) with false.
      cbn [append andb]. cbn iota. cbn [GetPlainTextFragment_loop].
      change (Ascii.eqb FORMAT_END NUL) with false.
      change (Ascii.eqb FORMAT_END FORMAT_END) with true.
      change (Ascii.eqb FORMAT_END FORMAT_START) with false.
      cbn [negb andb]. cbn iota.
      replace (pos + 1 + 1) with (pos + 2) by lia.
      destruct (IH r' (pos + 2) ltac:(simpl in Hlen; lia) Hlit) as [pos' ->].
      exists pos'. reflexivity.
    + (* any other character is copied *)
      rewrite Hb in Hlit. rewrite Hs, He.
      destruct (IH r (pos + 1) ltac:(simpl in Hlen; lia) Hlit) as [pos' ->].
      exists pos'. cbn [bind]. rewrite Hb. cbn [andb].
      destruct r; reflexivity.
Qed.

Lemma GetPlainTextFragment_literal (s : string) (pos : Z) :
  literal_only s = true ->
  exists pos', GetPlainTextFragment pos s = Ok (undouble s, pos', "").
Proof.
  intros Hlit. unfold GetPlainTextFragment.
  destruct (GetPlainTextFragment_literal_then "" "" (String.length s)
              (fun p => ex_intro _ p eq_refl) s pos (le_n _) Hlit) as [pos' H].
  rewrite append_nil_r in H. exists pos'. exact H.
Qed.

(** A closing bracket that ends the template sets [expect] and the loop
    ends on the terminator, where [expect] is not looked at again. *)
Lemma GetPlainTextFragment_close_at_end (s : string) (pos : Z) :
  literal_only s = true ->
  exists pos', GetPlainTextFragment pos (s ++ "}") = Ok (undouble s, pos', "").
Proof.
  intros Hlit. unfold GetPlainTextFragment.
  apply (GetPlainTextFragment_literal_then "}" "" (String.length s)); auto.
  intros p. exists (p + 1). reflexivity.
Qed.

Lemma c_str_idempotent (s : string) : c_str (c_str s) = c_str s.
Proof.
  induction s as [|c s IH]; [reflexivity|].
  cbn [c_str]. destruct (Ascii.eqb c NUL) eqn:E; [reflexivity|].
  cbn [c_str]. rewrite E, IH. reflexivity.
Qed.

Lemma c_str_append_close (s : string) : c_str (c_str s ++ "}") = c_str s ++ "}".
Proof.
  induction s as [|c s IH]; [reflexivity|].
  cbn [c_str]. destruct (Ascii.eqb c NUL) eqn:E; [reflexivity|].
  cbn [append c_str]. rewrite E, IH. reflexivity.
Qed.

Lemma Format_of_literal (h : host) (d : bool) (t ostr : string) (pos : Z)
    (args : list value) :
  GetPlainTextFragment 0 (c_str t) = Ok (ostr, pos, "") ->
  Format h d t args = Ok ostr.
Proof.
  intros H. unfold Format, ParseFormatStr. rewrite H. cbn.
  now rewrite append_nil_r.
Qed.

(** C4, as amended: for every template with no unescaped bracket, neither
    opening nor closing, [Format] returns the template with each doubled
    bracket replaced by one bracket and every other character copied in
    order, whatever the arguments and the build. *)
Theorem Format_literal_only (h : host) (d : bool) (t : string) (args : list value) :
  literal_only (c_str t) = true ->
  Format h d t args = Ok (undouble (c_str t)).
Proof.
  intros Hlit.
  destruct (GetPlainTextFragment_literal (c_str t) 0 Hlit) as [pos' H].
  exact (Format_of_literal h d t _ pos' args H).
Qed.

Lemma Format_literal_only_witness :
  literal_only (c_str "a{{b}}c") = true
  /\ Format bare_host strict "a{{b}}c" [] = Ok "a{b}c".
Proof.
  split; [reflexivity|].
  exact (Format_literal_only bare_host strict "a{{b}}c" [] eq_refl).
Defined.

(** C4 as stated fails: the template below has no unescaped opening
    bracket and no field, and [Format] raises instead of returning the
    un-doubled text. *)
Lemma Format_no_field_counterexample :
  no_unescaped_open "}a" = true
  /\ Format bare_host strict "}a" [] <> Ok (undouble "}a")
  /\ Format bare_host strict "}a" []
     = Throw (IllegalFormatStringException 1
                "Expected a different character, is this supposed to be escaped?").
Proof.
  split; [reflexivity|]. split; [|reflexivity].
  vm_compute. discriminate.
Qed.

(** Whatever well-formed literal text precedes it, a lone closing bracket
    that ends the template is dropped and the text is returned. *)
Lemma Format_close_at_end_dropped (h : host) (d : bool) (t : string) (args : list value) :
  literal_only (c_str t) = true ->
  Format h d (c_str t ++ "}") args = Ok (undouble (c_str t)).
Proof.
  intros Hlit.
  destruct (GetPlainTextFragment_close_at_end (c_str t) 0 Hlit) as [pos' H].
  apply (Format_of_literal h d _ _ pos' args).
  now rewrite c_str_append_close.
Qed.

(** C3, evaluated on the code: the doubled brackets are un-doubled and a
    lone closing bracket followed by another character raises, but a lone
    closing bracket that ends the template, or the literal text after a
    field, raises nothing: it is dropped and the text before it is
    returned. *)
Theorem Format_lone_close_at_end (h : host) (d : bool) (args : list value) :
  Format h d "{{" args = Ok "{"
  /\ Format h d "}}" args = Ok "}"
  /\ Format h d "}a" args
     = Throw (IllegalFormatStringException 1
                "Expected a different character, is this supposed to be escaped?")
  /\ Format h d "}" args = Ok ""
  /\ Format h d "abc}" args = Ok "abc"
  /\ Format h d "{0}}" [VInt 1] = Ok "1".
Proof.
  do 5 (split; [reflexivity|]).
  destruct d; reflexivity.
Qed.

(** ** Interleaved indices (claim C1) *)

(** C1: the template of the claim renders both arguments three times, the
    index-less fields taking the index after the one of the field before
    them (the parsed indices are 0, 1, 0, 1, 0, 1). *)
Theorem Format_interleaved_indices (h : host) :
  Format h strict "{} {}, {0} {}, {0} {}" [VString "left"; VString "right"]
  = Ok "left right, left right, left right"
  /\ (exists ostr fragments,
        ParseFormatStr h "{} {}, {0} {}, {0} {}" = Ok (ostr, fragments)
        /\ field_indices fragments = [0; 1; 0; 1; 0; 1]).
Proof.
  split; [reflexivity|].
  eexists; eexists; split; reflexivity.
Qed.

(** ** Rendering of numbers (claims C5, C6 and C7) *)

(** C5, evaluated on the code: with a precision and no presentation type
    the value goes to the stream in its default float notation, where the
    precision counts significant digits. *)
Theorem Format_precision_counts_significant_digits (h : host) :
  Format h strict "{0:.0}" [VDecimal euler] = Ok "3"
  /\ Format h strict "{0:.1}" [VDecimal euler] = Ok "3"
  /\ Format h strict "{0:.2}" [VDecimal euler] = Ok "2.7"
  /\ Format h strict "{0:.3}" [VDecimal euler] = Ok "2.72"
  /\ Format h strict "{0:.4}" [VDecimal euler] = Ok "2.718"
  /\ Format h strict "{0:.0}, {0:.1}, {0:.2}, {0:.3}, {0:.4}" [VDecimal euler]
     = Ok "3, 3, 2.7, 2.72, 2.718".
Proof. repeat split; vm_compute; reflexivity. Qed.

(** C6, evaluated on the code: [inc], [dec] and [abs] consume one selector
    and go on with the changed integer and the rest of the queue, unless the
    change overflows [int64_t], which is undefined; [sqrt] goes on with the
    [double] that [std::sqrt] returns, which is rendered as a decimal, with
    one digit after the point. *)
Theorem Format_sqrt_is_decimal (h : host) :
  (forall (v : Z) (f : FormatFragment) (queue : list string),
      ConvertAndFormatType_int64 h v (set_selectors f ("inc" :: queue))
      = if v =? two63 - 1 then Stuck "ConvertAndFormatType: signed integer overflow"
        else ConvertAndFormatType_int64 h (v + 1) (set_selectors f queue))
  /\ (forall (v : Z) (f : FormatFragment) (queue : list string),
      ConvertAndFormatType_int64 h v (set_selectors f ("dec" :: queue))
      = if v =? - two63 then Stuck "ConvertAndFormatType: signed integer overflow"
        else ConvertAndFormatType_int64 h (v - 1) (set_selectors f queue))
  /\ (forall (v : Z) (f : FormatFragment) (queue : list string),
      ConvertAndFormatType_int64 h v (set_selectors f ("abs" :: queue))
      = if v =? - two63 then Stuck "ConvertAndFormatType: signed integer overflow"
        else ConvertAndFormatType_int64 h (Z.abs v) (set_selectors f queue))
  /\ (forall (f : FormatFragment) (queue : list string),
      ConvertAndFormatType_int64 h 9 (set_selectors f ("sqrt" :: queue))
      = ConvertAndFormatType_long_double h (inject_Z 3) (set_selectors f queue))
  /\ Format h strict "{0.inc.inc.sqrt}" [VInt 7] = Ok "3.0"
  /\ Format h strict "{0.inc.inc.sqrt}" [VInt 7] <> Ok "3".
Proof.
  split; [|split; [|split; [|split; [|split]]]]; try reflexivity.
  vm_compute. discriminate.
Qed.

(** C7, evaluated on the code: a [bool] whose field has no specifier is
    written as text whatever conversion the field asks for; the conversion
    counts only when a specifier is present. *)
Theorem Format_bool_ignores_conversion (h : host) :
  (forall (b : bool) (t : string) (q : list string) (i : Z) (conv : ascii) (hd : bool),
      ConvertAndFormatType_bool h b (mkFragment t "" q i conv hd)
      = Ok (true, mkFragment t "" q i conv hd, if b then "True" else "False"))
  /\ Format h strict "{0!i}" [VBool true] = Ok "True"
  /\ Format h strict "{0!d}" [VBool false] = Ok "False"
  /\ Format h strict "{0}" [VBool true] = Ok "True"
  /\ Format h strict "{0!i:1}" [VBool true] = Ok "1"
  /\ Format h strict "{0!d:1}" [VBool true] = Ok "1.0"
  /\ Format h strict "{0:1}" [VBool true] = Ok "1"
  /\ Format h strict "{0!s:1}" [VBool true] = Ok "True".
Proof.
  split.
  - intros b t q i conv hd. destruct b; reflexivity.
  - repeat split; vm_compute; reflexivity.
Qed.

(** ** The field descriptor parser *)

Lemma bind_Ok {A B : Type} (m : outcome A) (k : A -> outcome B) (b : B) :
  bind m k = Ok b -> exists a, m = Ok a /\ k a = Ok b.
Proof. destruct m; simpl; intros H; try discriminate. eauto. Qed.

Ltac bind_inv H :=
  let a := fresh "a" in
  let Ha := fresh "Ha" in
  apply bind_Ok in H; destruct H as (a & Ha & H).

Lemma same_core_refl (f : FormatFragment) : same_core f f.
Proof. repeat split. Qed.

Lemma same_core_trans (f g k : FormatFragment) :
  same_core f g -> same_core g k -> same_core f k.
Proof. unfold same_core. intuition congruence. Qed.

Lemma SkipWhitespace_rest (rest : string) (pos pos' : Z) :
  snd (SkipWhitespace pos rest) = snd (SkipWhitespace pos' rest).
Proof.
  revert pos pos'. induction rest as [|c rest IH]; intros pos pos'; [reflexivity|].
  cbn [SkipWhitespace]. destruct (is_whitespace c); [apply IH | reflexivity].
Qed.

Lemma ReadSelector_core (f f' : FormatFragment) (pos pos' : Z) (rest rest' : string) :
  ReadSelector f pos rest = Ok (f', pos', rest') -> same_core f f'.
Proof.
  unfold ReadSelector.
  destruct (is_selector_start (peek rest)).
  - destruct (ReadIdentifier (pos + 1) (advance rest)) as [[name pos1] rest1].
    destruct (Ascii.eqb (peek rest) FORMAT_SELECTOR_ARRAY_BEGIN
              && negb (Ascii.eqb (peek rest1) FORMAT_SELECTOR_ARRAY_END));
      [discriminate|].
    destruct (Ascii.eqb (peek rest1) FORMAT_SELECTOR_ARRAY_END);
      intros H; injection H as <- _ _; repeat split.
  - intros H; injection H as <- _ _. apply same_core_refl.
Qed.

Lemma ReadSelectors_loop_core (fuel : nat) :
  forall (f f' : FormatFragment) (pos pos' : Z) (rest rest' : string),
    ReadSelectors_loop fuel f pos rest = Ok (f', pos', rest') -> same_core f f'.
Proof.
  induction fuel as [|fuel IH]; intros f f' pos pos' rest rest';
    cbn [ReadSelectors_loop]; destruct (is_selector_start (peek rest));
    try discriminate;
    try (intros H; injection H as <- _ _; apply same_core_refl).
  intros H. bind_inv H. destruct a as [[f1 pos1] rest1].
  apply ReadSelector_core in Ha. apply IH in H.
  eapply same_core_trans; eauto.
Qed.

Lemma ReadExplicitTypeConversion_core (f f' : FormatFragment) (pos pos' : Z)
    (rest rest' : string) :
  ReadExplicitTypeConversion f pos rest = Ok (f', pos', rest') -> same_core f f'.
Proof.
  unfold ReadExplicitTypeConversion.
  destruct (Ascii.eqb (peek rest) FORMAT_EXPLICIT_TYPE).
  - destruct (negb (strchr "srid" (peek (advance rest)))); [discriminate|].
    destruct (advance rest); [discriminate|].
    intros H; injection H as <- _ _. repeat split.
  - intros H; injection H as <- _ _. apply same_core_refl.
Qed.

Lemma ParseFormatSpecifier_core (f f' : FormatFragment) (pos pos' : Z)
    (rest rest' : string) :
  ParseFormatSpecifier f pos rest = Ok (f', pos', rest') -> same_core f f'.
Proof.
  unfold ParseFormatSpecifier.
  destruct (Ascii.eqb (peek rest) FORMAT_SPECIFIER).
  - intros H. bind_inv H. destruct a as [[spec p] r].
    injection H as <- _ _. repeat split.
  - intros H; injection H as <- _ _. apply same_core_refl.
Qed.

Lemma wrote_Ok (f f' : FormatFragment) (m : outcome string) (b : bool) (out : string) :
  wrote f m = Ok (b, f', out) -> b = true /\ f' = f /\ m = Ok out.
Proof.
  unfold wrote. intros H. bind_inv H. injection H as <- <- <-. auto.
Qed.

Lemma ConvertAndFormatType_string_fragment (h : host) (v : string)
    (f f' : FormatFragment) (b : bool) (out : string) :
  ConvertAndFormatType_string h v f = Ok (b, f', out) -> b = true /\ f' = f.
Proof.
  unfold ConvertAndFormatType_string, ConvertAndFormatType_cstr.
  destruct (Ascii.eqb (explicitConversion f) "i");
    [|destruct (Ascii.eqb (explicitConversion f) "d")];
    intros H; apply wrote_Ok in H; tauto.
Qed.

Lemma TranslateEnvironmentFragment_core (h : host) (f f' : FormatFragment) :
  TranslateEnvironmentFragment h f = Ok f' ->
  index f' = index f /\ handled f' = handled f
  /\ (index f <> FORMAT_ENVIRONMENT_INDEX -> f' = f).
Proof.
  unfold TranslateEnvironmentFragment.
  destruct (Z.eqb_spec (index f) FORMAT_ENVIRONMENT_INDEX) as [E|E].
  - intros H. bind_inv H. destruct a as [[b f1] out].
    apply ConvertAndFormatType_string_fragment in Ha as [-> ->].
    bind_inv H. injection H as <-. repeat split. contradiction.
  - intros H; injection H as <-. auto.
Qed.

Lemma ParseIntegerNumber_loop_unsigned (rest : string) :
  forall (p sgn : Z) (fc fa : bool) (pos : Z) p' sgn' fa' pos' rest',
    ParseIntegerNumber_loop false p sgn fc fa pos rest = Ok (p', sgn', fa', pos', rest') ->
    sgn' = sgn
    /\ (0 <= p -> 0 <= p')
    /\ (fa = true -> fa' = true)
    /\ (is_digit (peek rest) = true -> fa' = true /\ 0 <= p')
    /\ (is_digit (peek rest) = false -> p' = p /\ fa' = fa).
Proof.
  induction rest as [|c rest IH]; intros p sgn fc fa pos p' sgn' fa' pos' rest' H.
  - injection H as <- <- <- _ _. cbn. repeat split; auto; discriminate.
  - cbn [ParseIntegerNumber_loop andb] in H. cbn [peek].
    destruct (Ascii.eqb c "-"); [discriminate|].
    destruct (is_digit c) eqn:Hd.
    + cbv zeta in H.
      destruct (INT_MAX <? p * 10 + (code c - code "0")); [discriminate|].
      destruct (p * 10 + (code c - code "0") <? 0) eqn:Hneg; [discriminate|].
      apply Z.ltb_ge in Hneg.
      apply IH in H as (-> & Hp & Hfa & _ & _).
      repeat split; auto; discriminate.
    + injection H as <- <- <- _ _. repeat split; auto; discriminate.
Qed.

Lemma ParseIntegerNumber_explicit (pos : Z) (rest : string) (d d' : Z) :
  is_digit (peek rest) = true ->
  ParseIntegerNumber pos rest false d = ParseIntegerNumber pos rest false d'.
Proof.
  intros Hd. unfold ParseIntegerNumber.
  destruct (ParseIntegerNumber_loop false 0 1 true false pos rest)
    as [[[[[p s] fa] pos'] rest']| |] eqn:E; try reflexivity.
  apply ParseIntegerNumber_loop_unsigned in E as (_ & _ & _ & Hfa & _).
  destruct (Hfa Hd) as [-> _]. reflexivity.
Qed.

Lemma ParseIntegerNumber_explicit_nonneg (pos : Z) (rest : string) (d v pos' : Z)
    (rest' : string) :
  is_digit (peek rest) = true ->
  ParseIntegerNumber pos rest false d = Ok (v, pos', rest') -> 0 <= v.
Proof.
  intros Hd. unfold ParseIntegerNumber. intros H. bind_inv H.
  destruct a as [[[[p s] fa] pos1] rest1].
  apply ParseIntegerNumber_loop_unsigned in Ha as (-> & _ & _ & Hfa & _).
  destruct (Hfa Hd) as [-> Hp].
  destruct ((p =? 0) && (1 <? 0)); [discriminate|].
  injection H as <- _ _. lia.
Qed.

Lemma ParseIntegerNumber_default (pos : Z) (rest : string) (d v pos' : Z)
    (rest' : string) :
  is_digit (peek rest) = false ->
  ParseIntegerNumber pos rest false d = Ok (v, pos', rest') -> v = d.
Proof.
  intros Hd. unfold ParseIntegerNumber. intros H. bind_inv H.
  destruct a as [[[[p s] fa] pos1] rest1].
  apply ParseIntegerNumber_loop_unsigned in Ha as (-> & _ & _ & _ & Hfa).
  destruct (Hfa Hd) as [-> ->].
  destruct ((d =? 0) && (1 <? 0)); [discriminate|].
  injection H as <- _ _. lia.
Qed.

(** The number [ParseIntegerNumber] returns for digits is the number they
    denote. *)
Lemma ParseIntegerNumber_loop_value (rest : string) :
  forall (p sgn : Z) (fc fa : bool) (pos : Z) p' sgn' fa' pos' rest',
    ParseIntegerNumber_loop false p sgn fc fa pos rest = Ok (p', sgn', fa', pos', rest') ->
    p' = digits_value rest p.
Proof.
  induction rest as [|c rest IH]; intros p sgn fc fa pos p' sgn' fa' pos' rest' H.
  - now injection H as <- _ _ _ _.
  - cbn [ParseIntegerNumber_loop andb] in H. cbn [digits_value].
    destruct (Ascii.eqb c "-"); [discriminate|].
    destruct (is_digit c).
    + cbv zeta in H.
      destruct (INT_MAX <? p * 10 + (code c - code "0")); [discriminate|].
      destruct (p * 10 + (code c - code "0") <? 0); [discriminate|].
      now apply IH in H.
    + now injection H as <- _ _ _ _.
Qed.

Lemma ParseIntegerNumber_explicit_value (pos : Z) (rest : string) (d v pos' : Z)
    (rest' : string) :
  is_digit (peek rest) = true ->
  ParseIntegerNumber pos rest false d = Ok (v, pos', rest') -> v = digits_value rest 0.
Proof.
  intros Hd. unfold ParseIntegerNumber. intros H. bind_inv H.
  destruct a as [[[[p s] fa] pos1] rest1].
  pose proof (ParseIntegerNumber_loop_value _ _ _ _ _ _ _ _ _ _ _ Ha) as Hv.
  apply ParseIntegerNumber_loop_unsigned in Ha as (-> & _ & _ & Hfa & _).
  destruct (Hfa Hd) as [-> Hp].
  destruct ((p =? 0) && (1 <? 0)); [discriminate|].
  injection H as <- _ _. lia.
Qed.

(** The fragments one call of [ParseFormatParameter] appends: the field,
    and possibly the literal text after it. For an environment reference
    the field is marked handled and the running index is kept; otherwise
    the field has the index [ParseIntegerNumber] returns, an empty text, and
    the running index becomes that index plus one. *)
Lemma ParseFormatParameter_shape (h : host) (pos : Z) (rest : string) (next : Z)
    (fragments : list FormatFragment) (pos' : Z) (rest' : string) (next' : Z) :
  ParseFormatParameter h pos rest next = Ok (fragments, pos', rest', next') ->
  exists (f : FormatFragment) (tail : list FormatFragment),
    fragments = f :: tail
    /\ Forall (fun t => index t = FORMAT_TEXT_INDEX) tail
    /\ ((is_environment_field rest = true
         /\ index f = FORMAT_ENVIRONMENT_INDEX /\ handled f = true /\ next' = next)
        \/ (is_environment_field rest = false
            /\ (exists p1 p2 r2,
                   ParseIntegerNumber p1 (field_start rest) false next
                   = Ok (index f, p2, r2))
            /\ handled f = (index f <? 0)
            /\ (0 <= index f -> text f = "")
            /\ next' = index f + 1)).
Proof.
  unfold ParseFormatParameter, is_environment_field, field_start. intros H.
  bind_inv H. clear Ha a.
  rewrite (SkipWhitespace_rest (advance rest) 0 (pos + 1)).
  destruct (SkipWhitespace (pos + 1) (advance rest)) as [pos1 rest1]. cbn [snd].
  bind_inv H. destruct a as [[[[f0 idx] pos2] rest2] nx].
  bind_inv H. destruct a as [[f2 pos3] rest3].
  bind_inv H. destruct a as [[f3 pos4] rest4].
  bind_inv H. destruct a as [[f4 pos5] rest5].
  bind_inv H. rename a into f5.
  apply ReadSelectors_loop_core in Ha0.
  apply ReadExplicitTypeConversion_core in Ha1.
  apply ParseFormatSpecifier_core in Ha2.
  apply TranslateEnvironmentFragment_core in Ha3 as (Hi5 & Hh5 & Hsame5).
  assert (Hcore : same_core (InitializeFormatFragment f0 idx) f4)
    by (eapply same_core_trans; [eapply same_core_trans|]; eauto).
  destruct Hcore as (Hi4 & Ht4 & Hh4). cbn [InitializeFormatFragment index text handled] in *.
  assert (Htail : exists tail, fragments = f5 :: tail
                               /\ Forall (fun t => index t = FORMAT_TEXT_INDEX) tail
                               /\ next' = nx).
  { destruct (SkipWhitespace pos5 rest5) as [pos6 rest6].
    destruct (negb (Ascii.eqb (peek rest6) FORMAT_END)); [discriminate|].
    destruct (advance rest6) as [|c7 r7].
    - injection H as <- _ _ <-. exists []. auto.
    - bind_inv H. destruct a as [[buffer pos8] rest8].
      destruct buffer.
      + injection H as <- _ _ <-. exists []. auto.
      + injection H as <- _ _ <-. eexists. split; [reflexivity|].
        split; [|reflexivity]. constructor; [reflexivity|constructor]. }
  destruct Htail as (tail & -> & Htail & ->).
  exists f5, tail. split; [reflexivity|]. split; [exact Htail|].
  destruct (Ascii.eqb (peek rest1) FORMAT_ENVIRONMENT) eqn:Henv.
  - left. bind_inv Ha. destruct a as [[name p2] r2].
    injection Ha as <- <- _ _ <-.
    rewrite Hi5, Hh5, Hi4, Hh4. repeat split.
  - right. bind_inv Ha. destruct a as [[i p2] r2].
    destruct (INT_MAX <=? i); [discriminate|].
    injection Ha as <- <- _ _ <-.
    split; [reflexivity|]. split; [|split; [|split]].
    + exists pos1, p2, r2. now rewrite Hi5, Hi4.
    + now rewrite Hi5, Hh5, Hi4, Hh4.
    + intros Hnn. rewrite Hsame5; [exact Ht4|].
      rewrite Hi5 in Hnn. unfold FORMAT_ENVIRONMENT_INDEX. lia.
    + now rewrite Hi5, Hi4.
Qed.

(** ** The running index (claim C2) *)

Lemma ParseFormatParameter_explicit_any (h : host) (pos : Z) (rest : string) (n n' : Z) :
  has_explicit_index rest = true ->
  ParseFormatParameter h pos rest n = ParseFormatParameter h pos rest n'.
Proof.
  unfold ParseFormatParameter, has_explicit_index, field_start. intros Hd.
  destruct (assert (Ascii.eqb (peek rest) FORMAT_START)); try reflexivity.
  cbn [bind].
  rewrite (SkipWhitespace_rest (advance rest) 0 (pos + 1)) in Hd.
  destruct (SkipWhitespace (pos + 1) (advance rest)) as [pos1 rest1]. cbn [snd] in Hd.
  destruct (Ascii.eqb_spec (peek rest1) FORMAT_ENVIRONMENT) as [E|E].
  - rewrite E in Hd. discriminate.
  - now rewrite (ParseIntegerNumber_explicit pos1 rest1 n n' Hd).
Qed.

(** C2, as amended: parsing a field that is not an environment reference
    sets the running index to the index of that field plus one. A field with
    a written index [i] has the index [i], whatever the running index was,
    and so resets the running index to [i + 1]; a field with none has the
    running index [n] and sets it to [n + 1]. An environment reference keeps
    the running index. *)
Theorem ParseFormatParameter_running_index (h : host) (pos : Z) (rest : string)
    (next : Z) (fragments : list FormatFragment) (pos' : Z) (rest' : string) (next' : Z) :
  ParseFormatParameter h pos rest next = Ok (fragments, pos', rest', next') ->
  exists (f : FormatFragment) (tail : list FormatFragment),
    fragments = f :: tail
    /\ (if is_environment_field rest then next' = next
        else if has_explicit_index rest then
          index f = written_index rest
          /\ next' = written_index rest + 1
          /\ forall n : Z,
               ParseFormatParameter h pos rest n = Ok (fragments, pos', rest', next')
        else index f = next /\ next' = next + 1).
Proof.
  intros H.
  destruct (ParseFormatParameter_shape _ _ _ _ _ _ _ _ H)
    as (f & tail & -> & _ & [(-> & _ & _ & ->)|(-> & (p1 & p2 & r2 & Hn) & _ & _ & ->)]).
  - exists f, tail. auto.
  - exists f, tail. split; [reflexivity|].
    unfold has_explicit_index, written_index in *.
    destruct (is_digit (peek (field_start rest))) eqn:Hd.
    + rewrite <- (ParseIntegerNumber_explicit_value _ _ _ _ _ _ Hd Hn).
      split; [reflexivity|]. split; [reflexivity|].
      intros n. rewrite <- H. now apply ParseFormatParameter_explicit_any.
    + rewrite (ParseIntegerNumber_default _ _ _ _ _ _ Hd Hn). auto.
Qed.

Lemma ParseFormatParameter_running_index_witness :
  exists (f : FormatFragment) (tail : list FormatFragment),
    [mkFragment "" "" [] 5 NUL false] = f :: tail
    /\ (if is_environment_field "{5}" then 6 = 0
        else if has_explicit_index "{5}" then
          index f = written_index "{5}"
          /\ 6 = written_index "{5}" + 1
          /\ forall n : Z,
               ParseFormatParameter bare_host 0 "{5}" n
               = Ok ([mkFragment "" "" [] 5 NUL false], 3, "", 6)
        else index f = 0 /\ 6 = 0 + 1).
Proof.
  exact (ParseFormatParameter_running_index bare_host 0 "{5}" 0 _ _ _ _ eq_refl).
Defined.

(** C2 as stated fails: the field below has a written index, and parsing it
    moves the running index from 0 to 6. *)
Lemma explicit_index_moves_running_index :
  has_explicit_index "{5}" = true
  /\ exists fragments pos' rest' next',
       ParseFormatParameter bare_host 0 "{5}" 0 = Ok (fragments, pos', rest', next')
       /\ next' = 6 /\ next' <> 0.
Proof.
  split; [reflexivity|].
  do 4 eexists. split; [reflexivity|]. split; [reflexivity | discriminate].
Qed.

(** ** Unbound fields (claim C8) *)

Lemma ParseFormatParameter_fresh (h : host) (pos : Z) (rest : string) (next : Z)
    (fragments : list FormatFragment) (pos' : Z) (rest' : string) (next' : Z) :
  ParseFormatParameter h pos rest next = Ok (fragments, pos', rest', next') ->
  Forall fresh fragments.
Proof.
  intros H.
  destruct (ParseFormatParameter_shape _ _ _ _ _ _ _ _ H)
    as (f & tail & -> & Htail & Hf).
  constructor.
  - intros Hnn. destruct Hf as [(_ & Hi & _)|(_ & _ & Hh & Ht & _)].
    + rewrite Hi in Hnn. unfold FORMAT_ENVIRONMENT_INDEX in Hnn. lia.
    + split; [|auto]. rewrite Hh. now apply Z.ltb_ge.
  - eapply Forall_impl; [|exact Htail].
    intros t Ht Hnn. rewrite Ht in Hnn. unfold FORMAT_TEXT_INDEX in Hnn. lia.
Qed.

Lemma ParseFormatStr_loop_fresh (h : host) (fuel : nat) :
  forall (acc : list FormatFragment) (pos : Z) (rest : string) (next : Z)
         (fragments : list FormatFragment),
    Forall fresh acc ->
    ParseFormatStr_loop h fuel acc pos rest next = Ok fragments ->
    Forall fresh fragments.
Proof.
  induction fuel as [|fuel IH]; intros acc pos rest next fragments Hacc H;
    destruct rest as [|c rest]; cbn [ParseFormatStr_loop] in H;
    try discriminate; try (injection H as <-; exact Hacc).
  bind_inv H. destruct a as [[[parsed pos1] rest1] next1].
  apply ParseFormatParameter_fresh in Ha.
  eapply IH; [|exact H]. apply Forall_app. auto.
Qed.

Lemma ParseFormatStr_fresh (h : host) (formatStr ostr : string)
    (fragments : list FormatFragment) :
  ParseFormatStr h formatStr = Ok (ostr, fragments) -> Forall fresh fragments.
Proof.
  unfold ParseFormatStr. intros H.
  bind_inv H. destruct a as [[o pos] rest].
  bind_inv H. injection H as _ <-.
  eapply ParseFormatStr_loop_fresh; [|exact Ha0]. constructor.
Qed.

Lemma FormatParameter_keeps (h : host) (i : Z) (arg : value) (f : FormatFragment) :
  forall fragments fragments' : list FormatFragment,
    FormatParameter h i fragments arg = Ok fragments' ->
    In f fragments -> index f <> i -> In f fragments'.
Proof.
  induction fragments as [|g fragments IH]; intros fragments' H Hin Hne;
    [contradiction|].
  cbn [FormatParameter] in H.
  bind_inv H. rename a into g1. bind_inv H. rename a into more.
  injection H as <-.
  destruct Hin as [->|Hin].
  - left. destruct (Z.eqb_spec (index f) i) as [E|E]; [contradiction|].
    now injection Ha as <-.
  - right. eapply IH; eauto.
Qed.

Lemma FormatParameters_keeps (h : host) (f : FormatFragment) (args : list value) :
  forall (i : Z) (fragments fragments' : list FormatFragment),
    FormatParameters h i fragments args = Ok fragments' ->
    In f fragments ->
    index f < i \/ i + Z.of_nat (List.length args) <= index f ->
    In f fragments'.
Proof.
  induction args as [|arg args IH]; intros i fragments fragments' H Hin Hout;
    cbn [FormatParameters] in H.
  - now injection H as <-.
  - bind_inv H. rename a into fragments1.
    cbn [List.length] in Hout.
    eapply (IH (i + 1)); [exact H | |lia].
    eapply FormatParameter_keeps; eauto. lia.
Qed.

Lemma OutputFragments_strict_unhandled (f : FormatFragment) :
  forall fragments : list FormatFragment,
    In f fragments -> handled f = false ->
    exists g, In g fragments /\ handled g = false
              /\ OutputFragments strict fragments = Throw (out_of_range (unbound_message g)).
Proof.
  induction fragments as [|g fragments IH]; intros Hin Hh; [contradiction|].
  cbn [OutputFragments strict negb andb].
  destruct (handled g) eqn:Hg; cbn [negb].
  - destruct Hin as [->|Hin]; [congruence|].
    destruct (IH Hin Hh) as (k & Hk & Hkh & ->). exists k. cbn. auto.
  - exists g. cbn. auto.
Qed.

Lemma OutputFragments_lenient (fragments : list FormatFragment) :
  OutputFragments lenient fragments = Ok (texts fragments).
Proof.
  induction fragments as [|g fragments IH]; [reflexivity|].
  cbn [OutputFragments lenient negb andb texts fold_right].
  fold (texts fragments). now rewrite IH.
Qed.

(** C8: when the template parses and one of its fields has an index that
    no argument has, the default build returns no string, and once the
    arguments that are there are rendered, [OutputFragments] raises
    [std::out_of_range]; the build with [FORMAT_DISABLE_THROW_OUT_OF_RANGE]
    returns the assembled text, to which that field, still unbound,
    contributes the empty text. *)
Theorem Format_unbound_field (h : host) (t : string) (args : list value)
    (ostr : string) (fragments : list FormatFragment) (f : FormatFragment) :
  ParseFormatStr h (c_str t) = Ok (ostr, fragments) ->
  In f fragments ->
  Z.of_nat (List.length args) <= index f ->
  (forall s : string, Format h strict t args <> Ok s)
  /\ (forall fragments' : list FormatFragment,
        FormatParameters h 0 fragments args = Ok fragments' ->
        (exists g, In g fragments' /\ handled g = false
                   /\ OutputFragments strict fragments'
                      = Throw (out_of_range (unbound_message g))
                   /\ Format h strict t args = Throw (out_of_range (unbound_message g)))
        /\ Format h lenient t args = Ok (ostr ++ texts fragments')
        /\ In f fragments' /\ unbound f).
Proof.
  intros Hparse Hin Hidx.
  assert (Hfresh : unbound f).
  { apply ParseFormatStr_fresh in Hparse.
    rewrite Forall_forall in Hparse. apply (Hparse f Hin). lia. }
  assert (Hbind : forall d,
             Format h d t args
             = (fragments' <- FormatParameters h 0 fragments args ;;
                out <- OutputFragments d fragments' ;; Ok (ostr ++ out))).
  { intros d. unfold Format. rewrite Hparse. cbn [bind].
    destruct fragments; [contradiction | reflexivity]. }
  assert (Hkept : forall fragments',
             FormatParameters h 0 fragments args = Ok fragments' -> In f fragments').
  { intros fragments' Hb.
    apply (FormatParameters_keeps h f args 0 fragments fragments' Hb Hin). lia. }
  split.
  - intros s Hs. rewrite Hbind in Hs.
    bind_inv Hs. rename a into fragments'.
    destruct (OutputFragments_strict_unhandled f fragments' (Hkept _ Ha) (proj1 Hfresh))
      as (g & _ & _ & Hthrow).
    rewrite Hthrow in Hs. discriminate.
  - intros fragments' Hb. split; [|split; [|split]].
    + destruct (OutputFragments_strict_unhandled f fragments' (Hkept _ Hb) (proj1 Hfresh))
        as (g & Hg & Hgh & Hthrow).
      exists g. repeat split; auto.
      rewrite Hbind, Hb. cbn [bind]. now rewrite Hthrow.
    + rewrite Hbind, Hb. cbn [bind]. now rewrite OutputFragments_lenient.
    + auto.
    + exact Hfresh.
Qed.

Lemma Format_unbound_field_witness :
  (forall s : string, Format bare_host strict "{0}-{1}" [VInt 7] <> Ok s)
  /\ (forall fragments' : list FormatFragment,
        FormatParameters bare_host 0
          [mkFragment "" "" [] 0 NUL false; mkFragment "-" "" [] (-1) NUL true;
           mkFragment "" "" [] 1 NUL false] [VInt 7] = Ok fragments' ->
        (exists g, In g fragments' /\ handled g = false
                   /\ OutputFragments strict fragments'
                      = Throw (out_of_range (unbound_message g))
                   /\ Format bare_host strict "{0}-{1}" [VInt 7]
                      = Throw (out_of_range (unbound_message g)))
        /\ Format bare_host lenient "{0}-{1}" [VInt 7] = Ok ("" ++ texts fragments')
        /\ In (mkFragment "" "" [] 1 NUL false) fragments'
        /\ unbound (mkFragment "" "" [] 1 NUL false)).
Proof.
  apply (Format_unbound_field bare_host "{0}-{1}" [VInt 7] ""
           [mkFragment "" "" [] 0 NUL false; mkFragment "-" "" [] (-1) NUL true;
            mkFragment "" "" [] 1 NUL false]
           (mkFragment "" "" [] 1 NUL false)).
  - reflexivity.
  - simpl. auto.
  - simpl. lia.
Defined.

Example unbound_field_example :
  Format bare_host strict "{0}-{1}" [VInt 7]
  = Throw (out_of_range "Format parameter: 1 does not refer to a valid parameter.")
  /\ Format bare_host lenient "{0}-{1}" [VInt 7] = Ok "7-".
Proof. split; reflexivity. Qed.

(** ** Environment references (claim C10) *)

Lemma bind_ext {A B : Type} (m : outcome A) (k k' : A -> outcome B) :
  (forall a, k a = k' a) -> bind m k = bind m k'.
Proof. intros H. destruct m; simpl; auto. Qed.

Lemma TranslateEnvironmentFragment_unset_as_empty (h : host) (f : FormatFragment) :
  TranslateEnvironmentFragment (unset_as_empty h) f = TranslateEnvironmentFragment h f.
Proof.
  unfold TranslateEnvironmentFragment.
  destruct (index f =? FORMAT_ENVIRONMENT_INDEX); [|reflexivity].
  cbn [getenv unset_as_empty].
  destruct (getenv h (c_str (text f))); reflexivity.
Qed.

Lemma ParseFormatParameter_unset_as_empty (h : host) (pos : Z) (rest : string) (next : Z) :
  ParseFormatParameter (unset_as_empty h) pos rest next = ParseFormatParameter h pos rest next.
Proof.
  unfold ParseFormatParameter.
  apply bind_ext; intros _.
  destruct (SkipWhitespace (pos + 1) (advance rest)) as [pos1 rest1].
  apply bind_ext; intros [[[[f0 idx] pos2] rest2] nx].
  apply bind_ext; intros [[f2 pos3] rest3].
  apply bind_ext; intros [[f3 pos4] rest4].
  apply bind_ext; intros [[f4 pos5] rest5].
  now rewrite TranslateEnvironmentFragment_unset_as_empty.
Qed.

Lemma ParseFormatStr_loop_unset_as_empty (h : host) (fuel : nat) :
  forall (acc : list FormatFragment) (pos : Z) (rest : string) (next : Z),
    ParseFormatStr_loop (unset_as_empty h) fuel acc pos rest next
    = ParseFormatStr_loop h fuel acc pos rest next.
Proof.
  induction fuel as [|fuel IH]; intros acc pos rest next;
    destruct rest as [|c rest]; cbn [ParseFormatStr_loop]; try reflexivity.
  rewrite ParseFormatParameter_unset_as_empty.
  apply bind_ext; intros [[[parsed pos1] rest1] next1]. apply IH.
Qed.

Lemma Format_unset_as_empty (h : host) (d : bool) (t : string) (args : list value) :
  Format (unset_as_empty h) d t args = Format h d t args.
Proof.
  unfold Format, ParseFormatStr.
  destruct (GetPlainTextFragment 0 (c_str t)) as [[[ostr pos] rest]| |]; try reflexivity.
  cbn [bind]. rewrite ParseFormatStr_loop_unset_as_empty.
  reflexivity.
Qed.

Lemma is_identifier_char_not_NUL (c : ascii) :
  is_identifier_char c = true -> Ascii.eqb c NUL = false.
Proof.
  destruct (Ascii.eqb_spec c NUL) as [->|]; [discriminate | reflexivity].
Qed.

Lemma c_str_identifier (name r : string) :
  is_identifier name = true -> c_str (name ++ r) = name ++ c_str r.
Proof.
  induction name as [|c name IH]; [reflexivity|].
  cbn [is_identifier append c_str]. intros H. apply andb_prop in H as [Hc Hn].
  rewrite (is_identifier_char_not_NUL c Hc), IH; auto.
Qed.

Lemma ReadIdentifier_identifier (name r : string) :
  is_identifier name = true ->
  is_identifier_char (peek r) = false ->
  forall pos, exists pos', ReadIdentifier pos (name ++ r) = (name, pos', r).
Proof.
  intros Hn Hr.
  induction name as [|c name IH]; intros pos.
  - exists pos. destruct r as [|c r]; [reflexivity|].
    cbn in Hr. cbn [append ReadIdentifier]. now rewrite Hr.
  - cbn [is_identifier] in Hn. apply andb_prop in Hn as [Hc Hn].
    cbn [append ReadIdentifier]. rewrite Hc.
    destruct (IH Hn (pos + 1)) as [pos' ->]. exists pos'. reflexivity.
Qed.

(** The field [{$name}] of an unset variable: one fragment, marked handled,
    with the empty text. *)
Lemma env_field (h : host) (name : string) (pos next : Z) :
  is_identifier name = true ->
  getenv h name = None ->
  exists pos' f,
    ParseFormatParameter h pos ("{$" ++ name ++ "}") next = Ok ([f], pos', "", next)
    /\ index f = FORMAT_ENVIRONMENT_INDEX /\ handled f = true /\ text f = "".
Proof.
  intros Hn Hg. unfold ParseFormatParameter.
  cbn [append peek advance]. 
  change (assert (Ascii.eqb "{" FORMAT_START)) with (Ok tt). cbn [bind].
  cbn [SkipWhitespace]. change (is_whitespace "$") with false. cbn iota.
  cbn [peek]. change (Ascii.eqb "$" FORMAT_ENVIRONMENT) with true. cbn iota.
  unfold ReadEnvironmentVariableName. cbn [peek advance].
  change (assert (Ascii.eqb "$" FORMAT_ENVIRONMENT)) with (Ok tt). cbn [bind].
  destruct (ReadIdentifier_identifier name "}" Hn eq_refl (pos + 1 + 1)) as [pos2 ->].
  cbn [bind].
  assert (Hc : c_str name = name).
  { rewrite <- (append_nil_r name) at 1. rewrite c_str_identifier by exact Hn.
    apply append_nil_r. }
  unfold ReadSelectors. cbn [String.length ReadSelectors_loop peek].
  change (is_selector_start "}") with false. cbn iota. cbn [bind].
  unfold ReadExplicitTypeConversion. cbn [peek].
  change (Ascii.eqb "}" FORMAT_EXPLICIT_TYPE) with false. cbn iota. cbn [bind].
  unfold ParseFormatSpecifier. cbn [peek].
  change (Ascii.eqb "}" FORMAT_SPECIFIER) with false. cbn iota. cbn [bind].
  unfold TranslateEnvironmentFragment.
  cbn [InitializeFormatFragment index text set_text new_fragment formatSpecifier selectors].
  change (FORMAT_ENVIRONMENT_INDEX =? FORMAT_ENVIRONMENT_INDEX) with true. cbn iota.
  rewrite Hc, Hg.
  replace (ConvertAndFormatType_string h ""
             (InitializeFormatFragment (set_text new_fragment name) FORMAT_ENVIRONMENT_INDEX))
    with (Ok (true, InitializeFormatFragment (set_text new_fragment name)
                                             FORMAT_ENVIRONMENT_INDEX, ""))
    by reflexivity.
  cbn [bind set_text]. cbn.
  do 2 eexists. split; [reflexivity|]. repeat split.
Qed.

Lemma FormatParameters_negative (h : host) (args : list value) :
  forall (i : Z) (fragments : list FormatFragment),
    0 <= i -> Forall (fun f => index f < 0) fragments ->
    FormatParameters h i fragments args = Ok fragments.
Proof.
  assert (Hone : forall i arg fragments,
             0 <= i -> Forall (fun f => index f < 0) fragments ->
             FormatParameter h i fragments arg = Ok fragments).
  { intros i arg fragments Hi. induction 1 as [|f fragments Hf _ IH]; [reflexivity|].
    cbn [FormatParameter].
    destruct (Z.eqb_spec (index f) i); [lia|]. cbn [bind]. now rewrite IH. }
  induction args as [|arg args IH]; intros i fragments Hi Hneg; [reflexivity|].
  cbn [FormatParameters]. rewrite Hone by assumption. cbn [bind].
  apply IH; [lia | assumption].
Qed.

(** C10: an unset environment variable is read as the empty string. The
    field [{$name}] of an unset variable renders as the empty string, in
    both builds and whatever the arguments: no exception is raised, and the
    fragment is marked handled, so that the assembler raises nothing for it.
    More generally every render call gives what it gives on the host where
    each unset variable is set to the empty string instead. *)
Theorem Format_unset_environment_variable (h : host) (d : bool) (name : string)
    (args : list value) (t : string) (pos next : Z) :
  is_identifier name = true ->
  getenv h name = None ->
  Format h d ("{$" ++ name ++ "}") args = Ok ""
  /\ (exists pos' f,
        ParseFormatParameter h pos ("{$" ++ name ++ "}") next = Ok ([f], pos', "", next)
        /\ index f = FORMAT_ENVIRONMENT_INDEX /\ handled f = true /\ text f = "")
  /\ Format h d t args = Format (unset_as_empty h) d t args.
Proof.
  intros Hn Hg.
  split; [|split; [now apply env_field | symmetry; apply Format_unset_as_empty]].
  unfold Format, ParseFormatStr.
  change (c_str ("{$" ++ name ++ "}")) with ("{$" ++ c_str (name ++ "}")).
  rewrite (c_str_identifier name "}" Hn).
  change (c_str "}") with "}".
  change (GetPlainTextFragment 0 ("{$" ++ name ++ "}"))
    with (Ok ("", 0, "{$" ++ name ++ "}") : outcome (string * Z * string)).
  cbn [bind]. cbn [append String.length ParseFormatStr_loop].
  destruct (env_field h name 0 0 Hn Hg) as (pos' & f & Hp & Hi & Hh & Ht).
  cbn [append] in Hp. rewrite Hp. cbn [bind app ParseFormatStr_loop].
  rewrite FormatParameters_negative;
    [|lia|constructor; [rewrite Hi; unfold FORMAT_ENVIRONMENT_INDEX; lia|constructor]].
  cbn [bind OutputFragments]. rewrite Hh, Ht.
  destruct d; reflexivity.
Qed.

Lemma Format_unset_environment_variable_witness :
  Format bare_host strict ("{$" ++ "HOME" ++ "}") [] = Ok ""
  /\ (exists pos' f,
        ParseFormatParameter bare_host 0 ("{$" ++ "HOME" ++ "}") 0 = Ok ([f], pos', "", 0)
        /\ index f = FORMAT_ENVIRONMENT_INDEX /\ handled f = true /\ text f = "")
  /\ Format bare_host strict "{$HOME}/{0}" []
     = Format (unset_as_empty bare_host) strict "{$HOME}/{0}" [].
Proof.
  exact (Format_unset_environment_variable bare_host strict "HOME" [] "{$HOME}/{0}" 0 0
           eq_refl eq_refl).
Defined.

(** ** Positions and fuel do not steer the parser (for claim C9) *)

Lemma same_exn_refl (e : exn) : same_exn e e.
Proof. destruct e; reflexivity. Qed.

Lemma agree_refl {A : Type} (R : A -> A -> Prop) (m : outcome A) :
  (forall a, R a a) -> agree R m m.
Proof. intros HR. destruct m; simpl; auto using same_exn_refl. Qed.

Lemma agree_impl {A : Type} (R S : A -> A -> Prop) (m m' : outcome A) :
  (forall a a', R a a' -> S a a') -> agree R m m' -> agree S m m'.
Proof. intros HRS. destruct m, m'; simpl; auto. Qed.

Lemma agree_bind {A B : Type} (R : A -> A -> Prop) (S : B -> B -> Prop)
    (m m' : outcome A) (k k' : A -> outcome B) :
  agree R m m' ->
  (forall a a', R a a' -> agree S (k a) (k' a')) ->
  agree S (bind m k) (bind m' k').
Proof. intros Hm Hk. destruct m, m'; simpl in *; auto; contradiction. Qed.

Lemma agree_illegal {A : Type} (R : A -> A -> Prop) (pos pos' : Z) (message : string) :
  agree R (illegal pos message) (illegal pos' message).
Proof. reflexivity. Qed.

Lemma scanned_weaken {A : Type} (n n' : nat) (x y : A * Z * string) :
  (n <= n')%nat -> scanned n x y -> scanned n' x y.
Proof. unfold scanned. intuition lia. Qed.

Ltac scanned_now :=
  simpl in *; unfold scanned, field_parsed; simpl; repeat split;
  try reflexivity; try lia.

Lemma SkipWhitespace_length (rest : string) (pos : Z) :
  (String.length (snd (SkipWhitespace pos rest)) <= String.length rest)%nat.
Proof.
  revert pos. induction rest as [|c rest IH]; intros pos; [simpl; lia|].
  cbn [SkipWhitespace]. destruct (is_whitespace c); [|simpl; lia].
  specialize (IH (pos + 1)). simpl. lia.
Qed.

Lemma GetPlainTextFragment_loop_agree (n : nat) :
  forall (rest : string) (expect : ascii) (pos pos' : Z),
    (String.length rest <= n)%nat ->
    agree (scanned (String.length rest))
          (GetPlainTextFragment_loop expect pos rest)
          (GetPlainTextFragment_loop expect pos' rest).
Proof.
  induction n as [|n IH]; intros rest expect pos pos' Hlen.
  - destruct rest; [scanned_now | simpl in Hlen; lia].
  - destruct rest as [|c rest]; [scanned_now|].
    assert (Hstep : forall e p p' (r : string) (k : nat),
               (String.length r + k <= String.length (String c rest))%nat ->
               (String.length r <= n)%nat ->
               agree (scanned (String.length (String c rest)))
                 ('(out, q, r1) <- GetPlainTextFragment_loop e p r ;; Ok (String c out, q, r1))
                 ('(out, q, r1) <- GetPlainTextFragment_loop e p' r ;; Ok (String c out, q, r1))).
    { intros e p p' r k Hk Hr.
      eapply agree_bind; [apply (IH r e p p' Hr)|].
      intros [[o q] r1] [[o' q'] r1'] (Ho & Hr1 & Hl). cbn in *. subst.
      scanned_now. }
    cbn [GetPlainTextFragment_loop].
    destruct (negb (Ascii.eqb expect NUL) && negb (Ascii.eqb expect c));
      [apply agree_illegal|].
    destruct (Ascii.eqb c FORMAT_START).
    { destruct rest as [|c1 rest1]; [scanned_now|].
      destruct (Ascii.eqb c1 FORMAT_START); [|scanned_now].
      apply (Hstep _ _ _ _ 2%nat); simpl in *; lia. }
    destruct (Ascii.eqb c FORMAT_END).
    { destruct (Ascii.eqb expect FORMAT_END);
        [apply (Hstep _ _ _ _ 1%nat); simpl in *; lia|].
      destruct (Ascii.eqb expect NUL);
        (eapply agree_impl; [|apply IH; simpl in *; lia]);
        intros x y; apply scanned_weaken; simpl; lia. }
    apply (Hstep _ _ _ _ 1%nat); simpl in *; lia.
Qed.

Lemma GetPlainTextFragment_agree (rest : string) (pos pos' : Z) :
  agree (scanned (String.length rest))
        (GetPlainTextFragment pos rest) (GetPlainTextFragment pos' rest).
Proof. apply (GetPlainTextFragment_loop_agree (String.length rest)). lia. Qed.

Lemma ParseIntegerNumber_loop_agree (rest : string) :
  forall (pos pos' p s : Z) (fc fa : bool),
    agree (fun x y : Z * Z * bool * Z * string =>
             fst (fst x) = fst (fst y) /\ snd x = snd y
             /\ (String.length (snd x) <= String.length rest)%nat)
          (ParseIntegerNumber_loop false p s fc fa pos rest)
          (ParseIntegerNumber_loop false p s fc fa pos' rest).
Proof.
  induction rest as [|c rest IH]; intros pos pos' p s fc fa.
  - scanned_now.
  - cbn [ParseIntegerNumber_loop andb].
    destruct (Ascii.eqb c "-"); [apply agree_illegal|].
    destruct (is_digit c); [|scanned_now].
    cbv zeta.
    destruct (INT_MAX <? p * 10 + (code c - code "0")); [reflexivity|].
    destruct (p * 10 + (code c - code "0") <? 0); [apply agree_illegal|].
    eapply agree_impl; [|apply IH]. cbn. intuition lia.
Qed.

Lemma ParseIntegerNumber_agree (rest : string) (pos pos' : Z) (d : Z) :
  agree (scanned (String.length rest))
        (ParseIntegerNumber pos rest false d) (ParseIntegerNumber pos' rest false d).
Proof.
  unfold ParseIntegerNumber.
  eapply agree_bind; [apply ParseIntegerNumber_loop_agree|].
  intros [[[[p s] fa] q] r] [[[[p' s'] fa'] q'] r'] (E & Er & Hl).
  cbn in E, Er, Hl. injection E as -> -> ->. subst r'.
  destruct ((((if fa' then p' else d) =? 0) && (s' <? 0))); [apply agree_illegal|].
  scanned_now.
Qed.

Lemma ReadIdentifier_agree (rest : string) (pos pos' : Z) :
  scanned (String.length rest) (ReadIdentifier pos rest) (ReadIdentifier pos' rest).
Proof.
  revert pos pos'. induction rest as [|c rest IH]; intros pos pos'.
  - scanned_now.
  - cbn [ReadIdentifier]. destruct (is_identifier_char c); [|scanned_now].
    specialize (IH (pos + 1) (pos' + 1)).
    destruct (ReadIdentifier (pos + 1) rest) as [[n1 q1] r1].
    destruct (ReadIdentifier (pos' + 1) rest) as [[n2 q2] r2].
    destruct IH as (E & Er & Hl). cbn in *. subst. scanned_now.
Qed.

Lemma ReadFormatSpecifier_agree (n : nat) :
  forall (rest : string) (pos pos' : Z),
    (String.length rest <= n)%nat ->
    agree (scanned (String.length rest))
          (ReadFormatSpecifier pos rest) (ReadFormatSpecifier pos' rest).
Proof.
  induction n as [|n IH]; intros rest pos pos' Hlen.
  - destruct rest; [scanned_now | simpl in Hlen; lia].
  - destruct rest as [|c rest]; [scanned_now|].
    assert (Hstep : forall p p' (r : string) (k : nat),
               (String.length r + k <= String.length (String c rest))%nat ->
               (String.length r <= n)%nat ->
               agree (scanned (String.length (String c rest)))
                 ('(out, q, r1) <- ReadFormatSpecifier p r ;; Ok (String c out, q, r1))
                 ('(out, q, r1) <- ReadFormatSpecifier p' r ;; Ok (String c out, q, r1))).
    { intros p p' r k Hk Hr.
      eapply agree_bind; [apply (IH r p p' Hr)|].
      intros [[o q] r1] [[o' q'] r1'] (Ho & Hr1 & Hl). cbn in *. subst.
      scanned_now. }
    cbn [ReadFormatSpecifier].
    destruct (Ascii.eqb c FORMAT_END).
    { destruct rest as [|c1 rest1]; [scanned_now|].
      destruct (Ascii.eqb c1 FORMAT_END); [|scanned_now].
      apply (Hstep _ _ _ 2%nat); simpl in *; lia. }
    destruct (Ascii.eqb c FORMAT_START).
    { destruct rest as [|c1 rest1]; [apply agree_illegal|].
      destruct (Ascii.eqb c1 FORMAT_START); [|apply agree_illegal].
      apply (Hstep _ _ _ 2%nat); simpl in *; lia. }
    apply (Hstep _ _ _ 1%nat); simpl in *; lia.
Qed.

Lemma ReadExplicitTypeConversion_agree (f : FormatFragment) (rest : string) (pos pos' : Z) :
  agree (scanned (String.length rest))
        (ReadExplicitTypeConversion f pos rest) (ReadExplicitTypeConversion f pos' rest).
Proof.
  unfold ReadExplicitTypeConversion.
  destruct (Ascii.eqb (peek rest) FORMAT_EXPLICIT_TYPE); [|scanned_now].
  destruct (negb (strchr "srid" (peek (advance rest)))); [apply agree_illegal|].
  destruct rest as [|c [|c1 rest]]; scanned_now.
Qed.

Lemma ParseFormatSpecifier_agree (f : FormatFragment) (rest : string) (pos pos' : Z) :
  agree (scanned (String.length rest))
        (ParseFormatSpecifier f pos rest) (ParseFormatSpecifier f pos' rest).
Proof.
  unfold ParseFormatSpecifier.
  destruct (Ascii.eqb (peek rest) FORMAT_SPECIFIER); [|scanned_now].
  eapply agree_bind;
    [apply (ReadFormatSpecifier_agree (String.length (advance rest))); lia|].
  intros [[o q] r] [[o' q'] r'] (E & Er & Hl). cbn in E, Er, Hl. subst.
  destruct rest; scanned_now.
Qed.

Lemma selector_start_nonempty (rest : string) :
  is_selector_start (peek rest) = true ->
  exists c rest', rest = String c rest'.
Proof. destruct rest as [|c rest']; [discriminate | eauto]. Qed.

Lemma ReadSelector_agree (f : FormatFragment) (rest : string) (pos pos' : Z) :
  is_selector_start (peek rest) = true ->
  agree (scanned (pred (String.length rest)))
        (ReadSelector f pos rest) (ReadSelector f pos' rest).
Proof.
  intros Hs. unfold ReadSelector. rewrite Hs.
  destruct (selector_start_nonempty rest Hs) as (c & rest0 & ->).
  cbn [advance peek String.length pred].
  pose proof (ReadIdentifier_agree rest0 (pos + 1) (pos' + 1)) as H.
  destruct (ReadIdentifier (pos + 1) rest0) as [[n1 q1] r1].
  destruct (ReadIdentifier (pos' + 1) rest0) as [[n2 q2] r2].
  destruct H as (E & Er & Hl). cbn in E, Er, Hl. subst n2 r2.
  destruct (Ascii.eqb c FORMAT_SELECTOR_ARRAY_BEGIN
            && negb (Ascii.eqb (peek r1) FORMAT_SELECTOR_ARRAY_END));
    [apply agree_illegal|].
  destruct (Ascii.eqb (peek r1) FORMAT_SELECTOR_ARRAY_END); [|scanned_now].
  destruct r1; scanned_now.
Qed.

Lemma ReadSelectors_loop_agree (fuel : nat) :
  forall (fuel' : nat) (f : FormatFragment) (rest : string) (pos pos' : Z),
    (String.length rest <= fuel)%nat ->
    (String.length rest <= fuel')%nat ->
    agree (scanned (String.length rest))
          (ReadSelectors_loop fuel f pos rest) (ReadSelectors_loop fuel' f pos' rest).
Proof.
  induction fuel as [|fuel IH]; intros fuel' f rest pos pos' Hf Hf'.
  - destruct rest; [|simpl in Hf; lia]. destruct fuel'; scanned_now.
  - destruct (is_selector_start (peek rest)) eqn:Hs.
    + destruct (selector_start_nonempty rest Hs) as (c & rest0 & ->).
      destruct fuel' as [|fuel']; [simpl in Hf'; lia|].
      cbn [ReadSelectors_loop]. rewrite Hs.
      eapply agree_bind; [apply (ReadSelector_agree f _ pos pos' Hs)|].
      intros [[f1 q1] r1] [[f2 q2] r2] (E & Er & Hl). cbn in E, Er, Hl. subst f2 r2.
      eapply agree_impl; [|apply IH; simpl in *; lia].
      intros x y. apply scanned_weaken. simpl. lia.
    + destruct fuel'; cbn [ReadSelectors_loop]; rewrite Hs; scanned_now.
Qed.

Lemma ReadSelectors_agree (f : FormatFragment) (rest : string) (pos pos' : Z) :
  agree (scanned (String.length rest))
        (ReadSelectors f pos rest) (ReadSelectors f pos' rest).
Proof. apply ReadSelectors_loop_agree; lia. Qed.

Lemma field_after_selectors_agree (h : host) (next : Z) (f : FormatFragment)
    (rest : string) (pos pos' : Z) :
  agree (field_parsed (String.length rest))
        (field_after_selectors h next (f, pos, rest))
        (field_after_selectors h next (f, pos', rest)).
Proof.
  unfold field_after_selectors.
  eapply agree_bind; [apply ReadExplicitTypeConversion_agree|].
  intros [[f3 q3] r3] [[f3' q3'] r3'] (E & Er & Hl3). cbn in E, Er, Hl3. subst f3' r3'.
  eapply agree_bind; [apply ParseFormatSpecifier_agree|].
  intros [[f4 q4] r4] [[f4' q4'] r4'] (E & Er & Hl4). cbn in E, Er, Hl4. subst f4' r4'.
  eapply agree_bind; [apply (agree_refl eq); reflexivity|].
  intros f5 f5' <-.
  pose proof (SkipWhitespace_rest r4 q4 q4') as Hr.
  pose proof (SkipWhitespace_length r4 q4) as Hl6.
  destruct (SkipWhitespace q4 r4) as [q6 r6].
  destruct (SkipWhitespace q4' r4) as [q6' r6']. cbn in Hr, Hl6. subst r6'.
  destruct (negb (Ascii.eqb (peek r6) FORMAT_END)); [apply agree_illegal|].
  assert (Hl7 : (String.length (advance r6) <= String.length r6)%nat)
    by (destruct r6; simpl; lia).
  destruct (advance r6) as [|c7 r7] eqn:E7.
  - scanned_now.
  - eapply agree_bind; [apply GetPlainTextFragment_agree|].
    intros [[b q8] r8] [[b' q8'] r8'] (E & Er & Hl8). cbn in E, Er, Hl8. subst b' r8'.
    destruct b; scanned_now.
Qed.

Lemma field_tail_agree (h : host) (next : Z) (f : FormatFragment)
    (rest : string) (pos pos' : Z) :
  agree (field_parsed (String.length rest))
        (field_tail h f pos rest next) (field_tail h f pos' rest next).
Proof.
  unfold field_tail.
  eapply agree_bind; [apply ReadSelectors_agree|].
  intros [[f2 q2] r2] [[f2' q2'] r2'] (E & Er & Hl). cbn in E, Er, Hl. subst f2' r2'.
  eapply agree_impl; [|apply field_after_selectors_agree].
  unfold field_parsed. intuition lia.
Qed.

Lemma ParseFormatParameter_unfold (h : host) (pos : Z) (rest : string) (next : Z) :
  ParseFormatParameter h pos rest next
  = (_ <- assert (Ascii.eqb (peek rest) FORMAT_START) ;;
     let '(pos1, rest1) := SkipWhitespace (pos + 1) (advance rest) in
     '(fragment0, parameterIndex, pos2, rest2, next') <-
       (if Ascii.eqb (peek rest1) FORMAT_ENVIRONMENT then
          '(name, pos2, rest2) <- ReadEnvironmentVariableName pos1 rest1 ;;
          Ok (set_text new_fragment name, FORMAT_ENVIRONMENT_INDEX, pos2, rest2, next)
        else
          '(parameterIndex, pos2, rest2) <- ParseIntegerNumber pos1 rest1 false next ;;
          if INT_MAX <=? parameterIndex then
            Stuck "ParseFormatParameter: signed integer overflow"
          else Ok (new_fragment, parameterIndex, pos2, rest2, parameterIndex + 1)) ;;
     field_tail h (InitializeFormatFragment fragment0 parameterIndex) pos2 rest2 next').
Proof. reflexivity. Qed.

Lemma ParseFormatParameter_agree (h : host) (rest : string) (pos pos' next : Z) :
  agree (field_parsed (pred (String.length rest)))
        (ParseFormatParameter h pos rest next) (ParseFormatParameter h pos' rest next).
Proof.
  rewrite !ParseFormatParameter_unfold.
  eapply agree_bind; [apply (agree_refl eq); reflexivity|]. intros _ _ _.
  assert (Hl0 : String.length (advance rest) = pred (String.length rest))
    by (destruct rest; reflexivity).
  pose proof (SkipWhitespace_rest (advance rest) (pos + 1) (pos' + 1)) as Hr.
  pose proof (SkipWhitespace_length (advance rest) (pos + 1)) as Hl1.
  destruct (SkipWhitespace (pos + 1) (advance rest)) as [q1 r1].
  destruct (SkipWhitespace (pos' + 1) (advance rest)) as [q1' r1']. cbn in Hr, Hl1. subst r1'.
  eapply (agree_bind
            (fun x y : FormatFragment * Z * Z * string * Z =>
               fst (fst (fst (fst x))) = fst (fst (fst (fst y)))
               /\ snd (fst (fst (fst x))) = snd (fst (fst (fst y)))
               /\ snd (fst x) = snd (fst y) /\ snd x = snd y
               /\ (String.length (snd (fst x)) <= String.length r1)%nat)).
  - unfold ReadEnvironmentVariableName.
    destruct (Ascii.eqb (peek r1) FORMAT_ENVIRONMENT).
    + cbn [assert bind].
      pose proof (ReadIdentifier_agree (advance r1) (q1 + 1) (q1' + 1)) as H.
      destruct (ReadIdentifier (q1 + 1) (advance r1)) as [[n2 q2] r2].
      destruct (ReadIdentifier (q1' + 1) (advance r1)) as [[n2' q2'] r2'].
      destruct H as (E & Er & Hl). cbn in E, Er, Hl. subst n2' r2'.
      destruct r1; scanned_now.
    + eapply agree_bind; [apply ParseIntegerNumber_agree|].
      intros [[i q2] r2] [[i' q2'] r2'] (E & Er & Hl). cbn in E, Er, Hl. subst i' r2'.
      destruct (INT_MAX <=? i); [reflexivity|]. scanned_now.
  - intros [[[[f0 i] q2] r2] nx] [[[[f0' i'] q2'] r2'] nx'] (E1 & E2 & E3 & E4 & Hl).
    cbn in E1, E2, E3, E4, Hl. subst f0' i' r2' nx'.
    eapply agree_impl; [|apply field_tail_agree].
    unfold field_parsed. intuition lia.
Qed.

Lemma ParseFormatStr_loop_agree (h : host) (fuel : nat) :
  forall (fuel' : nat) (acc : list FormatFragment) (rest : string) (pos pos' next : Z),
    (String.length rest <= fuel)%nat ->
    (String.length rest <= fuel')%nat ->
    agree eq (ParseFormatStr_loop h fuel acc pos rest next)
             (ParseFormatStr_loop h fuel' acc pos' rest next).
Proof.
  induction fuel as [|fuel IH]; intros fuel' acc rest pos pos' next Hf Hf'.
  - destruct rest; [|simpl in Hf; lia]. destruct fuel'; reflexivity.
  - destruct rest as [|c rest]; [destruct fuel'; reflexivity|].
    destruct fuel' as [|fuel']; [simpl in Hf'; lia|].
    cbn [ParseFormatStr_loop].
    eapply agree_bind; [apply (ParseFormatParameter_agree h _ pos pos')|].
    intros [[[l q] r] nx] [[[l' q'] r'] nx'] (E1 & E2 & E3 & Hl).
    cbn in E1, E2, E3, Hl. subst l' r' nx'.
    apply IH; simpl in *; lia.
Qed.

(** ** The two selector notations (claim C9) *)

(** The map overload looks the front selector up as a key: the mapped value
    is rendered with the rest of the queue; with no such key the whole map
    is, the selector being consumed all the same. *)
Lemma ConvertAndFormatType_map (h : host) (entries : list (string * value))
    (f : FormatFragment) (selector : string) (queue : list string) :
  selectors f = selector :: queue ->
  ConvertAndFormatType h (VMap entries) f
  = match map_at entries selector with
    | Some elem =>
      '(_, f', out) <- ConvertAndFormatType h elem (pop_selector f) ;;
      Ok (true, f', out)
    | None =>
      wrote (pop_selector f)
            (FormatType h (VMap entries) (c_str (formatSpecifier (pop_selector f))))
    end.
Proof.
  intros Hs. cbn [ConvertAndFormatType]. rewrite Hs.
  generalize entries at 1 4 as whole.
  induction entries as [|[key elem] entries IH]; intros whole; [reflexivity|].
  cbn [map_at]. destruct (String.eqb key selector); [reflexivity | apply IH].
Qed.

Lemma ReadSelectors_notations (f : FormatFragment) (name rest : string) (pos pos' : Z) :
  is_identifier name = true ->
  is_identifier_char (peek rest) = false ->
  Ascii.eqb (peek rest) FORMAT_SELECTOR_ARRAY_END = false ->
  agree (scanned (String.length rest))
        (ReadSelectors f pos ("." ++ name ++ rest))
        (ReadSelectors f pos' ("[" ++ name ++ "]" ++ rest)).
Proof.
  intros Hn Hr Hb. unfold ReadSelectors.
  cbn [append String.length ReadSelectors_loop peek].
  change (is_selector_start ".") with true. change (is_selector_start "[") with true.
  cbn iota. unfold ReadSelector. cbn [peek advance].
  change (is_selector_start ".") with true. change (is_selector_start "[") with true.
  cbn iota.
  destruct (ReadIdentifier_identifier name rest Hn Hr (pos + 1)) as [q ->].
  destruct (ReadIdentifier_identifier name (String "]" rest) Hn eq_refl (pos' + 1))
    as [q' ->].
  cbn [peek advance]. rewrite Hb.
  change (Ascii.eqb "." FORMAT_SELECTOR_ARRAY_BEGIN) with false.
  change (Ascii.eqb "]" FORMAT_SELECTOR_ARRAY_END) with true.
  cbn [andb negb bind].
  apply ReadSelectors_loop_agree; rewrite length_append; simpl; lia.
Qed.

(** A decimal digit is none of the characters the parser looks for. *)
Lemma digit_is_plain (c : ascii) :
  is_digit c = true ->
  is_whitespace c = false /\ Ascii.eqb c FORMAT_ENVIRONMENT = false
  /\ Ascii.eqb c "-" = false /\ Ascii.eqb c FORMAT_START = false
  /\ Ascii.eqb c NUL = false.
Proof.
  destruct c as [[] [] [] [] [] [] [] []]; intros H; try discriminate H;
    repeat split; reflexivity.
Qed.

Lemma ParseIntegerNumber_loop_digits (idx r1 r2 : string) :
  is_digits idx = true ->
  is_digit (peek r1) = false -> Ascii.eqb (peek r1) "-" = false ->
  is_digit (peek r2) = false -> Ascii.eqb (peek r2) "-" = false ->
  forall (p s : Z) (fc fa : bool) (pos pos' : Z),
    agree (fun x y : Z * Z * bool * Z * string =>
             fst (fst x) = fst (fst y) /\ snd x = r1 /\ snd y = r2)
          (ParseIntegerNumber_loop false p s fc fa pos (idx ++ r1))
          (ParseIntegerNumber_loop false p s fc fa pos' (idx ++ r2)).
Proof.
  intros Hi H1 M1 H2 M2.
  induction idx as [|c idx IH]; intros p s fc fa pos pos'.
  - cbn [append].
    destruct r1 as [|c1 r1], r2 as [|c2 r2]; cbn [ParseIntegerNumber_loop andb];
      cbn [peek] in H1, M1, H2, M2;
      try rewrite H1; try rewrite M1; try rewrite H2; try rewrite M2;
      simpl; auto.
  - cbn [is_digits] in Hi. apply andb_prop in Hi as [Hc Hi].
    destruct (digit_is_plain c Hc) as (_ & _ & Hm & _).
    cbn [append ParseIntegerNumber_loop andb]. rewrite Hm, Hc.
    cbv zeta.
    destruct (INT_MAX <? p * 10 + (code c - code "0")); [reflexivity|].
    destruct (p * 10 + (code c - code "0") <? 0); [apply agree_illegal|].
    apply IH. exact Hi.
Qed.

Lemma ParseIntegerNumber_digits (idx r1 r2 : string) (d pos pos' : Z) :
  is_digits idx = true ->
  is_digit (peek r1) = false -> Ascii.eqb (peek r1) "-" = false ->
  is_digit (peek r2) = false -> Ascii.eqb (peek r2) "-" = false ->
  agree (fun x y : Z * Z * string =>
           fst (fst x) = fst (fst y) /\ snd x = r1 /\ snd y = r2)
        (ParseIntegerNumber pos (idx ++ r1) false d)
        (ParseIntegerNumber pos' (idx ++ r2) false d).
Proof.
  intros Hi H1 M1 H2 M2. unfold ParseIntegerNumber.
  eapply agree_bind;
    [apply (ParseIntegerNumber_loop_digits idx r1 r2 Hi H1 M1 H2 M2)|].
  intros [[[[p s] fa] q] r] [[[[p' s'] fa'] q'] r'] (E & Er & Er').
  cbn in E, Er, Er'. injection E as -> -> ->. subst r r'.
  destruct ((((if fa' then p' else d) =? 0) && (s' <? 0))); [apply agree_illegal|].
  simpl. auto.
Qed.

Lemma SkipWhitespace_none (pos : Z) (rest : string) :
  is_whitespace (peek rest) = false -> SkipWhitespace pos rest = (pos, rest).
Proof.
  destruct rest as [|c rest]; [reflexivity|]. cbn. now intros ->.
Qed.

Lemma peek_append_digits (idx r : string) :
  is_digits idx = true ->
  (is_digit (peek r) = true \/ is_selector_start (peek r) = true) ->
  is_whitespace (peek (idx ++ r)) = false
  /\ Ascii.eqb (peek (idx ++ r)) FORMAT_ENVIRONMENT = false
  /\ Ascii.eqb (peek (idx ++ r)) FORMAT_START = false.
Proof.
  intros Hi Hr. destruct idx as [|c idx].
  - cbn [append]. destruct Hr as [Hr|Hr].
    + destruct (digit_is_plain _ Hr) as (? & ? & ? & ? & ?). auto.
    + destruct (peek r) as [[] [] [] [] [] [] [] []]; try discriminate Hr;
        repeat split; reflexivity.
  - cbn [is_digits] in Hi. apply andb_prop in Hi as [Hc _]. cbn [append peek].
    destruct (digit_is_plain _ Hc) as (? & ? & ? & ? & ?). auto.
Qed.

(** The field [{idx.name...] and the field [{idx[name]...], parsed from any
    state of the loop of [ParseFormatStr]. *)
Lemma ParseFormatParameter_notations (h : host) (idx name rest : string)
    (pos pos' next : Z) :
  is_digits idx = true ->
  is_identifier name = true ->
  is_identifier_char (peek rest) = false ->
  Ascii.eqb (peek rest) FORMAT_SELECTOR_ARRAY_END = false ->
  agree (field_parsed (String.length rest))
        (ParseFormatParameter h pos ("{" ++ idx ++ "." ++ name ++ rest) next)
        (ParseFormatParameter h pos' ("{" ++ idx ++ "[" ++ name ++ "]" ++ rest) next).
Proof.
  intros Hi Hn Hr Hb.
  rewrite !ParseFormatParameter_unfold.
  cbn [append peek advance].
  change (assert (Ascii.eqb "{" FORMAT_START)) with (Ok tt). cbn [bind].
  destruct (peek_append_digits idx ("." ++ name ++ rest) Hi (or_intror eq_refl))
    as (W1 & E1 & _).
  destruct (peek_append_digits idx ("[" ++ name ++ "]" ++ rest) Hi (or_intror eq_refl))
    as (W2 & E2 & _).
  rewrite (SkipWhitespace_none _ _ W1), (SkipWhitespace_none _ _ W2).
  rewrite E1, E2.
  eapply (agree_bind
            (fun x y : FormatFragment * Z * Z * string * Z =>
               fst (fst (fst (fst x))) = fst (fst (fst (fst y)))
               /\ snd (fst (fst (fst x))) = snd (fst (fst (fst y)))
               /\ snd (fst x) = "." ++ name ++ rest
               /\ snd (fst y) = "[" ++ name ++ "]" ++ rest
               /\ snd x = snd y)).
  - eapply agree_bind;
      [apply (ParseIntegerNumber_digits idx ("." ++ name ++ rest)
                ("[" ++ name ++ "]" ++ rest) next (pos + 1) (pos' + 1) Hi);
       reflexivity|].
    intros [[i q] r] [[i' q'] r'] (E & Er & Er'). cbn in E, Er, Er'. subst i' r r'.
    destruct (INT_MAX <=? i); [reflexivity|]. simpl. auto.
  - intros [[[[f0 i] q2] r2] nx] [[[[f0' i'] q2'] r2'] nx'] (A1 & A2 & A3 & A4 & A5).
    cbn in A1, A2, A3, A4, A5. subst f0' i' r2 r2' nx'.
    unfold field_tail.
    eapply agree_bind; [apply ReadSelectors_notations; assumption|].
    intros [[f2 p2] s2] [[f2' p2'] s2'] (E & Er & Hl). cbn in E, Er, Hl. subst f2' s2'.
    eapply agree_impl; [|apply field_after_selectors_agree].
    unfold field_parsed. intuition lia.
Qed.

Lemma ParseFormatStr_loop_notations (h : host) (idx name rest : string)
    (fuel fuel' : nat) (acc : list FormatFragment) (pos pos' next : Z) :
  is_digits idx = true ->
  is_identifier name = true ->
  is_identifier_char (peek rest) = false ->
  Ascii.eqb (peek rest) FORMAT_SELECTOR_ARRAY_END = false ->
  (String.length ("{" ++ idx ++ "." ++ name ++ rest) <= fuel)%nat ->
  (String.length ("{" ++ idx ++ "[" ++ name ++ "]" ++ rest) <= fuel')%nat ->
  agree eq
    (ParseFormatStr_loop h fuel acc pos ("{" ++ idx ++ "." ++ name ++ rest) next)
    (ParseFormatStr_loop h fuel' acc pos' ("{" ++ idx ++ "[" ++ name ++ "]" ++ rest) next).
Proof.
  intros Hi Hn Hr Hb Hf Hf'.
  pose proof (ParseFormatParameter_notations h idx name rest pos pos' next Hi Hn Hr Hb) as H.
  cbn [append] in *. cbn [String.length] in Hf, Hf'.
  rewrite !length_append in Hf, Hf'. cbn [String.length] in Hf, Hf'.
  rewrite !length_append in Hf, Hf'. cbn [String.length] in Hf, Hf'.
  destruct fuel as [|fuel]; [lia|]. destruct fuel' as [|fuel']; [lia|].
  cbn [ParseFormatStr_loop].
  eapply agree_bind; [exact H|].
  intros [[[l q] r] nx] [[[l' q'] r'] nx'] (E1 & E2 & E3 & Hl).
  cbn in E1, E2, E3, Hl. subst l' r' nx'.
  apply ParseFormatStr_loop_agree; lia.
Qed.

Lemma c_str_append_cases (s : string) :
  (forall t, c_str (s ++ t) = c_str s)
  \/ (forall t, c_str (s ++ t) = s ++ c_str t).
Proof.
  induction s as [|c s [IH|IH]].
  - right. reflexivity.
  - left. intros t. cbn [append c_str]. now rewrite IH.
  - destruct (Ascii.eqb c NUL) eqn:E.
    + left. intros t. cbn [append c_str]. now rewrite E.
    + right. intros t. cbn [append c_str]. now rewrite E, IH.
Qed.

Lemma c_str_append_plain (p t : string) :
  c_str p = p -> c_str (p ++ t) = p ++ c_str t.
Proof.
  induction p as [|c p IH]; [reflexivity|].
  cbn [append c_str]. destruct (Ascii.eqb c NUL); [discriminate|].
  intros H. injection H as H. now rewrite IH.
Qed.

Lemma c_str_digits (idx t : string) :
  is_digits idx = true -> c_str (idx ++ t) = idx ++ c_str t.
Proof.
  induction idx as [|c idx IH]; [reflexivity|].
  cbn [is_digits append c_str]. intros H. apply andb_prop in H as [Hc Hi].
  destruct (digit_is_plain c Hc) as (_ & _ & _ & _ & ->). now rewrite IH.
Qed.

Lemma peek_c_str (s : string) : peek (c_str s) = peek s.
Proof.
  destruct s as [|c s]; [reflexivity|]. cbn [c_str peek].
  destruct (Ascii.eqb_spec c NUL) as [->|]; reflexivity.
Qed.

Lemma Format_agree (h : host) (d : bool) (t1 t2 : string) (args : list value) :
  agree eq (ParseFormatStr h (c_str t1)) (ParseFormatStr h (c_str t2)) ->
  same_result (Format h d t1 args) (Format h d t2 args).
Proof.
  intros H. unfold same_result, Format.
  eapply agree_bind; [exact H|].
  intros x y <-. apply agree_refl. reflexivity.
Qed.

Lemma Format_notations (h : host) (d : bool) (lit idx name rest : string)
    (args : list value) :
  literal_only lit = true ->
  is_digits idx = true ->
  is_identifier name = true ->
  is_identifier_char (peek rest) = false ->
  Ascii.eqb (peek rest) FORMAT_SELECTOR_ARRAY_END = false ->
  same_result (Format h d (lit ++ "{" ++ idx ++ "." ++ name ++ rest) args)
              (Format h d (lit ++ "{" ++ idx ++ "[" ++ name ++ "]" ++ rest) args).
Proof.
  intros Hl Hi Hn Hr Hb. apply Format_agree.
  destruct (c_str_append_cases lit) as [Hc|Hc]; rewrite !Hc.
  { apply agree_refl. reflexivity. }
  rewrite !(c_str_append_plain "{") by reflexivity.
  rewrite !(c_str_digits idx) by exact Hi.
  rewrite (c_str_append_plain ".") by reflexivity.
  rewrite (c_str_append_plain "[") by reflexivity.
  rewrite !(c_str_identifier name) by exact Hn.
  rewrite (c_str_append_plain "]") by reflexivity.
  rewrite <- (peek_c_str rest) in Hr, Hb.
  set (r := c_str rest) in *.
  unfold ParseFormatStr, GetPlainTextFragment.
  destruct (peek_append_digits idx ("." ++ name ++ r) Hi (or_intror eq_refl))
    as (_ & _ & S1).
  destruct (peek_append_digits idx ("[" ++ name ++ "]" ++ r) Hi (or_intror eq_refl))
    as (_ & _ & S2).
  assert (T1 : forall pos, exists pos',
               GetPlainTextFragment_loop NUL pos ("{" ++ idx ++ "." ++ name ++ r)
               = Ok ("", pos', "{" ++ idx ++ "." ++ name ++ r)).
  { intros pos. exists pos. cbn [append GetPlainTextFragment_loop] in *.
    destruct (idx ++ String "." (name ++ r)) as [|c X]; [reflexivity|].
    cbn [peek] in S1. now rewrite S1. }
  assert (T2 : forall pos, exists pos',
               GetPlainTextFragment_loop NUL pos ("{" ++ idx ++ "[" ++ name ++ "]" ++ r)
               = Ok ("", pos', "{" ++ idx ++ "[" ++ name ++ "]" ++ r)).
  { intros pos. exists pos. cbn [append GetPlainTextFragment_loop] in *.
    destruct (idx ++ String "[" (name ++ String "]" r)) as [|c X]; [reflexivity|].
    cbn [peek] in S2. now rewrite S2. }
  destruct (GetPlainTextFragment_literal_then _ _ (String.length lit) T1 lit 0 (le_n _) Hl)
    as [p1 ->].
  destruct (GetPlainTextFragment_literal_then _ _ (String.length lit) T2 lit 0 (le_n _) Hl)
    as [p2 ->].
  cbn [bind].
  eapply agree_bind;
    [apply ParseFormatStr_loop_notations; auto|].
  intros x y <-. reflexivity.
Qed.

(** C9: the object notation and the array notation of a selector give the
    same render call. For the first field of a template, with any literal
    text before it, any written index or none, any identifier as the key and
    anything after the selector, the two templates give the same result for
    every argument list, in both builds: the same string, or the same error
    up to the position it reports (the array notation is one character
    longer). [ReadSelectors] itself, from any fragment and position, queues
    the same selector and leaves the same text. The sample call of the
    documentation gives the same text for both mixes of notations. *)
Theorem selector_notations_agree (h : host) (d : bool) (lit idx name rest : string)
    (args : list value) (f : FormatFragment) (pos pos' : Z) :
  literal_only lit = true ->
  is_digits idx = true ->
  is_identifier name = true ->
  is_identifier_char (peek rest) = false ->
  Ascii.eqb (peek rest) FORMAT_SELECTOR_ARRAY_END = false ->
  same_result (Format h d (lit ++ "{" ++ idx ++ "." ++ name ++ rest) args)
              (Format h d (lit ++ "{" ++ idx ++ "[" ++ name ++ "]" ++ rest) args)
  /\ agree (scanned (String.length rest))
           (ReadSelectors f pos ("." ++ name ++ rest))
           (ReadSelectors f pos' ("[" ++ name ++ "]" ++ rest))
  /\ Format h d "{0.key1}, {0[key3]}" args = Format h d "{0[key1]}, {0.key3}" args
  /\ Format h d "{0.key1}, {0[key3]}"
       [VMap [("key1", VString "value1"); ("key2", VString "value2");
              ("key3", VString "value3")]]
     = Ok "value1, value3".
Proof.
  intros Hl Hi Hn Hr Hb.
  split; [now apply Format_notations|].
  split; [now apply ReadSelectors_notations|].
  split.
  - unfold Format.
    replace (ParseFormatStr h (c_str "{0.key1}, {0[key3]}"))
      with (ParseFormatStr h (c_str "{0[key1]}, {0.key3}"))
      by (vm_compute; reflexivity).
    reflexivity.
  - destruct d; reflexivity.
Qed.

Lemma selector_notations_agree_witness :
  same_result
    (Format bare_host strict ("" ++ "{" ++ "0" ++ "." ++ "key1" ++ "}")
       [VMap [("key1", VString "value1")]])
    (Format bare_host strict ("" ++ "{" ++ "0" ++ "[" ++ "key1" ++ "]" ++ "}")
       [VMap [("key1", VString "value1")]])
  /\ agree (scanned (String.length "}"))
           (ReadSelectors new_fragment 2 ("." ++ "key1" ++ "}"))
           (ReadSelectors new_fragment 2 ("[" ++ "key1" ++ "]" ++ "}"))
  /\ Format bare_host strict "{0.key1}, {0[key3]}" [VMap [("key1", VString "value1")]]
     = Format bare_host strict "{0[key1]}, {0.key3}" [VMap [("key1", VString "value1")]]
  /\ Format bare_host strict "{0.key1}, {0[key3]}"
       [VMap [("key1", VString "value1"); ("key2", VString "value2");
              ("key3", VString "value3")]]
     = Ok "value1, value3".
Proof.
  exact (selector_notations_agree bare_host strict "" "0" "key1" "}"
           [VMap [("key1", VString "value1")]] new_fragment 2 2
           eq_refl eq_refl eq_refl eq_refl eq_refl).
Defined.

(** * Further properties of the scanner, the parser and the renderer *)

Lemma consumed_refl (pos : Z) (rest : string) : consumed pos rest pos rest.
Proof. exists "". split; [reflexivity | unfold strlen; simpl; lia]. Qed.

Lemma strlen_append (s1 s2 : string) : strlen (s1 ++ s2) = strlen s1 + strlen s2.
Proof. unfold strlen. rewrite length_append. lia. Qed.

Lemma strlen_nonneg (s : string) : 0 <= strlen s.
Proof. unfold strlen. lia. Qed.

Lemma strlen_String (c : ascii) (s : string) : strlen (String c s) = 1 + strlen s.
Proof. unfold strlen. cbn [String.length]. lia. Qed.

Lemma consumed_trans (p0 p1 p2 : Z) (r0 r1 r2 : string) :
  consumed p0 r0 p1 r1 -> consumed p1 r1 p2 r2 -> consumed p0 r0 p2 r2.
Proof.
  intros (s1 & -> & ->) (s2 & -> & ->). exists (s1 ++ s2).
  rewrite append_assoc, strlen_append. split; [reflexivity | lia].
Qed.

Lemma consumed_step (c : ascii) (pos : Z) (rest : string) (pos' : Z) (rest' : string) :
  consumed (pos + 1) rest pos' rest' -> consumed pos (String c rest) pos' rest'.
Proof.
  intros (s & -> & ->). exists (String c s). rewrite strlen_String.
  split; [reflexivity | lia].
Qed.

Lemma consumed_advance (pos : Z) (rest : string) :
  rest <> "" -> consumed pos rest (pos + 1) (advance rest).
Proof.
  destruct rest as [|c rest]; [congruence|]. intros _.
  apply consumed_step, consumed_refl.
Qed.

Lemma consumed_length (pos : Z) (rest : string) (pos' : Z) (rest' : string) :
  consumed pos rest pos' rest' ->
  (String.length rest' <= String.length rest)%nat /\ pos <= pos'
  /\ pos' - pos = strlen rest - strlen rest'.
Proof.
  intros (s & -> & ->). rewrite length_append, strlen_append.
  pose proof (strlen_nonneg s). repeat split; lia.
Qed.

Lemma GetPlainTextFragment_loop_stops (n : nat) :
  forall (rest : string) (expect : ascii) (pos : Z) (out : string) (pos' : Z) (rest' : string),
    (String.length rest <= n)%nat ->
    GetPlainTextFragment_loop expect pos rest = Ok (out, pos', rest') ->
    consumed pos rest pos' rest' /\ at_field_or_end rest'
    /\ (String.length out + String.length rest' <= String.length rest)%nat.
Proof.
  induction n as [|n IH]; intros rest expect pos out pos' rest' Hlen H.
  - destruct rest; [|simpl in Hlen; lia].
    injection H as <- <- <-. split; [apply consumed_refl|]. split; [now left | simpl; lia].
  - destruct rest as [|c rest].
    { injection H as <- <- <-. split; [apply consumed_refl|]. split; [now left | simpl; lia]. }
    cbn [GetPlainTextFragment_loop] in H.
    destruct (negb (Ascii.eqb expect NUL) && negb (Ascii.eqb expect c)); [discriminate|].
    destruct (Ascii.eqb_spec c FORMAT_START) as [->|Hs].
    { destruct rest as [|c1 rest1].
      - injection H as <- <- <-. split; [apply consumed_refl|].
        split; [right; split; [reflexivity | discriminate] | simpl; lia].
      - destruct (Ascii.eqb_spec c1 FORMAT_START) as [->|Hc1].
        + bind_inv H. destruct a as [[o q] r]. injection H as <- <- <-.
          apply IH in Ha as (Hc & Hf & Hl); [|simpl in Hlen; lia].
          split; [|split; [exact Hf | simpl in *; lia]].
          apply consumed_step, consumed_step.
          now replace (pos + 1 + 1) with (pos + 2) by lia.
        + injection H as <- <- <-. split; [apply consumed_refl|].
          split; [right; split; [reflexivity | exact Hc1] | simpl; lia]. }
    assert (Hcopy : forall e,
               ('(o, q, r) <- GetPlainTextFragment_loop e (pos + 1) rest ;;
                Ok (String c o, q, r)) = Ok (out, pos', rest') ->
               consumed pos (String c rest) pos' rest' /\ at_field_or_end rest'
               /\ (String.length out + String.length rest'
                   <= String.length (String c rest))%nat).
    { intros e He. bind_inv He. destruct a as [[o q] r]. injection He as <- <- <-.
      apply IH in Ha as (Hc & Hf & Hl); [|simpl in Hlen; lia].
      split; [now apply consumed_step|]. split; [exact Hf | simpl in *; lia]. }
    assert (Hskip : forall e,
               GetPlainTextFragment_loop e (pos + 1) rest = Ok (out, pos', rest') ->
               consumed pos (String c rest) pos' rest' /\ at_field_or_end rest'
               /\ (String.length out + String.length rest'
                   <= String.length (String c rest))%nat).
    { intros e He.
      apply IH in He as (Hc & Hf & Hl); [|simpl in Hlen; lia].
      split; [now apply consumed_step|]. split; [exact Hf | simpl in *; lia]. }
    destruct (Ascii.eqb c FORMAT_END).
    + destruct (Ascii.eqb expect FORMAT_END); [now apply (Hcopy NUL)|].
      destruct (Ascii.eqb expect NUL); eapply Hskip; exact H.
    + now apply (Hcopy expect).
Qed.

Lemma SkipWhitespace_consumed (rest : string) :
  forall (pos pos' : Z) (rest' : string),
    SkipWhitespace pos rest = (pos', rest') -> consumed pos rest pos' rest'.
Proof.
  induction rest as [|c rest IH]; intros pos pos' rest' H.
  - injection H as <- <-. apply consumed_refl.
  - cbn [SkipWhitespace] in H. destruct (is_whitespace c).
    + apply consumed_step. now apply IH.
    + injection H as <- <-. apply consumed_refl.
Qed.

Lemma ParseIntegerNumber_loop_consumed (allowNegative : bool) (rest : string) :
  forall (p s : Z) (fc fa : bool) (pos : Z) p' s' fa' pos' rest',
    ParseIntegerNumber_loop allowNegative p s fc fa pos rest = Ok (p', s', fa', pos', rest') ->
    consumed pos rest pos' rest'.
Proof.
  induction rest as [|c rest IH]; intros p s fc fa pos p' s' fa' pos' rest' H.
  - injection H as _ _ _ <- <-. apply consumed_refl.
  - cbn [ParseIntegerNumber_loop] in H.
    destruct (Ascii.eqb c "-").
    + destruct (allowNegative && fc); [|discriminate].
      apply consumed_step. eapply IH; exact H.
    + destruct (is_digit c).
      * cbv zeta in H.
        destruct (INT_MAX <? p * 10 + (code c - code "0")); [discriminate|].
        destruct (p * 10 + (code c - code "0") <? 0); [discriminate|].
        apply consumed_step. eapply IH; exact H.
      * injection H as _ _ _ <- <-. apply consumed_refl.
Qed.

Lemma ParseIntegerNumber_consumed (allowNegative : bool) (rest : string) (pos d v pos' : Z)
    (rest' : string) :
  ParseIntegerNumber pos rest allowNegative d = Ok (v, pos', rest') ->
  consumed pos rest pos' rest'.
Proof.
  unfold ParseIntegerNumber. intros H. bind_inv H.
  destruct a as [[[[p s] fa] q] r].
  apply ParseIntegerNumber_loop_consumed in Ha.
  destruct (((if fa then p else d) =? 0) && (s <? 0)); [discriminate|].
  now injection H as _ <- <-.
Qed.

Lemma ReadIdentifier_consumed (rest : string) :
  forall (pos : Z) (name : string) (pos' : Z) (rest' : string),
    ReadIdentifier pos rest = (name, pos', rest') -> consumed pos rest pos' rest'.
Proof.
  induction rest as [|c rest IH]; intros pos name pos' rest' H.
  - injection H as _ <- <-. apply consumed_refl.
  - cbn [ReadIdentifier] in H. destruct (is_identifier_char c).
    + destruct (ReadIdentifier (pos + 1) rest) as [[n q] r] eqn:E.
      injection H as _ <- <-. apply consumed_step. eapply IH; exact E.
    + injection H as _ <- <-. apply consumed_refl.
Qed.

Lemma ReadFormatSpecifier_consumed (n : nat) :
  forall (rest : string) (pos : Z) (out : string) (pos' : Z) (rest' : string),
    (String.length rest <= n)%nat ->
    ReadFormatSpecifier pos rest = Ok (out, pos', rest') ->
    consumed pos rest pos' rest'
    /\ (rest' = "" \/ peek rest' = FORMAT_END)
    /\ (String.length out + String.length rest' <= String.length rest)%nat.
Proof.
  induction n as [|n IH]; intros rest pos out pos' rest' Hlen H.
  - destruct rest; [|simpl in Hlen; lia].
    injection H as <- <- <-. split; [apply consumed_refl | split; [now left | simpl; lia]].
  - destruct rest as [|c rest].
    { injection H as <- <- <-.
      split; [apply consumed_refl | split; [now left | simpl; lia]]. }
    cbn [ReadFormatSpecifier] in H.
    assert (Hdouble : forall c1 rest1,
               rest = String c1 rest1 ->
               ('(o, q, r) <- ReadFormatSpecifier (pos + 2) rest1 ;;
                Ok (String c o, q, r)) = Ok (out, pos', rest') ->
               consumed pos (String c rest) pos' rest'
               /\ (rest' = "" \/ peek rest' = FORMAT_END)
               /\ (String.length out + String.length rest'
                   <= String.length (String c rest))%nat).
    { intros c1 rest1 -> He. bind_inv He. destruct a as [[o q] r].
      injection He as <- <- <-.
      apply IH in Ha as (Hc & Hf & Hl); [|simpl in Hlen; lia].
      split; [|split; [exact Hf | simpl in *; lia]].
      apply consumed_step, consumed_step.
      now replace (pos + 1 + 1) with (pos + 2) by lia. }
    destruct (Ascii.eqb_spec c FORMAT_END) as [->|He].
    { destruct rest as [|c1 rest1].
      - injection H as <- <- <-.
        split; [apply consumed_refl | split; [now right | simpl; lia]].
      - destruct (Ascii.eqb c1 FORMAT_END); [now apply (Hdouble c1 rest1)|].
        injection H as <- <- <-.
        split; [apply consumed_refl | split; [now right | simpl; lia]]. }
    destruct (Ascii.eqb c FORMAT_START).
    { destruct rest as [|c1 rest1]; [discriminate|].
      destruct (Ascii.eqb c1 FORMAT_START); [now apply (Hdouble c1 rest1) | discriminate]. }
    bind_inv H. destruct a as [[o q] r]. injection H as <- <- <-.
    apply IH in Ha as (Hc & Hf & Hl); [|simpl in Hlen; lia].
    split; [now apply consumed_step | split; [exact Hf | simpl in *; lia]].
Qed.

Lemma ParseFormatSpecifier_consumed (f f' : FormatFragment) (pos pos' : Z)
    (rest rest' : string) :
  ParseFormatSpecifier f pos rest = Ok (f', pos', rest') ->
  consumed pos rest pos' rest'.
Proof.
  unfold ParseFormatSpecifier.
  destruct (Ascii.eqb (peek rest) FORMAT_SPECIFIER) eqn:E.
  - intros H. bind_inv H. destruct a as [[spec q] r]. injection H as _ <- <-.
    apply (ReadFormatSpecifier_consumed (String.length (advance rest))) in Ha as (Hc & _);
      [|lia].
    eapply consumed_trans; [|exact Hc].
    apply consumed_advance. destruct rest; [discriminate | congruence].
  - intros H. injection H as _ <- <-. apply consumed_refl.
Qed.

Lemma ReadExplicitTypeConversion_consumed (f f' : FormatFragment) (pos pos' : Z)
    (rest rest' : string) :
  ReadExplicitTypeConversion f pos rest = Ok (f', pos', rest') ->
  consumed pos rest pos' rest'.
Proof.
  unfold ReadExplicitTypeConversion.
  destruct (Ascii.eqb (peek rest) FORMAT_EXPLICIT_TYPE) eqn:E.
  - destruct (negb (strchr "srid" (peek (advance rest)))); [discriminate|].
    destruct rest as [|c [|c1 rest2]]; try discriminate.
    cbn [advance]. intros H. injection H as _ <- <-.
    apply consumed_step, consumed_step.
    replace (pos + 1 + 1) with (pos + 2) by lia. apply consumed_refl.
  - intros H. injection H as _ <- <-. apply consumed_refl.
Qed.

(** A selector takes at least its first character. *)
Lemma ReadSelector_consumed (f f' : FormatFragment) (pos pos' : Z) (rest rest' : string) :
  ReadSelector f pos rest = Ok (f', pos', rest') ->
  consumed pos rest pos' rest'
  /\ (is_selector_start (peek rest) = true ->
      (String.length rest' < String.length rest)%nat).
Proof.
  unfold ReadSelector.
  destruct (is_selector_start (peek rest)) eqn:Hs.
  - destruct (selector_start_nonempty rest Hs) as (c & rest0 & ->).
    cbn [advance peek].
    destruct (ReadIdentifier (pos + 1) rest0) as [[name q1] r1] eqn:E.
    apply ReadIdentifier_consumed in E.
    destruct (Ascii.eqb c FORMAT_SELECTOR_ARRAY_BEGIN
              && negb (Ascii.eqb (peek r1) FORMAT_SELECTOR_ARRAY_END));
      [discriminate|].
    destruct (Ascii.eqb (peek r1) FORMAT_SELECTOR_ARRAY_END) eqn:Eend;
      intros H; injection H as _ <- <-.
    + assert (Hc : consumed pos (String c rest0) (q1 + 1) (advance r1)).
      { apply consumed_step. eapply consumed_trans; [exact E|].
        apply consumed_advance. destruct r1; [discriminate | congruence]. }
      split; [exact Hc|]. intros _.
      apply consumed_length in E as (Hl & _). destruct r1; simpl in *; lia.
    + split; [now apply consumed_step|]. intros _.
      apply consumed_length in E as (Hl & _). simpl. lia.
  - intros H. injection H as _ <- <-. split; [apply consumed_refl | discriminate].
Qed.

(** The loop of [ReadSelectors] has fuel to spare: it ends before the
    fuel does. *)
Lemma ReadSelectors_loop_consumed (fuel : nat) :
  forall (f : FormatFragment) (pos : Z) (rest : string),
    (String.length rest <= fuel)%nat ->
    match ReadSelectors_loop fuel f pos rest with
    | Ok (f', pos', rest') =>
      consumed pos rest pos' rest' /\ is_selector_start (peek rest') = false
    | Throw _ => True
    | Stuck _ => False
    end.
Proof.
  induction fuel as [|fuel IH]; intros f pos rest Hlen.
  - destruct rest; [|simpl in Hlen; lia]. cbn. split; [apply consumed_refl | reflexivity].
  - cbn [ReadSelectors_loop].
    destruct (is_selector_start (peek rest)) eqn:Hs;
      [|split; [apply consumed_refl | exact Hs]].
    destruct (ReadSelector f pos rest) as [[[f1 q1] r1]|e|w] eqn:E; cbn [bind]; [| exact I |].
    + apply ReadSelector_consumed in E as (Hc & Hl). specialize (Hl Hs).
      specialize (IH f1 q1 r1 ltac:(lia)).
      destruct (ReadSelectors_loop fuel f1 q1 r1) as [[[f2 q2] r2]|e|w]; auto.
      destruct IH as (Hc2 & Hn). split; [|exact Hn].
      eapply consumed_trans; eauto.
    + unfold ReadSelector in E. rewrite Hs in E.
      destruct (ReadIdentifier (pos + 1) (advance rest)) as [[name q1] r1].
      destruct (Ascii.eqb (peek rest) FORMAT_SELECTOR_ARRAY_BEGIN
                && negb (Ascii.eqb (peek r1) FORMAT_SELECTOR_ARRAY_END));
        [discriminate|].
      destruct (Ascii.eqb (peek r1) FORMAT_SELECTOR_ARRAY_END); discriminate.
Qed.

Lemma ReadSelectors_consumed (f f' : FormatFragment) (pos pos' : Z) (rest rest' : string) :
  ReadSelectors f pos rest = Ok (f', pos', rest') -> consumed pos rest pos' rest'.
Proof.
  unfold ReadSelectors. intros H.
  pose proof (ReadSelectors_loop_consumed (String.length rest) f pos rest (le_n _)) as L.
  rewrite H in L. tauto.
Qed.

Lemma ReadEnvironmentVariableName_consumed (pos : Z) (rest name : string) (pos' : Z)
    (rest' : string) :
  ReadEnvironmentVariableName pos rest = Ok (name, pos', rest') ->
  consumed pos rest pos' rest'.
Proof.
  unfold ReadEnvironmentVariableName. intros H. bind_inv H.
  unfold assert in Ha.
  destruct (Ascii.eqb (peek rest) FORMAT_ENVIRONMENT) eqn:E; [|discriminate].
  injection H as H. apply ReadIdentifier_consumed in H.
  eapply consumed_trans; [|exact H].
  apply consumed_advance. destruct rest; [discriminate | congruence].
Qed.

(** What one call of [ParseFormatParameter] that returns has scanned: the
    opening bracket it was called on, a closing bracket, and the literal
    text after it up to the next field or the end. *)
Lemma ParseFormatParameter_progress (h : host) (pos : Z) (rest : string) (next : Z)
    (fragments : list FormatFragment) (pos' : Z) (rest' : string) (next' : Z) :
  ParseFormatParameter h pos rest next = Ok (fragments, pos', rest', next') ->
  peek rest = FORMAT_START
  /\ consumed pos rest pos' rest'
  /\ (String.length rest' < String.length rest)%nat
  /\ at_field_or_end rest'
  /\ exists (q : Z) (body : string),
       consumed (pos + 1) (advance rest) q (String FORMAT_END body)
       /\ consumed (q + 1) body pos' rest'.
Proof.
  unfold ParseFormatParameter. intros H.
  bind_inv H. unfold assert in Ha.
  destruct (Ascii.eqb_spec (peek rest) FORMAT_START) as [Hopen|]; [|discriminate].
  clear Ha a.
  destruct (SkipWhitespace (pos + 1) (advance rest)) as [pos1 rest1] eqn:E1.
  apply SkipWhitespace_consumed in E1.
  bind_inv H. destruct a as [[[[f0 idx] pos2] rest2] nx].
  assert (E2 : consumed pos1 rest1 pos2 rest2).
  { destruct (Ascii.eqb (peek rest1) FORMAT_ENVIRONMENT).
    - bind_inv Ha. destruct a as [[name p2] r2]. injection Ha as _ _ <- <- _.
      now apply ReadEnvironmentVariableName_consumed in Ha0.
    - bind_inv Ha. destruct a as [[i p2] r2].
      destruct (INT_MAX <=? i); [discriminate|]. injection Ha as _ _ <- <- _.
      now apply ParseIntegerNumber_consumed in Ha0. }
  clear Ha.
  bind_inv H. destruct a as [[f2 pos3] rest3]. apply ReadSelectors_consumed in Ha.
  bind_inv H. destruct a as [[f3 pos4] rest4].
  apply ReadExplicitTypeConversion_consumed in Ha0.
  bind_inv H. destruct a as [[f4 pos5] rest5]. apply ParseFormatSpecifier_consumed in Ha1.
  bind_inv H. clear Ha2.
  destruct (SkipWhitespace pos5 rest5) as [pos6 rest6] eqn:E6.
  apply SkipWhitespace_consumed in E6.
  destruct (Ascii.eqb_spec (peek rest6) FORMAT_END) as [Hclose|]; [|discriminate].
  cbn [negb] in H.
  assert (Hbody : consumed (pos + 1) (advance rest) pos6 rest6).
  { repeat (eapply consumed_trans; [eassumption|]). apply consumed_refl. }
  destruct rest6 as [|c6 body]; [discriminate|]. cbn [peek] in Hclose. subst c6.
  cbn [advance] in H.
  assert (Hopen' : consumed pos rest (pos + 1) (advance rest)).
  { apply consumed_advance. destruct rest; [discriminate | congruence]. }
  assert (Htail : consumed (pos6 + 1) body pos' rest' /\ at_field_or_end rest').
  { destruct body as [|c7 r7].
    - injection H as _ <- <- _. split; [apply consumed_refl | now left].
    - bind_inv H. destruct a0 as [[buffer pos8] rest8].
      apply (GetPlainTextFragment_loop_stops (String.length (String c7 r7))) in Ha2
        as (Hc & Hf & _); [|lia].
      destruct buffer; injection H as _ <- <- _; auto. }
  destruct Htail as (Htail & Hend).
  split; [exact Hopen|]. split; [|split; [|split; [exact Hend|]]].
  - eapply consumed_trans; [exact Hopen'|].
    eapply consumed_trans; [exact Hbody|].
    apply consumed_step. exact Htail.
  - apply consumed_length in Hbody as (L1 & _).
    apply consumed_length in Htail as (L2 & _).
    destruct rest; [discriminate|]. simpl in *. lia.
  - exists pos6, body. auto.
Qed.

Section Endings.

Variable h : host.

Lemma fails_within_bind {A B : Type} (messages : list string) (m : outcome A)
    (k : A -> outcome B) :
  fails_within h messages m -> (forall a, m = Ok a -> fails_within h messages (k a)) ->
  fails_within h messages (bind m k).
Proof. destruct m; simpl; auto. Qed.

Lemma fails_within_weaken {A : Type} (l l' : list string) (m : outcome A) :
  incl l l' -> fails_within h l m -> fails_within h l' m.
Proof. intros Hi. destruct m as [a|[p msg|msg|msg]|w]; simpl; auto. Qed.

Lemma ParseIntegerNumber_loop_fails (rest : string) :
  forall (p s : Z) (fc fa : bool) (pos : Z),
    fails_within h specifier_errors (ParseIntegerNumber_loop false p s fc fa pos rest).
Proof.
  induction rest as [|c rest IH]; intros p s fc fa pos; [exact I|].
  cbn [ParseIntegerNumber_loop andb].
  destruct (Ascii.eqb c "-"); [simpl; auto|].
  destruct (is_digit c); [|exact I].
  cbv zeta.
  destruct (INT_MAX <? p * 10 + (code c - code "0")); [simpl; tauto|].
  destruct (p * 10 + (code c - code "0") <? 0); [simpl; auto | apply IH].
Qed.

Lemma ParseIntegerNumber_fails (pos : Z) (rest : string) (d : Z) :
  fails_within h specifier_errors (ParseIntegerNumber pos rest false d).
Proof.
  unfold ParseIntegerNumber.
  apply fails_within_bind; [apply ParseIntegerNumber_loop_fails|].
  intros [[[[p s] fa] q] r] H.
  apply ParseIntegerNumber_loop_unsigned in H as (-> & _).
  change (1 <? 0) with false. rewrite andb_false_r. exact I.
Qed.

Lemma ConvertToBasicFormatSpecifiers_fails (s : string) (init : BasicFormatSpecifiers) :
  fails_within h specifier_errors (ConvertToBasicFormatSpecifiers s init).
Proof.
  unfold ConvertToBasicFormatSpecifiers. destruct s as [|c s]; [exact I|].
  destruct (ReadAlignSpecifier init 0 (String c s)) as [[s1 p1] r1].
  destruct (ReadSignSpecifier s1 p1 r1) as [[s2 p2] r2].
  destruct (ReadAlternateSpecifier s2 p2 r2) as [[s3 p3] r3].
  destruct (ReadSignAwareZeroSpecifier s3 p3 r3) as [[s4 p4] r4].
  apply fails_within_bind.
  { unfold ReadWidthSpecifier. apply fails_within_bind; [apply ParseIntegerNumber_fails|].
    intros [[w q] r] _. exact I. }
  intros [[s5 p5] r5] _.
  destruct (ReadThousandSepSpecifier s5 p5 r5) as [[s6 p6] r6].
  apply fails_within_bind.
  { unfold ReadPrecisionSpecifier.
    destruct (Ascii.eqb (peek r6) FORMAT_PRECISION_TOGGLE); [|exact I].
    apply fails_within_bind; [apply ParseIntegerNumber_fails|].
    intros [[w q] r] _. exact I. }
  intros [[s7 p7] r7] _.
  destruct (ReadTypeSpecifier s7 p7 r7) as [[s8 p8] r8]. exact I.
Qed.

Lemma user_locale_fails (messages : list string) :
  fails_within h messages (user_locale h).
Proof.
  unfold user_locale. destruct (user_numpunct h) eqn:E; [exact I | split; [reflexivity | exact E]].
Qed.

Lemma PreprocessStreamForInteger_fails (sp : BasicFormatSpecifiers) (s : ios)
    (v : Z) :
  fails_within h specifier_errors (PreprocessStreamForInteger h sp s v).
Proof.
  unfold PreprocessStreamForInteger. cbv zeta.
  repeat match goal with
         | |- context [if Ascii.eqb (type sp) ?c then _ else _] =>
           destruct (Ascii.eqb (type sp) c)
         end; try exact I.
  apply fails_within_bind; [apply user_locale_fails | intros; exact I].
Qed.

Lemma FormatType_int64_fails (v : Z) (spec : string) :
  fails_within h specifier_errors (FormatType_int64 h v spec).
Proof.
  unfold FormatType_int64.
  apply fails_within_bind; [apply ConvertToBasicFormatSpecifiers_fails|].
  intros sp _.
  apply fails_within_bind; [apply PreprocessStreamForInteger_fails|].
  intros [[b w] u] _. exact I.
Qed.

Lemma FormatType_cstr_fails (v spec : string) :
  fails_within h specifier_errors (FormatType_cstr v spec).
Proof.
  unfold FormatType_cstr.
  apply fails_within_bind; [apply ConvertToBasicFormatSpecifiers_fails|].
  intros sp _. exact I.
Qed.

Lemma trailing_zeroes_loop_fails (fuel : nat) :
  forall (i f t : Z), fails_within h specifier_errors (trailing_zeroes_loop fuel i f t).
Proof.
  induction fuel as [|fuel IH]; intros i f t; cbn [trailing_zeroes_loop].
  - simpl. tauto.
  - destruct (f =? 0); [simpl; tauto|].
    destruct (i mod f =? 0); [apply IH | exact I].
Qed.

Lemma fraction_loop_fails (fuel : nat) :
  forall (f : Q) (n l : Z) (b : bool), fails_within h specifier_errors (fraction_loop fuel f n l b).
Proof.
  induction fuel as [|fuel IH]; intros f n l b; cbn [fraction_loop];
    destruct (Qlt_bool dynamic_epsilon f); try exact I.
  - simpl. tauto.
  - apply IH.
Qed.

Lemma FormatDynamicDecimal_fails (s : ios) (v : Q) (a b c : Z) :
  fails_within h specifier_errors (FormatDynamicDecimal s v a b c).
Proof.
  unfold FormatDynamicDecimal.
  destruct (two64 <=? Qtrunc (Qabs' v)); [simpl; tauto|].
  destruct ((0 <? Qtrunc (Qabs' v)) && just_below_power_of_ten (Qabs' v)); [simpl; tauto|].
  apply fails_within_bind.
  - destruct ((0 <? Qtrunc (Qabs' v))
              && (c <? (if 0 <? Qtrunc (Qabs' v) then
                          (if 0 <? Qtrunc (Qabs' v) then floor_log10 (Qabs' v) else 0) + 1
                        else 0))
              && (0 <? c)).
    + apply fails_within_bind; [apply trailing_zeroes_loop_fails|]. intros t _. exact I.
    + match goal with |- context [if ?x <? b then _ else _] => destruct (x <? b) end;
        [|exact I].
      apply fails_within_bind; [apply fraction_loop_fails|].
      intros [n0 lz] _.
      destruct ((scientificLimit <=? Z.max n0 a) && (0 <? lz)); exact I.
  - intros [n sc] _.
    destruct (Qtrunc (Qabs' v)); cbn; repeat match goal with |- context [if ?x then _ else _] => destruct x end; exact I.
Qed.

Lemma PreprocessStreamForDecimal_fails (sp : BasicFormatSpecifiers) (s : ios)
    (v : Q) (maxPrecision : Z) :
  fails_within h specifier_errors (PreprocessStreamForDecimal h sp s v maxPrecision).
Proof.
  unfold PreprocessStreamForDecimal. cbv zeta.
  repeat match goal with
         | |- context [if Ascii.eqb (type sp) ?c then _ else _] =>
           destruct (Ascii.eqb (type sp) c)
         end; try exact I.
  apply fails_within_bind; [apply user_locale_fails | intros; exact I].
Qed.

Lemma FormatType_long_double_fails (v : Q) (spec : string) :
  fails_within h specifier_errors (FormatType_long_double h v spec).
Proof.
  unfold FormatType_long_double.
  apply fails_within_bind; [apply ConvertToBasicFormatSpecifiers_fails|].
  intros sp _.
  apply fails_within_bind; [apply PreprocessStreamForDecimal_fails|].
  intros [[[[[b v'] ud] mn] mx] sc] _.
  apply fails_within_bind; [|intros w _; exact I].
  destruct (ud && (precision sp =? PRECISION_NOT_SET));
    [apply FormatDynamicDecimal_fails | exact I].
Qed.

Lemma strtold_fails (s : string) : fails_within h specifier_errors (strtold s).
Proof.
  unfold strtold.
  destruct (read_sign (skip_space s)) as [neg s1].
  destruct (prefix_nocase "inf" s1 || prefix_nocase "nan" s1); [simpl; tauto|].
  match goal with |- context [if ?c then Stuck "strtold: hexadecimal literal" else _] =>
    destruct c end; [simpl; tauto|].
  destruct (read_digits s1 0 0) as [[ip ic] s2].
  assert (Hrest : forall (mant fc : Z) (s3 : string),
             fails_within h specifier_errors
               (if ic + fc =? 0 then Ok (Qmake 0 1)
                else
                  let '(enegative, s4) :=
                    if Ascii.eqb (lower (peek s3)) "e" then read_sign (advance s3)
                    else (false, s3) in
                  let '(e, ecount, _) :=
                    if Ascii.eqb (lower (peek s3)) "e" then read_digits s4 0 0
                    else (0, 0, s3) in
                  let exponent := if ecount =? 0 then 0 else if enegative then - e else e in
                  if 4900 <? Z.abs (exponent - fc) then Stuck "strtold: exponent out of range"
                  else if neg && (mant =? 0) then Stuck "strtold: negative zero"
                  else
                    let a := round_ld (Qmult (inject_Z mant) (pow10 (exponent - fc))) in
                    Ok (if neg then Qopp a else a))).
  { intros mant fc s3. destruct (ic + fc =? 0); [exact I|].
    destruct (Ascii.eqb (lower (peek s3)) "e").
    - destruct (read_sign (advance s3)) as [en s4].
      destruct (read_digits s4 0 0) as [[e ec] s5].
      cbv beta iota zeta.
      destruct (4900 <? Z.abs ((if ec =? 0 then 0 else if en then - e else e) - fc));
        [simpl; tauto|].
      destruct (neg && (mant =? 0)); [simpl; tauto | exact I].
    - cbv beta iota zeta.
      destruct (4900 <? Z.abs ((if 0 =? 0 then 0 else if false then - 0 else 0) - fc));
        [simpl; tauto|].
      destruct (neg && (mant =? 0)); [simpl; tauto | exact I]. }
  destruct (Ascii.eqb (peek s2) ".").
  - destruct (read_digits (advance s2) ip 0) as [[mant fc] s3]. apply Hrest.
  - apply Hrest.
Qed.

Lemma wrote_fails (f : FormatFragment) (m : outcome string) :
  fails_within h specifier_errors m -> fails_within h specifier_errors (wrote f m).
Proof. intros H. unfold wrote. apply fails_within_bind; [exact H | intros; exact I]. Qed.

Lemma ConvertAndFormatType_long_double_fails (v : Q) (f : FormatFragment) :
  fails_within h specifier_errors (ConvertAndFormatType_long_double h v f).
Proof.
  unfold ConvertAndFormatType_long_double.
  destruct (Ascii.eqb (explicitConversion f) "s" || Ascii.eqb (explicitConversion f) "r").
  - apply wrote_fails, FormatType_cstr_fails.
  - destruct (Ascii.eqb (explicitConversion f) "i").
    + destruct ((two63 <=? Qtrunc v) || (Qtrunc v <? - two63)); [simpl; tauto|].
      apply wrote_fails, FormatType_int64_fails.
    + apply wrote_fails, FormatType_long_double_fails.
Qed.

Lemma ConvertAndFormatType_int64_loop_fails (queue : list string) :
  forall (v : Z) (f : FormatFragment),
    fails_within h specifier_errors (ConvertAndFormatType_int64_loop h queue v f).
Proof.
  assert (Hswitch : forall v f,
             fails_within h specifier_errors
               (if Ascii.eqb (explicitConversion f) "s" || Ascii.eqb (explicitConversion f) "r"
                then wrote f (FormatType_string (to_string_int64 v) (c_str (formatSpecifier f)))
                else if Ascii.eqb (explicitConversion f) "d"
                then wrote f (FormatType_long_double h (inject_Z v) (c_str (formatSpecifier f)))
                else wrote f (FormatType_int64 h v (c_str (formatSpecifier f))))).
  { intros v f.
    destruct (Ascii.eqb (explicitConversion f) "s" || Ascii.eqb (explicitConversion f) "r");
      [apply wrote_fails, FormatType_cstr_fails|].
    destruct (Ascii.eqb (explicitConversion f) "d");
      [apply wrote_fails, FormatType_long_double_fails
      |apply wrote_fails, FormatType_int64_fails]. }
  induction queue as [|selector queue IH]; intros v f; cbn [ConvertAndFormatType_int64_loop].
  - apply Hswitch.
  - destruct (String.eqb selector "abs").
    { destruct (v =? - two63); [simpl; tauto | apply IH]. }
    destruct (String.eqb selector "sign").
    { destruct (int64_is_long_long h); [apply IH | exact I]. }
    destruct (String.eqb selector "inc").
    { destruct (v =? two63 - 1); [simpl; tauto | apply IH]. }
    destruct (String.eqb selector "dec").
    { destruct (v =? - two63); [simpl; tauto | apply IH]. }
    destruct (String.eqb selector "sqrt").
    { destruct (v <? 0); [simpl; tauto | apply ConvertAndFormatType_long_double_fails]. }
    apply Hswitch.
Qed.

Lemma ConvertAndFormatType_bool_fails (b : bool) (f : FormatFragment) :
  fails_within h specifier_errors (ConvertAndFormatType_bool h b f).
Proof.
  unfold ConvertAndFormatType_bool.
  match goal with |- context [Ascii.eqb ?c "s"] => generalize c end. intros c.
  destruct (Ascii.eqb c "s" || Ascii.eqb c "r"); [apply wrote_fails, FormatType_cstr_fails|].
  destruct (Ascii.eqb c "i"); [apply wrote_fails, FormatType_int64_fails|].
  destruct (Ascii.eqb c "d"); [apply wrote_fails, FormatType_long_double_fails|].
  apply wrote_fails, FormatType_int64_fails.
Qed.

Lemma ConvertAndFormatType_cstr_fails (v : string) (f : FormatFragment) :
  fails_within h specifier_errors (ConvertAndFormatType_cstr h v f).
Proof.
  unfold ConvertAndFormatType_cstr.
  destruct (Ascii.eqb (explicitConversion f) "i"); [apply wrote_fails, FormatType_int64_fails|].
  destruct (Ascii.eqb (explicitConversion f) "d"); [|apply wrote_fails, FormatType_cstr_fails].
  apply wrote_fails, fails_within_bind; [apply strtold_fails|].
  intros q _. apply FormatType_long_double_fails.
Qed.

(** Induction on an argument, through the elements of its containers. *)
Lemma value_induction (P : value -> Prop) :
  (forall v, P (VInt v)) -> (forall v, P (VDecimal v)) -> (forall b, P (VBool b)) ->
  (forall s, P (VString s)) ->
  (forall elements, Forall P elements -> P (VSequence elements)) ->
  (forall entries, Forall (fun entry => P (snd entry)) entries -> P (VMap entries)) ->
  (forall first second, P first -> P second -> P (VPair first second)) ->
  forall v, P v.
Proof.
  intros HInt HDecimal HBool HString HSequence HMap HPair.
  fix IH 1. intros [z|q|b|s|elements|entries|first second].
  - apply HInt.
  - apply HDecimal.
  - apply HBool.
  - apply HString.
  - apply HSequence. induction elements as [|e elements IHl]; constructor; [apply IH | exact IHl].
  - apply HMap. induction entries as [|[k e] entries IHl]; constructor; [apply IH | exact IHl].
  - apply HPair; apply IH.
Qed.

Lemma FormatType_fails (v : value) :
  forall spec : string, fails_within h specifier_errors (FormatType h v spec).
Proof.
  induction v as [z|q|b|s|elements IH|entries IH|first second IH1 IH2] using value_induction;
    intros spec; cbn [FormatType].
  - apply FormatType_int64_fails.
  - apply FormatType_long_double_fails.
  - apply FormatType_int64_fails.
  - apply FormatType_cstr_fails.
  - apply fails_within_bind; [|intros; exact I].
    generalize true. induction IH as [|e elements He _ IHl]; intros first; [exact I|].
    apply fails_within_bind; [apply He|]. intros out _.
    apply fails_within_bind; [apply IHl|]. intros more _. exact I.
  - apply fails_within_bind; [|intros; exact I].
    generalize true. induction IH as [|[k e] entries He _ IHl]; intros first; [exact I|].
    apply fails_within_bind; [apply FormatType_cstr_fails|]. intros ko _.
    apply fails_within_bind; [apply He|]. intros out _.
    apply fails_within_bind; [apply IHl|]. intros more _. exact I.
  - apply fails_within_bind; [apply IH1|]. intros a _.
    apply fails_within_bind; [apply IH2|]. intros b _. exact I.
Qed.

Lemma ConvertAndFormatType_fails (v : value) :
  forall f : FormatFragment, fails_within h specifier_errors (ConvertAndFormatType h v f).
Proof.
  induction v as [z|q|b|s|elements IH|entries IH|first second IH1 IH2] using value_induction;
    intros f; cbn [ConvertAndFormatType]; try exact I.
  - apply ConvertAndFormatType_int64_loop_fails.
  - apply ConvertAndFormatType_long_double_fails.
  - apply ConvertAndFormatType_bool_fails.
  - apply ConvertAndFormatType_cstr_fails.
  - destruct (selectors f) as [|selector queue];
      [apply wrote_fails, (FormatType_fails (VMap entries))|].
    generalize entries at 1 as whole.
    induction IH as [|[k e] entries He _ IHl]; intros whole.
    + apply wrote_fails, (FormatType_fails (VMap whole)).
    + destruct (String.eqb k selector); [|apply IHl].
      apply fails_within_bind; [apply He|]. intros [[b f'] out] _. exact I.
Qed.

Lemma specifier_errors_incl : incl specifier_errors parser_errors.
Proof. unfold parser_errors. apply incl_appl, incl_refl. Qed.

Ltac in_list := simpl; tauto.

Lemma GetPlainTextFragment_loop_fails (n : nat) :
  forall (rest : string) (expect : ascii) (pos : Z),
    (String.length rest <= n)%nat ->
    fails_within h parser_errors (GetPlainTextFragment_loop expect pos rest).
Proof.
  induction n as [|n IH]; intros rest expect pos Hlen.
  - destruct rest; [exact I | simpl in Hlen; lia].
  - destruct rest as [|c rest]; [exact I|].
    cbn [GetPlainTextFragment_loop].
    assert (Hcopy : forall e p (r : string),
               (String.length r <= n)%nat ->
               fails_within h parser_errors
                 ('(o, q, r1) <- GetPlainTextFragment_loop e p r ;; Ok (String c o, q, r1))).
    { intros e p r Hr. apply fails_within_bind; [now apply IH|].
      intros [[o q] r1] _. exact I. }
    destruct (negb (Ascii.eqb expect NUL) && negb (Ascii.eqb expect c)); [in_list|].
    destruct (Ascii.eqb c FORMAT_START).
    { destruct rest as [|c1 rest1]; [exact I|].
      destruct (Ascii.eqb c1 FORMAT_START); [|exact I].
      apply Hcopy. simpl in Hlen. lia. }
    destruct (Ascii.eqb c FORMAT_END).
    { destruct (Ascii.eqb expect FORMAT_END); [apply Hcopy; simpl in Hlen; lia|].
      destruct (Ascii.eqb expect NUL); apply IH; simpl in Hlen; lia. }
    apply Hcopy. simpl in Hlen. lia.
Qed.

Lemma ReadFormatSpecifier_fails (n : nat) :
  forall (rest : string) (pos : Z),
    (String.length rest <= n)%nat ->
    fails_within h parser_errors (ReadFormatSpecifier pos rest).
Proof.
  induction n as [|n IH]; intros rest pos Hlen.
  - destruct rest; [exact I | simpl in Hlen; lia].
  - destruct rest as [|c rest]; [exact I|].
    cbn [ReadFormatSpecifier].
    assert (Hcopy : forall p (r : string),
               (String.length r <= n)%nat ->
               fails_within h parser_errors
                 ('(o, q, r1) <- ReadFormatSpecifier p r ;; Ok (String c o, q, r1))).
    { intros p r Hr. apply fails_within_bind; [now apply IH|].
      intros [[o q] r1] _. exact I. }
    destruct (Ascii.eqb c FORMAT_END).
    { destruct rest as [|c1 rest1]; [exact I|].
      destruct (Ascii.eqb c1 FORMAT_END); [|exact I].
      apply Hcopy. simpl in Hlen. lia. }
    destruct (Ascii.eqb c FORMAT_START).
    { destruct rest as [|c1 rest1]; [in_list|].
      destruct (Ascii.eqb c1 FORMAT_START); [|in_list].
      apply Hcopy. simpl in Hlen. lia. }
    apply Hcopy. simpl in Hlen. lia.
Qed.

Lemma ParseFormatSpecifier_fails (f : FormatFragment) (pos : Z) (rest : string) :
  fails_within h parser_errors (ParseFormatSpecifier f pos rest).
Proof.
  unfold ParseFormatSpecifier.
  destruct (Ascii.eqb (peek rest) FORMAT_SPECIFIER); [|exact I].
  apply fails_within_bind;
    [apply (ReadFormatSpecifier_fails (String.length (advance rest))); lia|].
  intros [[s q] r] _. exact I.
Qed.

Lemma ReadExplicitTypeConversion_fails (f : FormatFragment) (pos : Z) (rest : string) :
  fails_within h parser_errors (ReadExplicitTypeConversion f pos rest).
Proof.
  unfold ReadExplicitTypeConversion.
  destruct (Ascii.eqb (peek rest) FORMAT_EXPLICIT_TYPE); [|exact I].
  destruct (negb (strchr "srid" (peek (advance rest)))); [in_list|].
  destruct (advance rest); [in_list | exact I].
Qed.

Lemma ReadSelector_fails (f : FormatFragment) (pos : Z) (rest : string) :
  fails_within h parser_errors (ReadSelector f pos rest).
Proof.
  unfold ReadSelector.
  destruct (is_selector_start (peek rest)); [|exact I].
  destruct (ReadIdentifier (pos + 1) (advance rest)) as [[name q1] r1].
  destruct (Ascii.eqb (peek rest) FORMAT_SELECTOR_ARRAY_BEGIN
            && negb (Ascii.eqb (peek r1) FORMAT_SELECTOR_ARRAY_END)); [in_list|].
  destruct (Ascii.eqb (peek r1) FORMAT_SELECTOR_ARRAY_END); exact I.
Qed.

Lemma ReadSelectors_fails (f : FormatFragment) (pos : Z) (rest : string) :
  fails_within h parser_errors (ReadSelectors f pos rest).
Proof.
  unfold ReadSelectors.
  assert (H : forall fuel f pos rest,
             (String.length rest <= fuel)%nat ->
             fails_within h parser_errors (ReadSelectors_loop fuel f pos rest)).
  { clear. induction fuel as [|fuel IH]; intros f pos rest Hlen.
    - destruct rest; [exact I | simpl in Hlen; lia].
    - cbn [ReadSelectors_loop].
      destruct (is_selector_start (peek rest)) eqn:Hs; [|exact I].
      apply fails_within_bind; [apply ReadSelector_fails|].
      intros [[f1 q1] r1] E. apply ReadSelector_consumed in E as (_ & Hl).
      specialize (Hl Hs). apply IH. lia. }
  apply H. lia.
Qed.

Lemma TranslateEnvironmentFragment_fails (f : FormatFragment) :
  fails_within h parser_errors (TranslateEnvironmentFragment h f).
Proof.
  apply (fails_within_weaken _ _ _ specifier_errors_incl).
  unfold TranslateEnvironmentFragment.
  destruct (index f =? FORMAT_ENVIRONMENT_INDEX); [|exact I].
  apply fails_within_bind; [apply ConvertAndFormatType_cstr_fails|].
  intros [[b f'] out] _.
  apply fails_within_bind; [|intros; exact I].
  destruct b; [exact I|].
  apply fails_within_bind; [apply FormatType_cstr_fails | intros; exact I].
Qed.

(** Called on an opening bracket, as [ParseFormatStr] calls it. *)
Lemma ParseFormatParameter_fails (pos : Z) (rest : string) (next : Z) :
  peek rest = FORMAT_START ->
  fails_within h parser_errors (ParseFormatParameter h pos rest next).
Proof.
  intros Hopen. unfold ParseFormatParameter. rewrite Hopen.
  change (assert (Ascii.eqb FORMAT_START FORMAT_START)) with (Ok tt). cbn [bind].
  destruct (SkipWhitespace (pos + 1) (advance rest)) as [pos1 rest1].
  apply fails_within_bind.
  { destruct (Ascii.eqb (peek rest1) FORMAT_ENVIRONMENT) eqn:E.
    - unfold ReadEnvironmentVariableName. rewrite E. cbn [assert bind].
      destruct (ReadIdentifier (pos1 + 1) (advance rest1)) as [[name q] r]. exact I.
    - apply fails_within_bind;
        [apply (fails_within_weaken _ _ _ specifier_errors_incl), ParseIntegerNumber_fails|].
      intros [[i q] r] _. destruct (INT_MAX <=? i); [simpl; tauto | exact I]. }
  intros [[[[f0 idx] pos2] rest2] nx] _.
  apply fails_within_bind; [apply ReadSelectors_fails|]. intros [[f2 pos3] rest3] _.
  apply fails_within_bind; [apply ReadExplicitTypeConversion_fails|].
  intros [[f3 pos4] rest4] _.
  apply fails_within_bind; [apply ParseFormatSpecifier_fails|]. intros [[f4 pos5] rest5] _.
  apply fails_within_bind; [apply TranslateEnvironmentFragment_fails|]. intros f5 _.
  destruct (SkipWhitespace pos5 rest5) as [pos6 rest6].
  destruct (negb (Ascii.eqb (peek rest6) FORMAT_END)); [in_list|].
  destruct (advance rest6) as [|c7 r7]; [exact I|].
  apply fails_within_bind;
    [apply (GetPlainTextFragment_loop_fails (String.length (String c7 r7))); lia|].
  intros [[buffer pos8] rest8] _. destruct buffer; exact I.
Qed.

Lemma at_field_or_end_open (rest : string) :
  at_field_or_end rest -> rest <> "" -> peek rest = FORMAT_START.
Proof. intros [->|[H _]]; [congruence | auto]. Qed.

Lemma ParseFormatStr_loop_fails (fuel : nat) :
  forall (acc : list FormatFragment) (pos : Z) (rest : string) (next : Z),
    (String.length rest <= fuel)%nat ->
    at_field_or_end rest ->
    fails_within h parser_errors (ParseFormatStr_loop h fuel acc pos rest next).
Proof.
  induction fuel as [|fuel IH]; intros acc pos rest next Hlen Hat.
  - destruct rest; [exact I | simpl in Hlen; lia].
  - destruct rest as [|c rest]; [exact I|].
    cbn [ParseFormatStr_loop].
    apply fails_within_bind.
    + apply ParseFormatParameter_fails. now apply at_field_or_end_open.
    + intros [[[parsed q] r] nx] E.
      apply ParseFormatParameter_progress in E as (_ & _ & Hl & Hat' & _).
      apply IH; [simpl in *; lia | exact Hat'].
Qed.

Lemma ParseFormatStr_fails (formatStr : string) :
  fails_within h parser_errors (ParseFormatStr h formatStr).
Proof.
  unfold ParseFormatStr, GetPlainTextFragment.
  apply fails_within_bind;
    [apply (GetPlainTextFragment_loop_fails (String.length formatStr)); lia|].
  intros [[ostr pos] rest] E.
  apply (GetPlainTextFragment_loop_stops (String.length formatStr)) in E as (_ & Hat & _);
    [|lia].
  apply fails_within_bind; [now apply ParseFormatStr_loop_fails|].
  intros fragments _. exact I.
Qed.

Lemma FormatParameter_fails (i : Z) (arg : value) (fragments : list FormatFragment) :
  fails_within h parser_errors (FormatParameter h i fragments arg).
Proof.
  apply (fails_within_weaken _ _ _ specifier_errors_incl).
  induction fragments as [|f fragments IH]; [exact I|].
  cbn [FormatParameter].
  apply fails_within_bind.
  - destruct (index f =? i); [|exact I].
    apply fails_within_bind; [apply ConvertAndFormatType_fails|].
    intros [[b f'] out] _.
    apply fails_within_bind; [|intros; exact I].
    destruct b; [exact I|].
    apply fails_within_bind; [apply FormatType_fails | intros; exact I].
  - intros f1 _. apply fails_within_bind; [exact IH | intros; exact I].
Qed.

Lemma FormatParameters_fails (args : list value) :
  forall (i : Z) (fragments : list FormatFragment),
    fails_within h parser_errors (FormatParameters h i fragments args).
Proof.
  induction args as [|arg args IH]; intros i fragments; [exact I|].
  cbn [FormatParameters].
  apply fails_within_bind; [apply FormatParameter_fails|]. intros fragments' _. apply IH.
Qed.

(** What [OutputFragments] raises, and in which build. *)
Lemma OutputFragments_raises (d : bool) (fragments : list FormatFragment) :
  match OutputFragments d fragments with
  | Ok out => True
  | Throw e =>
    d = strict
    /\ exists f, In f fragments /\ handled f = false /\ e = out_of_range (unbound_message f)
  | Stuck _ => False
  end.
Proof.
  induction fragments as [|f fragments IH]; [exact I|].
  cbn [OutputFragments].
  destruct d; cbn [negb andb].
  - destruct (OutputFragments true fragments); cbn [bind]; auto.
    destruct IH as [IH _]. discriminate.
  - destruct (handled f) eqn:Hh; cbn [negb].
    + destruct (OutputFragments false fragments); cbn [bind]; auto.
      destruct IH as (_ & g & Hg & Hgh & ->). split; [reflexivity|].
      exists g. simpl. auto.
    + split; [reflexivity|]. exists f. simpl. auto.
Qed.

(** Every way a render call ends. *)
Lemma Format_ends (d : bool) (t : string) (args : list value) :
  match Format h d t args with
  | Ok _ => True
  | Throw (IllegalFormatStringException _ message) => In message parser_errors
  | Throw (out_of_range message) =>
    d = strict /\ exists f : FormatFragment, message = unbound_message f
  | Throw (runtime_error message) =>
    message = LOCALE_NAME_NOT_VALID /\ user_numpunct h = None
  | Stuck w => In w model_exits
  end.
Proof.
  unfold Format.
  pose proof (ParseFormatStr_fails (c_str t)) as Hp.
  destruct (ParseFormatStr h (c_str t)) as [[ostr fragments]|[p m|m|m]|w];
    cbn [bind]; try exact Hp; [|destruct Hp].
  assert (Hb : fails_within h parser_errors
                 match fragments with
                 | [] => Ok fragments
                 | _ :: _ => FormatParameters h 0 fragments args
                 end)
    by (destruct fragments; [exact I | apply FormatParameters_fails]).
  destruct (match fragments with
            | [] => Ok fragments
            | _ :: _ => FormatParameters h 0 fragments args
            end) as [fragments'|[p m|m|m]|w]; cbn [bind]; try exact Hb; [|destruct Hb].
  pose proof (OutputFragments_raises d fragments') as Ho.
  destruct (OutputFragments d fragments') as [out|e|w]; cbn [bind]; [exact I| |destruct Ho].
  destruct Ho as (Hd & g & _ & _ & ->). split; [exact Hd|]. now exists g.
Qed.

End Endings.

(** ** Digits *)

Lemma digits_loop_acc (fuel : nat) (base : Z) (upper : bool) :
  forall (n : Z) (acc : string),
    digits_loop fuel base upper n acc = digits_loop fuel base upper n "" ++ acc.
Proof.
  induction fuel as [|fuel IH]; intros n acc; [reflexivity|].
  cbn [digits_loop]. destruct (n / base =? 0); [reflexivity|].
  rewrite IH. rewrite (IH _ (String _ "")). now rewrite append_assoc.
Qed.

Lemma log2_div_lt (base n : Z) :
  2 <= base -> n / base <> 0 -> 0 <= n -> Z.log2 (n / base) < Z.log2 n.
Proof.
  intros Hb Hq Hn.
  assert (Hpos : 0 < n / base).
  { pose proof (Z.div_pos n base Hn ltac:(lia)). lia. }
  assert (H2 : 2 * (n / base) <= n).
  { pose proof (Z.mul_div_le n base ltac:(lia)). nia. }
  pose proof (Z.log2_double (n / base) Hpos) as Hd.
  pose proof (Z.log2_le_mono _ _ H2). lia.
Qed.

(** Enough fuel: more changes nothing. *)
Lemma digits_loop_fuel (base : Z) (upper : bool) (fuel : nat) :
  forall (fuel' : nat) (n : Z) (acc : string),
    2 <= base -> 0 <= n ->
    (Z.to_nat (Z.log2 n) < fuel)%nat -> (Z.to_nat (Z.log2 n) < fuel')%nat ->
    digits_loop fuel base upper n acc = digits_loop fuel' base upper n acc.
Proof.
  induction fuel as [|fuel IH]; intros fuel' n acc Hb Hn Hf Hf'; [lia|].
  destruct fuel' as [|fuel']; [lia|].
  cbn [digits_loop]. destruct (Z.eqb_spec (n / base) 0) as [|Hq]; [reflexivity|].
  pose proof (log2_div_lt base n Hb Hq Hn).
  pose proof (Z.log2_nonneg (n / base)).
  apply IH; try lia. apply Z.div_pos; lia.
Qed.

Lemma digits_small (base : Z) (upper : bool) (n : Z) :
  0 <= n < base -> digits base upper n = String (digit_char upper n) "".
Proof.
  intros Hn. unfold digits. cbn [digits_loop].
  rewrite (Z.div_small n base Hn), (Z.mod_small n base Hn). reflexivity.
Qed.

Lemma digits_step (base : Z) (upper : bool) (n : Z) :
  2 <= base -> base <= n ->
  digits base upper n
  = digits base upper (n / base) ++ String (digit_char upper (n mod base)) "".
Proof.
  intros Hb Hn. unfold digits at 1. cbn [digits_loop].
  assert (Hq : n / base <> 0).
  { pose proof (Z.div_le_lower_bound n base 1 ltac:(lia) ltac:(lia)). lia. }
  destruct (Z.eqb_spec (n / base) 0) as [|_]; [contradiction|].
  rewrite digits_loop_acc. f_equal. unfold digits.
  pose proof (log2_div_lt base n Hb Hq ltac:(lia)).
  pose proof (Z.log2_nonneg (n / base)).
  apply digits_loop_fuel; try lia. apply Z.div_pos; lia.
Qed.

Lemma digit_char_decimal (d : Z) :
  0 <= d < 10 ->
  is_digit (digit_char false d) = true
  /\ code (digit_char false d) - code "0" = d
  /\ Ascii.eqb (digit_char false d) "-" = false.
Proof.
  intros Hd.
  assert (H : d = 0 \/ d = 1 \/ d = 2 \/ d = 3 \/ d = 4 \/ d = 5 \/ d = 6 \/ d = 7
              \/ d = 8 \/ d = 9) by lia.
  repeat (destruct H as [->|H]; [repeat split; reflexivity|]).
  subst d. repeat split; reflexivity.
Qed.

(** The scanner reads the decimal digits of [n] back as [n]: from the state
    before the first digit to the state after the last. *)
Lemma ParseIntegerNumber_loop_decimal (allowNegative : bool) (n : Z) :
  0 <= n ->
  n < 2147483648 ->
  forall (r : string) (s : Z) (fc fa : bool) (pos : Z),
    ParseIntegerNumber_loop allowNegative 0 s fc fa pos (decimal n ++ r)
    = ParseIntegerNumber_loop allowNegative n s false true (pos + strlen (decimal n)) r.
Proof.
  intros Hn. pattern n. apply (Wf_Z.Zlt_0_ind); [|exact Hn]. clear n Hn.
  intros n IH Hn Hmax r s fc fa pos.
  destruct (Z_lt_le_dec n 10) as [Hsmall|Hbig].
  - unfold decimal. rewrite digits_small by lia.
    destruct (digit_char_decimal n ltac:(lia)) as (Hd & Hv & Hm).
    cbn [append ParseIntegerNumber_loop]. rewrite Hm, Hd. cbv zeta.
    replace (0 * 10 + (code (digit_char false n) - code "0")) with n by lia.
    destruct (Z.ltb_spec INT_MAX n); [unfold INT_MAX in *; lia|].
    destruct (Z.ltb_spec n 0); [lia|].
    rewrite strlen_String. reflexivity.
  - unfold decimal in *. rewrite digits_step by lia.
    rewrite append_assoc. cbn [append].
    pose proof (Z.div_pos n 10 ltac:(lia) ltac:(lia)).
    pose proof (Z.div_lt n 10 ltac:(lia) ltac:(lia)).
    pose proof (Z.mod_pos_bound n 10 ltac:(lia)).
    pose proof (Z.div_mod n 10 ltac:(lia)).
    rewrite IH by lia.
    destruct (digit_char_decimal (n mod 10) ltac:(lia)) as (Hd & Hv & Hm).
    cbn [ParseIntegerNumber_loop]. rewrite Hm, Hd, Hv. cbv zeta.
    replace (n / 10 * 10 + n mod 10) with n by lia.
    destruct (Z.ltb_spec INT_MAX n); [unfold INT_MAX in *; lia|].
    destruct (Z.ltb_spec n 0); [lia|].
    rewrite strlen_append, strlen_String. unfold strlen at 3. cbn [String.length].
    f_equal. lia.
Qed.

Lemma ParseIntegerNumber_loop_stop (allowNegative : bool) (p s : Z) (fc fa : bool)
    (pos : Z) (r : string) :
  is_digit (peek r) = false -> Ascii.eqb (peek r) "-" = false ->
  ParseIntegerNumber_loop allowNegative p s fc fa pos r = Ok (p, s, fa, pos, r).
Proof.
  destruct r as [|c r]; [reflexivity|]. cbn [peek ParseIntegerNumber_loop].
  now intros -> ->.
Qed.

Lemma ParseIntegerNumber_of_decimal (allowNegative : bool) (n : Z) (r : string)
    (pos d : Z) :
  0 <= n < 2147483648 ->
  is_digit (peek r) = false -> Ascii.eqb (peek r) "-" = false ->
  ParseIntegerNumber pos (decimal n ++ r) allowNegative d
  = Ok (n, pos + strlen (decimal n), r).
Proof.
  intros Hn Hd Hm. unfold ParseIntegerNumber.
  rewrite ParseIntegerNumber_loop_decimal by lia.
  rewrite ParseIntegerNumber_loop_stop by assumption. cbn [bind].
  change (1 <? 0) with false. rewrite andb_false_r. now rewrite Z.mul_1_r.
Qed.

Lemma decimal_is_digits (n : Z) : 0 <= n -> is_digits (decimal n) = true.
Proof.
  intros Hn. pattern n. apply (Wf_Z.Zlt_0_ind); [|exact Hn]. clear n Hn.
  intros n IH Hn.
  destruct (Z_lt_le_dec n 10) as [Hsmall|Hbig].
  - unfold decimal. rewrite digits_small by lia.
    destruct (digit_char_decimal n ltac:(lia)) as (Hd & _). cbn [is_digits]. now rewrite Hd.
  - unfold decimal in *. rewrite digits_step by lia.
    pose proof (Z.div_pos n 10 ltac:(lia) ltac:(lia)).
    pose proof (Z.div_lt n 10 ltac:(lia) ltac:(lia)).
    pose proof (Z.mod_pos_bound n 10 ltac:(lia)).
    specialize (IH (n / 10) ltac:(lia)).
    destruct (digit_char_decimal (n mod 10) ltac:(lia)) as (Hd & _).
    revert IH. generalize (digits 10 false (n / 10)) as s.
    induction s as [|c s IHs]; cbn [is_digits append]; intros Hs.
    + now rewrite Hd.
    + apply andb_prop in Hs as [-> Hs]. now rewrite IHs.
Qed.

Lemma decimal_nonempty (n : Z) : decimal n <> "".
Proof.
  unfold decimal, digits. cbn [digits_loop].
  destruct (n / 10 =? 0); [discriminate|].
  rewrite digits_loop_acc. destruct (digits_loop _ _ _ _ ""); discriminate.
Qed.

Lemma contains_append (c : ascii) (a b : string) :
  contains c (a ++ b) = contains c a || contains c b.
Proof.
  induction a as [|x a IH]; [reflexivity|].
  cbn [append contains]. rewrite IH. now rewrite orb_assoc.
Qed.

Lemma consumed_contains (c : ascii) (pos : Z) (rest : string) (pos' : Z) (body : string) :
  consumed pos rest pos' (String c body) -> contains c rest = true.
Proof.
  intros (s & -> & _). rewrite contains_append. cbn [contains].
  rewrite Ascii.eqb_refl. cbn. apply orb_true_r.
Qed.

Lemma contains_suffix (c : ascii) (pos : Z) (rest : string) (pos' : Z) (rest' : string) :
  consumed pos rest pos' rest' -> contains c rest = false -> contains c rest' = false.
Proof.
  intros (s & -> & _). rewrite contains_append. intros H.
  now apply orb_false_elim in H.
Qed.

(** X1: when the scan of literal text returns, it has consumed a prefix
    of the text and advanced the position by the length of that prefix, and
    it stopped at the end of the text or on an opening bracket that is not
    doubled. The text written is never longer than the text consumed. *)
Theorem GetPlainTextFragment_stops_at_field (pos : Z) (rest out : string) (pos' : Z)
    (rest' : string) :
  GetPlainTextFragment pos rest = Ok (out, pos', rest') ->
  at_field_or_end rest'
  /\ consumed pos rest pos' rest'
  /\ (String.length out + String.length rest' <= String.length rest)%nat.
Proof.
  intros H.
  apply (GetPlainTextFragment_loop_stops (String.length rest)) in H as (Hc & Hf & Hl);
    [auto | lia].
Qed.

Lemma GetPlainTextFragment_stops_at_field_witness :
  at_field_or_end "{0} c"
  /\ consumed 0 "a{{b{0} c" 4 "{0} c"
  /\ (String.length "a{b" + String.length "{0} c" <= String.length "a{{b{0} c")%nat.
Proof.
  exact (GetPlainTextFragment_stops_at_field 0 "a{{b{0} c" "a{b" 4 "{0} c" eq_refl).
Defined.

(** X5: when [ParseFormatParameter] returns, the text it was given
    starts with an opening bracket and holds a closing bracket; it has
    consumed a prefix of the text that is not empty, advancing the position
    by the length of that prefix, and what is left is empty or starts with an
    opening bracket that is not doubled. *)
Theorem ParseFormatParameter_guarantee (h : host) (pos : Z) (rest : string) (next : Z)
    (fragments : list FormatFragment) (pos' : Z) (rest' : string) (next' : Z) :
  ParseFormatParameter h pos rest next = Ok (fragments, pos', rest', next') ->
  at_field_or_end rest'
  /\ consumed pos rest pos' rest'
  /\ (String.length rest' < String.length rest)%nat
  /\ peek rest = FORMAT_START
  /\ contains FORMAT_END rest = true.
Proof.
  intros H.
  apply ParseFormatParameter_progress in H as (Ho & Hc & Hl & Hat & q & body & Hb & _).
  repeat split; auto.
  apply consumed_contains in Hb.
  destruct rest as [|c rest]; [discriminate|]. cbn [advance] in Hb. cbn [contains].
  rewrite Hb. apply orb_true_r.
Qed.

Lemma ParseFormatParameter_guarantee_witness :
  at_field_or_end "{1}"
  /\ consumed 2 "{0:>3} and {1}" 13 "{1}"
  /\ (String.length "{1}" < String.length "{0:>3} and {1}")%nat
  /\ peek "{0:>3} and {1}" = FORMAT_START
  /\ contains FORMAT_END "{0:>3} and {1}" = true.
Proof.
  exact (ParseFormatParameter_guarantee bare_host 2 "{0:>3} and {1}" 0 _ 13 "{1}" 1 eq_refl).
Defined.

(** X7: a run of [Format] that gives neither a text nor an exception
    stopped at one of the fourteen points of [model_exits], and nowhere
    else. These are the points where the behaviour of the compiled code is
    not defined or not modelled: the read past the terminator after a
    conversion mark, every overflow of signed arithmetic (the digits of an
    index, a width or a precision, the successor of an index, and [abs],
    [inc] and [dec] at the ends of [int64_t]), a cast or a remainder that is
    not defined, the floating-point values the model does not hold, and the
    digit loops of [FormatDynamicDecimal]. In particular no [assert] of the
    code fails, and the loops of [ParseFormatStr] and [ReadSelectors] end. *)
Theorem Format_leaves_defined_behaviour (h : host) (d : bool) (t : string)
    (args : list value) (w : string) :
  Format h d t args = Stuck w ->
  In w model_exits
  /\ w <> "assertion failed"
  /\ w <> "ParseFormatStr: out of fuel"
  /\ w <> "ReadSelectors: out of fuel".
Proof.
  intros H. pose proof (Format_ends h d t args) as E. rewrite H in E.
  split; [exact E|].
  repeat split; intros ->; simpl in E;
    repeat (destruct E as [E|E]; [discriminate E|]); exact E.
Qed.

Lemma Format_leaves_defined_behaviour_witness :
  In "ReadExplicitTypeConversion: position moved past the terminator" model_exits
  /\ "ReadExplicitTypeConversion: position moved past the terminator" <> "assertion failed"
  /\ "ReadExplicitTypeConversion: position moved past the terminator"
     <> "ParseFormatStr: out of fuel"
  /\ "ReadExplicitTypeConversion: position moved past the terminator"
     <> "ReadSelectors: out of fuel".
Proof.
  exact (Format_leaves_defined_behaviour bare_host strict "{0!" [] _ eq_refl).
Defined.



(** With no closing bracket in it, the first scan ends at the end of the
    text only when every opening bracket is doubled. *)
Lemma GetPlainTextFragment_loop_no_close (n : nat) :
  forall (rest : string) (pos : Z) (out : string) (pos' : Z),
    (String.length rest <= n)%nat ->
    contains FORMAT_END rest = false ->
    GetPlainTextFragment_loop NUL pos rest = Ok (out, pos', "") ->
    no_unescaped_open rest = true.
Proof.
  induction n as [|n IH]; intros rest pos out pos' Hlen Hc H.
  - destruct rest; [reflexivity | simpl in Hlen; lia].
  - destruct rest as [|c rest]; [reflexivity|].
    cbn [GetPlainTextFragment_loop] in H. cbn [contains] in Hc.
    apply orb_false_elim in Hc as [Hc Hrest].
    change (Ascii.eqb NUL NUL) with true in H. cbn [negb andb] in H.
    cbn [no_unescaped_open].
    destruct (Ascii.eqb c FORMAT_START).
    + destruct rest as [|c1 rest1]; [discriminate|].
      destruct (Ascii.eqb c1 FORMAT_START); [|discriminate].
      bind_inv H. destruct a as [[o q] r].
      injection H as _ _ ->.
      cbn [contains] in Hrest. apply orb_false_elim in Hrest as [_ Hrest].
      cbn [andb]. eapply IH; [|exact Hrest|exact Ha]. simpl in Hlen. lia.
    + unfold FORMAT_END in Hc. change (Ascii.eqb c FORMAT_END) with (Ascii.eqb c "}") in H.
      rewrite Hc in H.
      bind_inv H. destruct a as [[o q] r].
      injection H as _ _ ->.
      eapply IH; [|exact Hrest|exact Ha]. simpl in Hlen. lia.
Qed.

(** A template with an opening bracket that is not doubled and with no
    closing bracket does not parse. *)
Lemma ParseFormatStr_unclosed (h : host) (s : string) (r : string * list FormatFragment) :
  no_unescaped_open s = false ->
  contains FORMAT_END s = false ->
  ParseFormatStr h s <> Ok r.
Proof.
  intros Hopen Hclose H.
  unfold ParseFormatStr in H.
  bind_inv H. destruct a as [[o pos] rest].
  bind_inv H. clear H.
  pose proof Ha as Hscan.
  apply (GetPlainTextFragment_loop_stops (String.length s)) in Hscan as (Hc & Hat & _); [|lia].
  destruct rest as [|c rest].
  - apply (GetPlainTextFragment_loop_no_close (String.length s)) in Ha;
      [congruence | lia | exact Hclose].
  - cbn [String.length ParseFormatStr_loop] in Ha0.
    bind_inv Ha0. destruct a0 as [[[parsed q] r0] nx].
    apply ParseFormatParameter_progress in Ha1 as (_ & _ & _ & _ & q' & body & Hb & _).
    apply consumed_contains in Hb.
    apply (contains_suffix FORMAT_END) in Hc; [|exact Hclose].
    cbn [advance] in Hb. cbn [contains] in Hc.
    apply orb_false_elim in Hc as [_ Hc]. congruence.
Qed.

(** X8: a template with an opening bracket that is not doubled and with
    no closing bracket at all. The parser never returns on it, so no argument
    is looked at and the build plays no part: the call ends as
    [ParseFormatStr] does. That is with an exception, the
    [IllegalFormatStringException] of the parser or, on a host where the
    locale of the user cannot be made, the [std::runtime_error] of
    [std::locale("")], or at one of the [model_exits]. At such a point the
    behaviour of the compiled code is not defined (for instance the read past
    the terminator after a conversion mark that ends the template), and
    nothing is stated about what it does there: it may return a text. *)
Theorem Format_unclosed_field (h : host) (d : bool) (t : string) (args : list value) :
  no_unescaped_open (c_str t) = false ->
  contains FORMAT_END (c_str t) = false ->
  match Format h d t args with
  | Ok _ => False
  | Throw e =>
    ParseFormatStr h (c_str t) = Throw e
    /\ ((exists (pos : Z) (message : string),
           e = IllegalFormatStringException pos message /\ In message parser_errors)
        \/ (user_numpunct h = None /\ e = runtime_error LOCALE_NAME_NOT_VALID))
  | Stuck w => ParseFormatStr h (c_str t) = Stuck w /\ In w model_exits
  end.
Proof.
  intros Hopen Hclose.
  pose proof (ParseFormatStr_unclosed h (c_str t)) as Hno.
  pose proof (ParseFormatStr_fails h (c_str t)) as Hp.
  unfold Format.
  destruct (ParseFormatStr h (c_str t)) as [r|[p m|m|m]|w]; cbn [bind].
  - destruct (Hno r Hopen Hclose eq_refl).
  - split; [reflexivity|]. left. eauto.
  - destruct Hp.
  - split; [reflexivity|]. right. destruct Hp as [-> Hn]. auto.
  - split; [reflexivity | exact Hp].
Qed.

Lemma replicate_snoc (n : nat) (c : ascii) :
  replicate n c ++ String c "" = String c (replicate n c).
Proof. induction n as [|n IH]; [reflexivity|]. cbn [replicate append]. now rewrite IH. Qed.

Lemma replicate_length (n : nat) (c : ascii) : String.length (replicate n c) = n.
Proof. induction n as [|n IH]; [reflexivity|]. cbn. now rewrite IH. Qed.

Lemma replicate_add (n m : nat) (c : ascii) :
  replicate n c ++ replicate m c = replicate (n + m) c.
Proof. induction n as [|n IH]; [reflexivity|]. cbn. now rewrite IH. Qed.

Lemma strlen_padding (n : Z) (c : ascii) : strlen (padding n c) = Z.max 0 n.
Proof. unfold strlen, padding. rewrite replicate_length. lia. Qed.

Lemma pad_shape (s : ios) (sgn body : string) :
  pad s sgn body
  = let p := padding (ios_width s - (strlen sgn + strlen body)) (ios_fill s) in
    match ios_adjust s with
    | adjust_left => sgn ++ body ++ p
    | adjust_right => p ++ sgn ++ body
    | adjust_internal => sgn ++ p ++ body
    end.
Proof.
  unfold pad, padding. cbv zeta.
  destruct (Z.leb_spec (ios_width s) (strlen sgn + strlen body)) as [H|H]; [|reflexivity].
  replace (Z.to_nat (ios_width s - (strlen sgn + strlen body))) with O by lia.
  cbn [replicate append]. destruct (ios_adjust s); now rewrite ?append_nil_r.
Qed.

Lemma put_string_shape (s : ios) (v : string) :
  put_string s v
  = match ios_adjust s with
    | adjust_left => flush_left (ios_width s) (ios_fill s) v
    | _ => flush_right (ios_width s) (ios_fill s) v
    end.
Proof.
  unfold put_string, flush_left, flush_right.
  destruct (ios_adjust s) eqn:E; rewrite pad_shape; cbn; try rewrite E; reflexivity.
Qed.

Lemma padding_text_shape (addPadding : bool) (n : Z) (c : ascii) :
  padding_text addPadding n c = if addPadding then padding n c else "".
Proof.
  unfold padding_text. destruct addPadding; [|reflexivity]. cbn [andb].
  destruct (Z.ltb_spec 0 n) as [H|H].
  - unfold put_char. rewrite put_string_shape. cbn.
    unfold flush_right, padding. rewrite strlen_String. unfold strlen. cbn [String.length].
    replace (Z.to_nat n) with (S (Z.to_nat (n - (1 + 0)))) by lia.
    cbn [replicate]. apply replicate_snoc.
  - unfold padding. now replace (Z.to_nat n) with O by lia.
Qed.

Lemma strlen_flush_left (w : Z) (c : ascii) (v : string) :
  strlen (flush_left w c v) = Z.max w (strlen v).
Proof.
  unfold flush_left. rewrite strlen_append, strlen_padding.
  pose proof (strlen_nonneg v). lia.
Qed.

Lemma strlen_flush_right (w : Z) (c : ascii) (v : string) :
  strlen (flush_right w c v) = Z.max w (strlen v).
Proof.
  unfold flush_right. rewrite strlen_append, strlen_padding.
  pose proof (strlen_nonneg v). lia.
Qed.

Lemma strlen_centered (w : Z) (c : ascii) (v : string) :
  strlen (centered w c v) = Z.max w (strlen v).
Proof.
  unfold centered. rewrite !strlen_append, !strlen_padding.
  pose proof (strlen_nonneg v).
  destruct (Z_lt_le_dec (w - strlen v) 0) as [Hneg|Hpos].
  - pose proof (Z.quot_opp_l (w - strlen v) 2 ltac:(lia)) as Ho.
    pose proof (Z.quot_pos (- (w - strlen v)) 2 ltac:(lia) ltac:(lia)).
    pose proof (Z.quot_le_upper_bound (- (w - strlen v)) 2 (- (w - strlen v))
                  ltac:(lia) ltac:(lia)).
    pose proof (Z.quot_opp_l (w - strlen v) 2 ltac:(lia)).
    assert (Z.quot (w - strlen v) 2 = - Z.quot (- (w - strlen v)) 2) by lia.
    lia.
  - rewrite Z.quot_div_nonneg by lia.
    pose proof (Z.div_pos (w - strlen v) 2 Hpos ltac:(lia)).
    pose proof (Z.div_le_upper_bound (w - strlen v) 2 (w - strlen v) ltac:(lia) ltac:(lia)).
    lia.
Qed.

(** The stream a string is written to: its width, unless the text is
    centred; its fill; its adjustment. *)
Lemma PreprocessStreamForString_shape (sp : BasicFormatSpecifiers) :
  ios_fill (PreprocessStreamForString sp new_stream) = fill_of sp
  /\ ios_width (PreprocessStreamForString sp new_stream)
     = (if Ascii.eqb (align sp) FORMAT_ALIGN_CENTER then 0 else width sp)
  /\ ios_adjust (PreprocessStreamForString sp new_stream)
     = (if Ascii.eqb (align sp) FORMAT_ALIGN_RIGHT then adjust_right
        else if Ascii.eqb (align sp) FORMAT_ALIGN_INTERNAL then adjust_internal
        else if Ascii.eqb (align sp) FORMAT_ALIGN_CENTER then adjust_right
        else adjust_left).
Proof.
  unfold PreprocessStreamForString, preprocess_common, fill_of.
  destruct (Ascii.eqb_spec (align sp) FORMAT_ALIGN_RIGHT) as [E|_].
  { rewrite E. destruct (Ascii.eqb (fill sp) NUL); repeat split. }
  destruct (Ascii.eqb_spec (align sp) FORMAT_ALIGN_INTERNAL) as [E|_].
  { rewrite E. destruct (Ascii.eqb (fill sp) NUL); repeat split. }
  destruct (Ascii.eqb (align sp) FORMAT_ALIGN_CENTER);
    destruct (Ascii.eqb (fill sp) NUL); repeat split.
Qed.

(** The text the stream receives for a string. *)
Lemma string_written (sp : BasicFormatSpecifiers) (v : string) :
  put_string (PreprocessStreamForString sp new_stream) v
  = if Ascii.eqb (align sp) FORMAT_ALIGN_RIGHT
       || Ascii.eqb (align sp) FORMAT_ALIGN_INTERNAL
    then flush_right (width sp) (fill_of sp) v
    else if Ascii.eqb (align sp) FORMAT_ALIGN_CENTER then v
    else flush_left (width sp) (fill_of sp) v.
Proof.
  rewrite put_string_shape.
  destruct (PreprocessStreamForString_shape sp) as (-> & -> & ->).
  destruct (Ascii.eqb_spec (align sp) FORMAT_ALIGN_RIGHT) as [E|_]; [rewrite E; reflexivity|].
  destruct (Ascii.eqb_spec (align sp) FORMAT_ALIGN_INTERNAL) as [E|_]; [rewrite E; reflexivity|].
  cbn [orb].
  destruct (Ascii.eqb (align sp) FORMAT_ALIGN_CENTER); [|reflexivity].
  unfold flush_right, padding.
  pose proof (strlen_nonneg v). now replace (Z.to_nat (0 - strlen v)) with O by lia.
Qed.

Lemma FormatType_cstr_unfold (v spec : string) (sp : BasicFormatSpecifiers) :
  ConvertToBasicFormatSpecifiers spec InitializeFormatSpecifier = Ok sp ->
  FormatType_cstr v spec
  = Ok (PostprocessStreamForString
          (put_string (PreprocessStreamForString sp new_stream) v) sp).
Proof. intros H. unfold FormatType_cstr. now rewrite H. Qed.

Lemma substring_length (p : nat) (s : string) :
  (p <= String.length s)%nat -> String.length (String.substring 0 p s) = p.
Proof.
  revert s. induction p as [|p IH]; intros s H.
  - destruct s; reflexivity.
  - destruct s as [|c s]; [simpl in H; lia|]. cbn. rewrite IH; [reflexivity | simpl in H; lia].
Qed.

Lemma strlen_substr (s : string) (p : Z) :
  0 <= p <= strlen s -> strlen (substr s 0 p) = p.
Proof.
  intros H. unfold strlen, substr in *. cbn [Z.to_nat].
  rewrite substring_length; lia.
Qed.

(** The text [PostprocessStreamForString] writes: the text received, cut
    to the precision when it is longer; centred, or padded again when the
    cut left it narrower than the field. *)
Lemma PostprocessStreamForString_shape (written : string) (sp : BasicFormatSpecifiers) :
  PostprocessStreamForString written sp
  = let cut := (0 <? precision sp) && (precision sp <? strlen written) in
    let text := if cut then substr written 0 (precision sp) else written in
    if Ascii.eqb (align sp) FORMAT_ALIGN_CENTER then centered (width sp) (fill_of sp) text
    else if cut && (precision sp <? width sp) then
      if Ascii.eqb (align sp) FORMAT_ALIGN_LEFT then flush_left (width sp) (fill_of sp) text
      else flush_right (width sp) (fill_of sp) text
    else text.
Proof.
  unfold PostprocessStreamForString. cbv zeta. fold (fill_of sp).
  destruct ((0 <? precision sp) && (precision sp <? strlen written)) eqn:Hcut.
  - apply andb_prop in Hcut as [H0 H1].
    apply Z.ltb_lt in H0. apply Z.ltb_lt in H1.
    assert (Hn : strlen (substr written 0 (precision sp)) = precision sp)
      by (apply strlen_substr; lia).
    cbn [andb].
    destruct (Ascii.eqb_spec (align sp) FORMAT_ALIGN_CENTER) as [Ec|Ec].
    + rewrite Ec. change (Ascii.eqb FORMAT_ALIGN_CENTER FORMAT_ALIGN_LEFT) with false.
      change (Ascii.eqb FORMAT_ALIGN_CENTER FORMAT_ALIGN_CENTER) with true.
      destruct (precision sp <? width sp); cbv iota beta;
        rewrite !padding_text_shape; unfold centered; now rewrite Hn.
    + destruct (precision sp <? width sp); cbv iota beta.
      * destruct (Ascii.eqb (align sp) FORMAT_ALIGN_LEFT); cbv iota beta;
          rewrite !padding_text_shape; unfold flush_left, flush_right, padding;
          rewrite Hn; cbn [Z.to_nat replicate append]; now rewrite ?append_nil_r.
      * rewrite !padding_text_shape. cbn. now rewrite append_nil_r.
  - cbn [andb].
    destruct (Ascii.eqb_spec (align sp) FORMAT_ALIGN_CENTER) as [Ec|Ec].
    + rewrite Ec. change (Ascii.eqb FORMAT_ALIGN_CENTER FORMAT_ALIGN_LEFT) with false.
      change (Ascii.eqb FORMAT_ALIGN_CENTER FORMAT_ALIGN_CENTER) with true.
      cbv iota beta. rewrite !padding_text_shape. reflexivity.
    + cbv iota beta. rewrite !padding_text_shape. cbn. now rewrite append_nil_r.
Qed.

(** X17: a string formatted with no precision is set in the field whole:
    flush right for [>] and [=], centred for [^] with the odd fill character
    on the right, flush left otherwise. The result has as many characters as
    the larger of the width and the length of the string, so a string longer
    than the field is not cut. *)
Theorem FormatType_cstr_aligned (v spec : string) (sp : BasicFormatSpecifiers) :
  ConvertToBasicFormatSpecifiers spec InitializeFormatSpecifier = Ok sp ->
  precision sp <= 0 ->
  FormatType_cstr v spec
  = Ok (if Ascii.eqb (align sp) FORMAT_ALIGN_RIGHT
           || Ascii.eqb (align sp) FORMAT_ALIGN_INTERNAL
        then flush_right (width sp) (fill_of sp) v
        else if Ascii.eqb (align sp) FORMAT_ALIGN_CENTER
        then centered (width sp) (fill_of sp) v
        else flush_left (width sp) (fill_of sp) v)
  /\ forall out : string,
       FormatType_cstr v spec = Ok out -> strlen out = Z.max (width sp) (strlen v).
Proof.
  intros H Hp.
  assert (E : FormatType_cstr v spec
              = Ok (if Ascii.eqb (align sp) FORMAT_ALIGN_RIGHT
                       || Ascii.eqb (align sp) FORMAT_ALIGN_INTERNAL
                    then flush_right (width sp) (fill_of sp) v
                    else if Ascii.eqb (align sp) FORMAT_ALIGN_CENTER
                    then centered (width sp) (fill_of sp) v
                    else flush_left (width sp) (fill_of sp) v)).
  { rewrite (FormatType_cstr_unfold v spec sp H), string_written.
    rewrite PostprocessStreamForString_shape. cbv zeta.
    destruct (Z.ltb_spec 0 (precision sp)) as [|_]; [lia|]. cbn [andb].
    destruct (Ascii.eqb_spec (align sp) FORMAT_ALIGN_RIGHT) as [E|_];
      [rewrite E; reflexivity|].
    destruct (Ascii.eqb_spec (align sp) FORMAT_ALIGN_INTERNAL) as [E|_];
      [rewrite E; reflexivity|].
    cbn [orb]. destruct (Ascii.eqb (align sp) FORMAT_ALIGN_CENTER); reflexivity. }
  split; [exact E|].
  intros out Hout. rewrite E in Hout. injection Hout as <-.
  destruct (Ascii.eqb (align sp) FORMAT_ALIGN_RIGHT || Ascii.eqb (align sp) FORMAT_ALIGN_INTERNAL);
    [apply strlen_flush_right|].
  destruct (Ascii.eqb (align sp) FORMAT_ALIGN_CENTER);
    [apply strlen_centered | apply strlen_flush_left].
Qed.

Lemma substring_append_l (p : nat) (s t : string) :
  (p <= String.length s)%nat ->
  String.substring 0 p (s ++ t) = String.substring 0 p s.
Proof.
  revert s. induction p as [|p IH]; intros s H.
  - destruct s; destruct t; reflexivity.
  - destruct s as [|c s]; [simpl in H; lia|]. cbn. rewrite IH; [reflexivity | simpl in H; lia].
Qed.

Lemma substring_replicate (p n : nat) (c : ascii) :
  (p <= n)%nat -> String.substring 0 p (replicate n c) = replicate p c.
Proof.
  revert n. induction p as [|p IH]; intros n H.
  - destruct n; reflexivity.
  - destruct n as [|n]; [lia|]. cbn. rewrite IH; [reflexivity | lia].
Qed.

Lemma substr_append_l (s t : string) (p : Z) :
  p <= strlen s -> substr (s ++ t) 0 p = substr s 0 p.
Proof. intros H. unfold substr, strlen in *. apply substring_append_l. lia. Qed.

Lemma substr_padding (k p : Z) (c : ascii) (v : string) :
  0 <= p <= k -> substr (padding k c ++ v) 0 p = padding p c.
Proof.
  intros H. rewrite substr_append_l by (rewrite strlen_padding; lia).
  unfold substr, padding. apply substring_replicate. lia.
Qed.

Lemma padding_add (a b : Z) (c : ascii) :
  0 <= a -> 0 <= b -> padding a c ++ padding b c = padding (a + b) c.
Proof.
  intros Ha Hb. unfold padding. rewrite replicate_add. f_equal. lia.
Qed.

(** X19: a right-aligned string ([>] or [=]) with a precision: when the
    length of the string plus the precision is at most the width, the result
    is made of fill characters only. The string is lost, because the cut is
    taken from the text that is already padded on the left. *)
Theorem FormatType_cstr_right_aligned_cut (v spec : string) (sp : BasicFormatSpecifiers) :
  ConvertToBasicFormatSpecifiers spec InitializeFormatSpecifier = Ok sp ->
  align sp = FORMAT_ALIGN_RIGHT \/ align sp = FORMAT_ALIGN_INTERNAL ->
  0 < precision sp ->
  strlen v + precision sp <= width sp ->
  FormatType_cstr v spec = Ok (padding (width sp) (fill_of sp)).
Proof.
  intros H Ha Hp Hw.
  rewrite (FormatType_cstr_unfold v spec sp H), string_written.
  rewrite PostprocessStreamForString_shape. cbv zeta.
  assert (Hside : Ascii.eqb (align sp) FORMAT_ALIGN_RIGHT
                  || Ascii.eqb (align sp) FORMAT_ALIGN_INTERNAL = true)
    by (destruct Ha as [->| ->]; reflexivity).
  assert (Hc : Ascii.eqb (align sp) FORMAT_ALIGN_CENTER = false)
    by (destruct Ha as [->| ->]; reflexivity).
  assert (Hl : Ascii.eqb (align sp) FORMAT_ALIGN_LEFT = false)
    by (destruct Ha as [->| ->]; reflexivity).
  rewrite Hside, Hc, Hl. rewrite strlen_flush_right.
  pose proof (strlen_nonneg v) as Hv.
  destruct (Z.ltb_spec 0 (precision sp)) as [_|]; [|lia]. cbn [andb].
  destruct (Z.ltb_spec (precision sp) (Z.max (width sp) (strlen v))) as [Hcut|Hcut].
  - destruct (Z.ltb_spec (precision sp) (width sp)) as [_|]; [|lia].
    unfold flush_right at 2. rewrite substr_padding by lia.
    unfold flush_right. rewrite strlen_padding, padding_add by lia.
    apply f_equal. apply (f_equal (fun n => padding n (fill_of sp))). lia.
  - assert (strlen v = 0) by lia.
    destruct v; [|unfold strlen in *; simpl in *; lia].
    unfold flush_right. rewrite append_nil_r.
    apply f_equal. apply (f_equal (fun n => padding n (fill_of sp))).
    unfold strlen. simpl. lia.
Qed.

Lemma FormatType_cstr_right_aligned_cut_witness :
  (align (mkSpecifiers 10 5 NUL ">" "-" NUL false false) = FORMAT_ALIGN_RIGHT
   \/ align (mkSpecifiers 10 5 NUL ">" "-" NUL false false) = FORMAT_ALIGN_INTERNAL)
  /\ FormatType_cstr "abc" ">10.5" = Ok "          ".
Proof.
  split; [left; reflexivity|].
  apply (FormatType_cstr_right_aligned_cut "abc" ">10.5"
           (mkSpecifiers 10 5 NUL ">" "-" NUL false false) eq_refl).
  - left; reflexivity.
  - reflexivity.
  - unfold strlen; simpl; lia.
Defined.

(** X18: a string longer than a positive precision is cut to its first
    [precision] characters and the cut text is set in the field: flush left
    for [<], but flush right when no alignment is given, the side opposite
    to the one a string that is not cut is set on. *)
Theorem FormatType_cstr_cut (v spec : string) (sp : BasicFormatSpecifiers) :
  ConvertToBasicFormatSpecifiers spec InitializeFormatSpecifier = Ok sp ->
  align sp = FORMAT_ALIGN_LEFT \/ align sp = NUL ->
  0 < precision sp < strlen v ->
  FormatType_cstr v spec
  = Ok (if Ascii.eqb (align sp) FORMAT_ALIGN_LEFT
        then flush_left (width sp) (fill_of sp) (substr v 0 (precision sp))
        else flush_right (width sp) (fill_of sp) (substr v 0 (precision sp))).
Proof.
  intros H Ha Hp.
  assert (Hside : Ascii.eqb (align sp) FORMAT_ALIGN_RIGHT = false
                  /\ Ascii.eqb (align sp) FORMAT_ALIGN_INTERNAL = false
                  /\ Ascii.eqb (align sp) FORMAT_ALIGN_CENTER = false)
    by (destruct Ha as [->| ->]; repeat split; reflexivity).
  destruct Hside as (Hr & Hi & Hc).
  rewrite (FormatType_cstr_unfold v spec sp H), string_written.
  rewrite PostprocessStreamForString_shape. cbv zeta.
  rewrite Hr, Hi, Hc. cbn [orb]. rewrite strlen_flush_left.
  destruct (Z.ltb_spec 0 (precision sp)) as [_|]; [|lia].
  destruct (Z.ltb_spec (precision sp) (Z.max (width sp) (strlen v))) as [_|]; [|lia].
  cbn [andb].
  assert (Hsub : substr (flush_left (width sp) (fill_of sp) v) 0 (precision sp)
                 = substr v 0 (precision sp))
    by (unfold flush_left; apply substr_append_l; lia).
  rewrite !Hsub.
  assert (Hn : strlen (substr v 0 (precision sp)) = precision sp)
    by (apply strlen_substr; lia).
  destruct (Z.ltb_spec (precision sp) (width sp)) as [Hw|Hw]; [reflexivity|].
  unfold flush_left, flush_right, padding. rewrite Hn.
  replace (Z.to_nat (width sp - precision sp)) with O by lia.
  cbn [replicate append]. destruct (Ascii.eqb (align sp) FORMAT_ALIGN_LEFT);
    now rewrite ?append_nil_r.
Qed.

Lemma FormatType_cstr_cut_witness :
  FormatType_cstr "abcdef" "6.2" = Ok "    ab".
Proof.
  apply (FormatType_cstr_cut "abcdef" "6.2" (mkSpecifiers 6 2 NUL NUL "-" NUL false false)
           eq_refl).
  - right; reflexivity.
  - unfold strlen; simpl; lia.
Defined.

Lemma strlen_pad (s : ios) (sgn body : string) :
  strlen (pad s sgn body) = Z.max (ios_width s) (strlen sgn + strlen body).
Proof.
  rewrite pad_shape. cbv zeta.
  pose proof (strlen_nonneg sgn). pose proof (strlen_nonneg body).
  destruct (ios_adjust s); rewrite !strlen_append, strlen_padding; lia.
Qed.

Lemma strlen_put_string (s : ios) (v : string) :
  strlen (put_string s v) = Z.max (ios_width s) (strlen v).
Proof.
  rewrite put_string_shape.
  destruct (ios_adjust s); [apply strlen_flush_left | apply strlen_flush_right ..].
Qed.

Lemma put_int_width (s : ios) (v : Z) : ios_width s <= strlen (put_int s v).
Proof.
  unfold put_int. destruct (ios_base s); rewrite strlen_pad; lia.
Qed.

Lemma preprocess_width (sp : BasicFormatSpecifiers) (s : ios) :
  ios_width (preprocess_align sp (preprocess_sign sp s))
  = if laid_out_after sp then 0 else ios_width s.
Proof.
  unfold preprocess_align, preprocess_sign, laid_out_after.
  destruct (Ascii.eqb_spec (sign sp) FORMAT_SIGN_NEGATIVES_TOGGLE) as [Es|_];
    [rewrite Es
    |destruct (Ascii.eqb_spec (sign sp) FORMAT_SIGN_ALWAYS_TOGGLE) as [Es|_];
     [rewrite Es|destruct (Ascii.eqb (sign sp) FORMAT_SIGN_POSITIVE_SPACE_TOGGLE)]];
    (destruct (Ascii.eqb_spec (align sp) FORMAT_ALIGN_LEFT) as [Ea|_];
     [rewrite Ea; reflexivity|]);
    (destruct (Ascii.eqb_spec (align sp) FORMAT_ALIGN_INTERNAL) as [Ea|_];
     [rewrite Ea; reflexivity|]);
    destruct (Ascii.eqb (align sp) FORMAT_ALIGN_CENTER); reflexivity.
Qed.

(** The stream an integer is written to keeps the width of the field,
    unless the number is laid out afterwards. *)
Lemma PreprocessStreamForInteger_written (h : host) (sp : BasicFormatSpecifiers) (v : Z) :
  forall (buffer : ios) (written : string) (useValue : bool),
    PreprocessStreamForInteger h sp new_stream v = Ok (buffer, written, useValue) ->
    (if laid_out_after sp then 0 else width sp)
    <= strlen (if useValue then written ++ put_int buffer v else written).
Proof.
  intros buffer written useValue. unfold PreprocessStreamForInteger.
  set (s2 := if thousandSeparator sp then _ else _).
  assert (Hw : ios_width (preprocess_align sp (preprocess_sign sp s2))
               = if laid_out_after sp then 0 else width sp).
  { rewrite preprocess_width. subst s2. unfold preprocess_common.
    destruct (thousandSeparator sp); destruct (Ascii.eqb (fill sp) NUL); reflexivity. }
  set (s4 := preprocess_align sp (preprocess_sign sp s2)) in *.
  rewrite <- Hw. clearbody s4. clear Hw s2.
  cbv zeta. unfold user_locale. destruct (user_numpunct h) as [punct|]; cbn [bind];
  repeat match goal with
         | |- context [if Ascii.eqb (type sp) ?c then _ else _] =>
           destruct (Ascii.eqb (type sp) c)
         end;
    intros E; try discriminate E; injection E as <- <- <-; cbn [append];
    try (rewrite strlen_put_string; cbn; lia);
    match goal with |- _ <= strlen (put_int ?b v) =>
      eapply Z.le_trans; [|apply put_int_width] end; cbn; lia.
Qed.

(** The stream of an integer is always set up, unless the type is [n] and
    the locale that the environment names is not installed. *)
Lemma PreprocessStreamForInteger_returns (h : host) (sp : BasicFormatSpecifiers)
    (s : ios) (v : Z) :
  match PreprocessStreamForInteger h sp s v with
  | Ok _ => True
  | Throw e =>
    type sp = FORMAT_LOCALIZED_NUMBER_TOGGLE /\ user_numpunct h = None
    /\ e = runtime_error LOCALE_NAME_NOT_VALID
  | Stuck _ => False
  end.
Proof.
  unfold PreprocessStreamForInteger. cbv zeta.
  destruct (Ascii.eqb (type sp) FORMAT_BINARY_TOGGLE); [exact I|].
  destruct (Ascii.eqb (type sp) FORMAT_UNICODE_CHAR_TOGGLE); [exact I|].
  destruct (Ascii.eqb (type sp) FORMAT_OCTAL_TOGGLE); [exact I|].
  destruct (Ascii.eqb (type sp) FORMAT_UPPERCASE_HEX_TOGGLE); [exact I|].
  destruct (Ascii.eqb (type sp) FORMAT_LOWERCASE_HEX_TOGGLE); [exact I|].
  destruct (Ascii.eqb_spec (type sp) FORMAT_LOCALIZED_NUMBER_TOGGLE) as [Et|_]; [|exact I].
  unfold user_locale. destruct (user_numpunct h); cbn [bind]; [exact I | auto].
Qed.

Lemma strchr_boxX (t : ascii) :
  strchr "boxX" t
  = Ascii.eqb t FORMAT_BINARY_TOGGLE || Ascii.eqb t FORMAT_OCTAL_TOGGLE
    || Ascii.eqb t FORMAT_LOWERCASE_HEX_TOGGLE || Ascii.eqb t FORMAT_UPPERCASE_HEX_TOGGLE
    || Ascii.eqb t NUL.
Proof. cbn [strchr]. now rewrite !orb_assoc. Qed.

Lemma strlen_alternate_prefix (sp : BasicFormatSpecifiers) :
  (alternateForm sp = true -> type sp <> NUL) ->
  strlen (alternate_prefix sp)
  = if alternateForm sp && strchr "boxX" (type sp) then 2 else 0.
Proof.
  intros H. unfold alternate_prefix. rewrite strchr_boxX.
  destruct (alternateForm sp); [|reflexivity]. cbn [andb].
  destruct (Ascii.eqb (type sp) FORMAT_BINARY_TOGGLE); [reflexivity|].
  destruct (Ascii.eqb (type sp) FORMAT_OCTAL_TOGGLE); [reflexivity|].
  destruct (Ascii.eqb (type sp) FORMAT_LOWERCASE_HEX_TOGGLE); [reflexivity|].
  destruct (Ascii.eqb (type sp) FORMAT_UPPERCASE_HEX_TOGGLE); [reflexivity|].
  destruct (Ascii.eqb_spec (type sp) NUL) as [E|_]; [|reflexivity].
  now destruct (H eq_refl).
Qed.

Lemma strlen_advance (s : string) : strlen s - 1 <= strlen (advance s).
Proof. destruct s; unfold strlen; cbn [advance String.length]; lia. Qed.

Lemma paddings_total (alignment : ascii) (w c : Z) :
  let '(l, m, r) := paddings alignment true w c in
  w - c <= Z.max 0 l + Z.max 0 m + Z.max 0 r.
Proof.
  unfold paddings.
  destruct (Ascii.eqb alignment FORMAT_ALIGN_LEFT); [cbv beta iota; lia|].
  destruct (Ascii.eqb alignment FORMAT_ALIGN_CENTER);
    [cbv beta iota zeta; generalize (Z.quot (w - c) 2); intros q; lia|].
  destruct (Ascii.eqb alignment FORMAT_ALIGN_INTERNAL); cbv beta iota; lia.
Qed.

(** The text a number is laid out in is as wide as the field, when the
    base prefix that is counted is also written. *)
Lemma postprocess_number_width (written : string) (sp : BasicFormatSpecifiers)
    (nonneg : bool) (suffix : string) :
  (alternateForm sp = true -> type sp <> NUL) ->
  (if laid_out_after sp then 0 else width sp) <= strlen written ->
  width sp <= strlen (postprocess_number written sp nonneg suffix).
Proof.
  intros Halt Hw. unfold postprocess_number. cbv zeta.
  fold (laid_out_after sp).
  pose proof (strlen_alternate_prefix sp Halt) as Hp.
  pose proof (strlen_advance written) as Hadv.
  pose proof (strlen_nonneg suffix) as Hs.
  destruct (laid_out_after sp) eqn:Hl.
  - match goal with |- context [paddings ?a true ?w ?c] =>
      pose proof (paddings_total a w c) as Ht;
      destruct (paddings a true w c) as [[l m] r]
    end.
    rewrite !strlen_append, !padding_text_shape, !strlen_padding.
    revert Ht.
    destruct (alternateForm sp && strchr "boxX" (type sp));
      destruct (Ascii.eqb (sign sp) FORMAT_SIGN_POSITIVE_SPACE_TOGGLE);
      destruct nonneg; cbn [andb negb];
      try destruct (Ascii.eqb (align sp) FORMAT_ALIGN_INTERNAL);
      cbn [andb]; intros Ht; rewrite ?Hp;
      change (strlen " ") with 1; change (strlen "-") with 1; change (strlen "") with 0;
      lia.
  - unfold laid_out_after in Hl. apply orb_false_elim in Hl as [Hsp _].
    rewrite Hsp. cbn [andb orb].
    match goal with |- context [paddings ?a false ?w ?c] =>
      change (paddings a false w c) with (0, 0, 0) end.
    cbv iota beta. rewrite !padding_text_shape.
    rewrite !strlen_append. change (strlen "") with 0.
    pose proof (strlen_nonneg (alternate_prefix sp)). lia.
Qed.

(** X20: an integer is rendered in at least [width] characters, provided
    that a presentation type is given whenever the alternate form [#] is. *)
Theorem FormatType_int64_fills_width (h : host) (v : Z) (spec : string)
    (sp : BasicFormatSpecifiers) (out : string) :
  ConvertToBasicFormatSpecifiers spec InitializeFormatSpecifier = Ok sp ->
  (alternateForm sp = true -> type sp <> NUL) ->
  FormatType_int64 h v spec = Ok out ->
  width sp <= strlen out.
Proof.
  intros H Halt. unfold FormatType_int64. rewrite H. cbn [bind].
  destruct (PreprocessStreamForInteger h sp new_stream v)
    as [[[buffer written] useValue]|e|w] eqn:E; cbn [bind]; intros Hout;
    try discriminate Hout.
  injection Hout as <-.
  apply postprocess_number_width; [exact Halt|].
  now apply (PreprocessStreamForInteger_written h sp v).
Qed.

(** X21: unless the number is centred or has the blank sign, the base
    prefix of the alternate form is written in front of the padded field,
    not inside it: the result is the prefix followed by a text of at least
    [width] characters. The call returns, except for the type [n] on a host
    where the locale that the environment names is not installed, where
    [std::locale("")] throws. *)
Theorem FormatType_int64_prefix_outside (h : host) (v : Z) (spec : string)
    (sp : BasicFormatSpecifiers) :
  ConvertToBasicFormatSpecifiers spec InitializeFormatSpecifier = Ok sp ->
  laid_out_after sp = false ->
  match FormatType_int64 h v spec with
  | Ok out =>
    exists text : string, out = alternate_prefix sp ++ text /\ width sp <= strlen text
  | Throw e =>
    type sp = FORMAT_LOCALIZED_NUMBER_TOGGLE /\ user_numpunct h = None
    /\ e = runtime_error LOCALE_NAME_NOT_VALID
  | Stuck _ => False
  end.
Proof.
  intros H Hl. unfold FormatType_int64. rewrite H. cbn [bind].
  pose proof (PreprocessStreamForInteger_returns h sp new_stream v) as Hr.
  destruct (PreprocessStreamForInteger h sp new_stream v)
    as [[[buffer written] useValue]|e|w] eqn:E; cbn [bind]; [|exact Hr|exact Hr].
  apply (PreprocessStreamForInteger_written h sp v) in E. rewrite Hl in E.
  exists (if useValue then written ++ put_int buffer v else written).
  split; [|exact E]. f_equal.
  unfold PostprocessStreamForInteger, postprocess_number. cbv zeta.
  fold (laid_out_after sp). rewrite Hl.
  unfold laid_out_after in Hl. apply orb_false_elim in Hl as [Hsp _].
  rewrite Hsp. cbn [andb orb].
  match goal with |- context [paddings ?a false ?w ?c] =>
    change (paddings a false w c) with (0, 0, 0) end.
  cbv iota beta. rewrite !padding_text_shape. cbn [append].
  now rewrite !append_nil_r.
Qed.

(** ** What a conversion changes in a fragment: its selector queue only *)

Lemma set_selectors_same (f : FormatFragment) : set_selectors f (selectors f) = f.
Proof. now destruct f. Qed.

Lemma set_selectors_twice (f : FormatFragment) (q q' : list string) :
  set_selectors (set_selectors f q) q' = set_selectors f q'.
Proof. reflexivity. Qed.

Lemma requeued_refl (f : FormatFragment) : requeued f f.
Proof. exists (selectors f). symmetry. apply set_selectors_same. Qed.

Lemma requeued_set (f : FormatFragment) (q : list string) (f' : FormatFragment) :
  requeued (set_selectors f q) f' -> requeued f f'.
Proof. intros [q' ->]. now exists q'. Qed.

Lemma requeued_index (f f' : FormatFragment) :
  requeued f f' ->
  index f' = index f /\ formatSpecifier f' = formatSpecifier f
  /\ explicitConversion f' = explicitConversion f.
Proof. intros [q ->]. repeat split. Qed.

Lemma wrote_requeues (f : FormatFragment) (m : outcome string) : requeues f (wrote f m).
Proof. intros b f' out H. apply wrote_Ok in H as (_ & -> & _). apply requeued_refl. Qed.

Lemma ConvertAndFormatType_long_double_requeues (h : host) (v : Q) (f : FormatFragment) :
  requeues f (ConvertAndFormatType_long_double h v f).
Proof.
  unfold ConvertAndFormatType_long_double.
  destruct (Ascii.eqb (explicitConversion f) "s" || Ascii.eqb (explicitConversion f) "r");
    [apply wrote_requeues|].
  destruct (Ascii.eqb (explicitConversion f) "i"); [|apply wrote_requeues].
  destruct ((two63 <=? Qtrunc v) || (Qtrunc v <? - two63));
    [intros b f' out H; discriminate | apply wrote_requeues].
Qed.

Lemma ConvertAndFormatType_int64_loop_requeues (h : host) (queue : list string) :
  forall (v : Z) (f : FormatFragment),
    requeues f (ConvertAndFormatType_int64_loop h queue v f).
Proof.
  assert (Hswitch : forall v f,
             requeues f
               (if Ascii.eqb (explicitConversion f) "s" || Ascii.eqb (explicitConversion f) "r"
                then wrote f (FormatType_string (to_string_int64 v) (c_str (formatSpecifier f)))
                else if Ascii.eqb (explicitConversion f) "d"
                then wrote f (FormatType_long_double h (inject_Z v) (c_str (formatSpecifier f)))
                else wrote f (FormatType_int64 h v (c_str (formatSpecifier f))))).
  { intros v f.
    destruct (Ascii.eqb (explicitConversion f) "s" || Ascii.eqb (explicitConversion f) "r");
      [apply wrote_requeues|].
    destruct (Ascii.eqb (explicitConversion f) "d"); apply wrote_requeues. }
  assert (Hset : forall f q m, requeues (set_selectors f q) m -> requeues f m).
  { intros f q m Hm b f' out E. eapply requeued_set, Hm, E. }
  induction queue as [|selector queue IH]; intros v f; cbn [ConvertAndFormatType_int64_loop].
  - apply Hswitch.
  - destruct (String.eqb selector "abs").
    { destruct (v =? - two63); [intros b f' out E; discriminate | eapply Hset, IH]. }
    destruct (String.eqb selector "sign").
    { destruct (int64_is_long_long h); [eapply Hset, IH|].
      intros b f' out E. injection E as _ <- _. now exists queue. }
    destruct (String.eqb selector "inc").
    { destruct (v =? two63 - 1); [intros b f' out E; discriminate | eapply Hset, IH]. }
    destruct (String.eqb selector "dec").
    { destruct (v =? - two63); [intros b f' out E; discriminate | eapply Hset, IH]. }
    destruct (String.eqb selector "sqrt").
    { destruct (v <? 0); [intros b f' out E; discriminate|].
      eapply Hset, ConvertAndFormatType_long_double_requeues. }
    eapply Hset, Hswitch.
Qed.

Lemma ConvertAndFormatType_requeues (h : host) (v : value) :
  forall f : FormatFragment, requeues f (ConvertAndFormatType h v f).
Proof.
  induction v as [z|q|b|s|elements IH|entries IH|first second IH1 IH2] using value_induction;
    intros f; cbn [ConvertAndFormatType].
  - apply ConvertAndFormatType_int64_loop_requeues.
  - apply ConvertAndFormatType_long_double_requeues.
  - unfold ConvertAndFormatType_bool.
    match goal with |- context [Ascii.eqb ?c "s"] => generalize c end. intros c.
    destruct (Ascii.eqb c "s" || Ascii.eqb c "r"); [apply wrote_requeues|].
    destruct (Ascii.eqb c "i"); [apply wrote_requeues|].
    destruct (Ascii.eqb c "d"); apply wrote_requeues.
  - unfold ConvertAndFormatType_string, ConvertAndFormatType_cstr.
    destruct (Ascii.eqb (explicitConversion f) "i"); [apply wrote_requeues|].
    destruct (Ascii.eqb (explicitConversion f) "d"); apply wrote_requeues.
  - intros b f' out E. injection E as _ <- _. apply requeued_refl.
  - destruct (selectors f) as [|selector queue]; [apply wrote_requeues|].
    generalize entries at 1 as whole.
    induction IH as [|[k e] entries He _ IHl]; intros whole.
    + intros b f' out E. apply wrote_Ok in E as (_ & -> & _).
      exists (tl (selectors f)). reflexivity.
    + destruct (String.eqb k selector); [|apply IHl].
      intros b f' out E. bind_inv E. destruct a as [[b1 f1] o1].
      injection E as _ <- _. apply He in Ha.
      eapply requeued_set. exact Ha.
  - intros b f' out E. injection E as _ <- _. apply requeued_refl.
Qed.

(** ** The binder *)

Lemma FormatParameter_indices (h : host) (i : Z) (arg : value) :
  forall fragments fragments' : list FormatFragment,
    FormatParameter h i fragments arg = Ok fragments' ->
    map index fragments' = map index fragments.
Proof.
  induction fragments as [|f fragments IH]; intros fragments' H; cbn [FormatParameter] in H.
  - now injection H as <-.
  - bind_inv H. rename a into f1. bind_inv H. rename a into more. injection H as <-.
    cbn [map]. f_equal; [|now apply IH].
    destruct (index f =? i); [|now injection Ha as <-].
    bind_inv Ha. destruct a as [[b f'] out]. bind_inv Ha. injection Ha as <-.
    apply ConvertAndFormatType_requeues in Ha1 as [q ->]. reflexivity.
Qed.

Lemma FormatParameter_none (h : host) (i : Z) (arg : value) :
  forall fragments : list FormatFragment,
    Forall (fun f => index f <> i) fragments ->
    FormatParameter h i fragments arg = Ok fragments.
Proof.
  induction 1 as [|f fragments Hf _ IH]; [reflexivity|].
  cbn [FormatParameter]. destruct (Z.eqb_spec (index f) i); [contradiction|].
  cbn [bind]. now rewrite IH.
Qed.

Lemma FormatParameters_none (h : host) (args : list value) :
  forall (i : Z) (fragments : list FormatFragment),
    Forall (fun f => index f < i) fragments ->
    FormatParameters h i fragments args = Ok fragments.
Proof.
  induction args as [|arg args IH]; intros i fragments H; [reflexivity|].
  cbn [FormatParameters]. rewrite FormatParameter_none.
  - cbn [bind]. apply IH. eapply Forall_impl; [|exact H]. cbn. intros; lia.
  - eapply Forall_impl; [|exact H]. cbn. intros; lia.
Qed.

Lemma FormatParameters_app (h : host) (args extra : list value) :
  forall (i : Z) (fragments : list FormatFragment),
    FormatParameters h i fragments (args ++ extra)
    = (fragments' <- FormatParameters h i fragments args ;;
       FormatParameters h (i + Z.of_nat (List.length args)) fragments' extra).
Proof.
  induction args as [|arg args IH]; intros i fragments.
  - cbn. now rewrite Z.add_0_r.
  - cbn [app FormatParameters List.length].
    destruct (FormatParameter h i fragments arg) as [fs| |]; cbn [bind]; try reflexivity.
    rewrite IH. apply bind_ext. intros fs'. f_equal. lia.
Qed.

Lemma FormatParameters_indices (h : host) (args : list value) :
  forall (i : Z) (fragments fragments' : list FormatFragment),
    FormatParameters h i fragments args = Ok fragments' ->
    map index fragments' = map index fragments.
Proof.
  induction args as [|arg args IH]; intros i fragments fragments' H;
    cbn [FormatParameters] in H.
  - now injection H as <-.
  - bind_inv H. apply FormatParameter_indices in Ha. apply IH in H. congruence.
Qed.

(** X12: arguments that no field refers to change nothing. When every
    field index of the template is smaller than the number of arguments,
    more arguments at the end give the same result. *)
Theorem Format_surplus_arguments (h : host) (d : bool) (t : string)
    (args extra : list value) (ostr : string) (fragments : list FormatFragment) :
  ParseFormatStr h (c_str t) = Ok (ostr, fragments) ->
  Forall (fun f => index f < Z.of_nat (List.length args)) fragments ->
  Format h d t (args ++ extra) = Format h d t args.
Proof.
  intros Hp Hi. unfold Format. rewrite Hp. cbn [bind].
  destruct fragments as [|f0 fragments0]; [reflexivity|].
  set (fragments := f0 :: fragments0) in *.
  rewrite FormatParameters_app.
  destruct (FormatParameters h 0 fragments args) as [fs| |] eqn:E; cbn [bind]; try reflexivity.
  rewrite FormatParameters_none; [reflexivity|].
  apply FormatParameters_indices in E.
  rewrite Forall_forall in *. intros f Hf.
  assert (Hin : In (index f) (map index fs)) by now apply in_map.
  rewrite E in Hin. apply in_map_iff in Hin as (g & Hg & Hgin).
  specialize (Hi g Hgin). cbn in Hi. lia.
Qed.

Lemma Format_surplus_arguments_witness :
  Forall (fun f => index f < Z.of_nat (List.length [VInt 1]))
         [mkFragment "" "" [] 0 NUL false; mkFragment "!" "" [] (-1) NUL true]
  /\ Format bare_host strict "a{0}!" ([VInt 1] ++ [VDecimal (Qmake (-1) 1); VString "x"])
     = Format bare_host strict "a{0}!" [VInt 1].
Proof.
  assert (H : Forall (fun f => index f < Z.of_nat (List.length [VInt 1]))
                     [mkFragment "" "" [] 0 NUL false; mkFragment "!" "" [] (-1) NUL true])
    by (repeat constructor; simpl; lia).
  split; [exact H|].
  exact (Format_surplus_arguments bare_host strict "a{0}!" [VInt 1]
           [VDecimal (Qmake (-1) 1); VString "x"] "a" _ eq_refl H).
Defined.

(** X13: the strict and the lenient build differ on unbound fields only.
    A text, an [IllegalFormatStringException] or a stop of the strict build is
    the result of the lenient build too, and where the strict build raises
    [out_of_range] the lenient build returns a text. *)
Theorem Format_builds_agree (h : host) (t : string) (args : list value) :
  match Format h strict t args with
  | Ok out => Format h lenient t args = Ok out
  | Throw (out_of_range message) => exists out : string, Format h lenient t args = Ok out
  | Throw e => Format h lenient t args = Throw e
  | Stuck w => Format h lenient t args = Stuck w
  end.
Proof.
  unfold Format.
  destruct (ParseFormatStr h (c_str t)) as [[ostr fragments]|[p m|m|m]|w] eqn:Ep;
    cbn [bind]; try reflexivity.
  - destruct (match fragments with
              | [] => Ok fragments
              | _ :: _ => FormatParameters h 0 fragments args
              end) as [fs|[p m|m|m]|w] eqn:Eb; cbn [bind]; try reflexivity.
    + rewrite OutputFragments_lenient. cbn [bind].
      pose proof (OutputFragments_raises strict fs) as Ho.
      destruct (OutputFragments strict fs) as [out|e|w] eqn:Eo; cbn [bind].
      * f_equal. f_equal. clear - Eo. revert out Eo.
        induction fs as [|f fs IH]; intros out Eo; cbn [OutputFragments] in Eo.
        -- now injection Eo as <-.
        -- destruct (negb strict && negb (handled f)); [discriminate|].
           bind_inv Eo. injection Eo as <-. cbn [texts fold_right]. fold (texts fs).
           f_equal. now apply IH.
      * destruct Ho as (_ & g & _ & _ & ->). eauto.
      * destruct Ho.
    + pose proof (FormatParameters_fails h args 0 fragments) as Hf.
      destruct fragments; [discriminate|]. rewrite Eb in Hf. destruct Hf.
  - pose proof (ParseFormatStr_fails h (c_str t)) as Hf. rewrite Ep in Hf. destruct Hf.
Qed.

(** ** Templates of one field *)

Lemma peek_decimal (n : Z) (r : string) :
  0 <= n -> is_digit (peek (decimal n ++ r)) = true.
Proof.
  intros Hn. pose proof (decimal_is_digits n Hn) as Hd.
  pose proof (decimal_nonempty n) as Hne.
  destruct (decimal n) as [|c s]; [congruence|].
  cbn [is_digits] in Hd. apply andb_prop in Hd as [Hc _]. exact Hc.
Qed.

Lemma c_str_field (n : Z) (r : string) :
  0 <= n -> c_str ("{" ++ decimal n ++ r) = "{" ++ decimal n ++ c_str r.
Proof.
  intros Hn. rewrite (c_str_append_plain "{") by reflexivity.
  now rewrite c_str_digits by now apply decimal_is_digits.
Qed.

Lemma first_scan_field (n : Z) (r : string) (pos : Z) :
  0 <= n ->
  GetPlainTextFragment pos ("{" ++ decimal n ++ r) = Ok ("", pos, "{" ++ decimal n ++ r).
Proof.
  intros Hn. pose proof (peek_decimal n r Hn) as Hd.
  apply digit_is_plain in Hd as (_ & _ & _ & Hs & _).
  unfold GetPlainTextFragment. cbn [append GetPlainTextFragment_loop].
  destruct (decimal n ++ r) as [|c s]; [reflexivity|].
  cbn [peek] in Hs. now rewrite Hs.
Qed.

(** The field [{n}] and the field [{n.name}], parsed from any state. *)
Lemma ParseFormatParameter_plain (h : host) (n pos next : Z) (selector : string)
    (name : string) (queue : list string) :
  0 <= n < 2147483647 ->
  (selector = "" /\ queue = []
   \/ is_identifier name = true /\ selector = "." ++ name /\ queue = [name]) ->
  exists pos' : Z,
    ParseFormatParameter h pos ("{" ++ decimal n ++ selector ++ "}") next
    = Ok ([plain_field n queue], pos', "", n + 1).
Proof.
  intros Hn Hsel.
  assert (Hn' : 0 <= n < 2147483648) by lia.
  assert (Hnext : is_digit (peek (selector ++ "}")) = false
                  /\ Ascii.eqb (peek (selector ++ "}")) "-" = false)
    by (destruct Hsel as [[-> _]|(_ & -> & _)]; split; reflexivity).
  destruct Hnext as [Hnd Hnm].
  pose proof (peek_decimal n (selector ++ "}") (proj1 Hn)) as Hd.
  destruct (digit_is_plain _ Hd) as (Hw & He & _).
  unfold ParseFormatParameter. cbn [append peek advance].
  change (assert (Ascii.eqb "{" FORMAT_START)) with (Ok tt). cbn [bind].
  rewrite (SkipWhitespace_none _ _ Hw), He.
  rewrite (ParseIntegerNumber_of_decimal false n (selector ++ "}") (pos + 1) next Hn' Hnd Hnm).
  cbn [bind].
  destruct (Z.leb_spec INT_MAX n) as [Hmax|_]; [unfold INT_MAX in Hmax; lia|].
  cbn [bind].
  set (p2 := pos + 1 + strlen (decimal n)).
  assert (Hs : exists p3,
             ReadSelectors (InitializeFormatFragment new_fragment n) p2 (selector ++ "}")
             = Ok (set_selectors (InitializeFormatFragment new_fragment n) queue, p3, "}")).
  { destruct Hsel as [[-> ->]|(Hid & -> & ->)].
    - exists p2. reflexivity.
    - unfold ReadSelectors. cbn [append String.length ReadSelectors_loop peek].
      change (is_selector_start ".") with true. cbn iota.
      unfold ReadSelector. cbn [peek advance].
      change (is_selector_start ".") with true. cbn iota.
      destruct (ReadIdentifier_identifier name "}" Hid eq_refl (p2 + 1)) as [q ->].
      cbn [peek andb negb bind].
      change (Ascii.eqb "." FORMAT_SELECTOR_ARRAY_BEGIN) with false.
      change (Ascii.eqb "}" FORMAT_SELECTOR_ARRAY_END) with false. cbn [andb].
      exists q. destruct (String.length (name ++ "}")); reflexivity. }
  destruct Hs as [p3 ->]. cbn [bind].
  assert (Hh : (n <? 0) = false) by (apply Z.ltb_ge; lia).
  unfold ReadExplicitTypeConversion. cbn [peek].
  change (Ascii.eqb "}" FORMAT_EXPLICIT_TYPE) with false. cbn iota. cbn [bind].
  unfold ParseFormatSpecifier. cbn [peek].
  change (Ascii.eqb "}" FORMAT_SPECIFIER) with false. cbn iota. cbn [bind].
  unfold TranslateEnvironmentFragment.
  cbn [InitializeFormatFragment set_selectors index new_fragment text formatSpecifier
       selectors].
  destruct (Z.eqb_spec n FORMAT_ENVIRONMENT_INDEX) as [E|_];
    [unfold FORMAT_ENVIRONMENT_INDEX in E; lia|].
  cbn [bind SkipWhitespace]. change (is_whitespace "}") with false. cbn iota.
  cbn [peek advance]. change (Ascii.eqb "}" FORMAT_END) with true. cbn [negb].
  exists (p3 + 1). unfold plain_field, InitializeFormatFragment, set_selectors, new_fragment.
  cbn [text formatSpecifier selectors index explicitConversion handled].
  now rewrite Hh.
Qed.

Lemma ParseFormatStr_plain (h : host) (n : Z) (selector name : string)
    (queue : list string) :
  0 <= n < 2147483647 ->
  (selector = "" /\ queue = []
   \/ is_identifier name = true /\ selector = "." ++ name /\ queue = [name]) ->
  ParseFormatStr h (c_str ("{" ++ decimal n ++ selector ++ "}"))
  = Ok ("", [plain_field n queue]).
Proof.
  intros Hn Hsel.
  assert (Hc : c_str (selector ++ "}") = selector ++ "}").
  { destruct Hsel as [[-> _]|(Hid & -> & _)]; [reflexivity|].
    cbn [append c_str]. change (Ascii.eqb "." NUL) with false. cbn iota.
    now rewrite (c_str_identifier name "}" Hid). }
  rewrite c_str_field, Hc by lia.
  unfold ParseFormatStr. rewrite first_scan_field by lia. cbn [bind].
  destruct (ParseFormatParameter_plain h n 0 0 selector name queue Hn Hsel) as [pos' Hp].
  cbn [append String.length ParseFormatStr_loop] in *. rewrite Hp. cbn [bind].
  destruct (String.length (decimal n ++ selector ++ "}")); reflexivity.
Qed.

Lemma OutputFragments_handled (d : bool) (f : FormatFragment) :
  handled f = true -> OutputFragments d [f] = Ok (text f).
Proof.
  intros H. cbn [OutputFragments]. rewrite H. cbn [negb andb].
  rewrite andb_false_r. cbn. now rewrite append_nil_r.
Qed.

Lemma skipn_nth_error {A : Type} (l : list A) (n : nat) (a : A) :
  nth_error l n = Some a -> exists l1 l2, l = (l1 ++ a :: l2)%list /\ List.length l1 = n.
Proof.
  intros H. apply nth_error_split in H as (l1 & l2 & -> & <-). eauto.
Qed.

Lemma FormatParameters_beyond (h : host) (args : list value) :
  forall (i : Z) (fragments : list FormatFragment),
    Forall (fun f => i + Z.of_nat (List.length args) <= index f) fragments ->
    FormatParameters h i fragments args = Ok fragments.
Proof.
  induction args as [|arg args IH]; intros i fragments H; [reflexivity|].
  cbn [FormatParameters]. cbn [List.length] in H. rewrite FormatParameter_none.
  - cbn [bind]. apply IH. eapply Forall_impl; [|exact H]. cbn. intros; lia.
  - eapply Forall_impl; [|exact H]. cbn. intros; lia.
Qed.

(** One field with the index of an argument that is there: the text is the
    one that argument is rendered to. *)
Lemma Format_one_field (h : host) (d : bool) (t : string) (f : FormatFragment)
    (args : list value) (arg : value) :
  ParseFormatStr h (c_str t) = Ok ("", [f]) ->
  0 <= index f ->
  nth_error args (Z.to_nat (index f)) = Some arg ->
  Format h d t args = rendered h arg f.
Proof.
  intros Hp Hi Hn. unfold Format. rewrite Hp. cbn [bind].
  apply skipn_nth_error in Hn as (l1 & l2 & -> & Hl).
  rewrite FormatParameters_app.
  rewrite FormatParameters_beyond by (constructor; [lia | constructor]).
  cbn [bind FormatParameters FormatParameter].
  replace (0 + Z.of_nat (List.length l1)) with (index f) by lia.
  rewrite Z.eqb_refl. unfold rendered.
  destruct (ConvertAndFormatType h arg f) as [[[b f'] out]| |] eqn:E; cbn [bind];
    try reflexivity.
  apply ConvertAndFormatType_requeues in E as [q ->].
  set (m := if b then Ok out else _).
  destruct m as [buffer| |]; cbn [bind]; try reflexivity.
  rewrite FormatParameters_none by (constructor; [cbn; lia | constructor]).
  cbn [bind]. rewrite OutputFragments_handled by reflexivity. reflexivity.
Qed.

(** The text of a field with no selector, no conversion and no specifier
    does not depend on its index. *)
Lemma rendered_plain (h : host) (arg : value) (n m : Z) :
  rendered h arg (plain_field n []) = rendered h arg (plain_field m []).
Proof.
  unfold rendered, plain_field.
  destruct arg as [z|q|b|s|elements|entries|first second];
    cbn [ConvertAndFormatType];
    unfold ConvertAndFormatType_int64, ConvertAndFormatType_long_double,
      ConvertAndFormatType_bool, ConvertAndFormatType_string, ConvertAndFormatType_cstr;
    cbn [ConvertAndFormatType_int64_loop selectors explicitConversion formatSpecifier c_str];
    change (Ascii.eqb NUL "s") with false; change (Ascii.eqb NUL "r") with false;
    change (Ascii.eqb NUL "i") with false; change (Ascii.eqb NUL "d") with false;
    change (Ascii.eqb "s" "s") with true;
    cbn [orb bind]; unfold wrote;
    try match goal with |- context [bind ?x _] => destruct x; reflexivity end;
    reflexivity.
Qed.

Lemma bind_wrote (f : FormatFragment) (m : outcome string)
    (k : bool * FormatFragment * string -> outcome string) :
  (forall out, k (true, f, out) = Ok out) -> bind (wrote f m) k = m.
Proof. intros H. unfold wrote. destruct m; cbn [bind]; auto. Qed.

Ltac wrote_out :=
  repeat match goal with
         | |- context [bind (wrote ?f ?m) ?k] => rewrite (bind_wrote f m k) by reflexivity
         end.

Lemma rendered_not_understood (h : host) (arg : value) (n : Z) (name : string) :
  understands arg name = false ->
  rendered h arg (plain_field n [name]) = rendered h arg (plain_field n []).
Proof.
  intros Hu. unfold rendered.
  destruct arg as [z|q|b|s|elements|entries|first second].
  - cbn [understands] in Hu.
    apply orb_false_elim in Hu as [Hu Hsqrt]. apply orb_false_elim in Hu as [Hu Hdec].
    apply orb_false_elim in Hu as [Hu Hinc]. apply orb_false_elim in Hu as [Habs Hsign].
    cbn [ConvertAndFormatType]. unfold ConvertAndFormatType_int64, plain_field.
    cbn [selectors ConvertAndFormatType_int64_loop].
    rewrite Habs, Hsign, Hinc, Hdec, Hsqrt. reflexivity.
  - cbn [ConvertAndFormatType]. unfold ConvertAndFormatType_long_double, plain_field.
    cbn [explicitConversion formatSpecifier].
    change (Ascii.eqb NUL "s") with false; change (Ascii.eqb NUL "r") with false;
      change (Ascii.eqb NUL "i") with false. cbn [orb].
    now wrote_out.
  - cbn [ConvertAndFormatType]. unfold ConvertAndFormatType_bool, plain_field.
    cbn [explicitConversion formatSpecifier].
    change (Ascii.eqb "s" "s") with true. cbn [orb].
    now wrote_out.
  - cbn [ConvertAndFormatType].
    unfold ConvertAndFormatType_string, ConvertAndFormatType_cstr, plain_field.
    cbn [explicitConversion formatSpecifier].
    change (Ascii.eqb NUL "i") with false; change (Ascii.eqb NUL "d") with false.
    now wrote_out.
  - reflexivity.
  - cbn [understands] in Hu.
    rewrite (ConvertAndFormatType_map h entries (plain_field n [name]) name [] eq_refl).
    destruct (map_at entries name); [discriminate|].
    cbn [ConvertAndFormatType]. unfold plain_field, pop_selector.
    cbn [selectors tl set_selectors text formatSpecifier index explicitConversion handled].
    now wrote_out.
  - reflexivity.
Qed.

(** X14: a selector that the argument does not understand is dropped
    without an error, and the field [{n.name}] renders as the field [{n}].
    This is so for an argument that is neither an integer nor a map (a
    sequence in particular), for an integer and a name that is none of its
    five functions, and for a map and a name that is none of its keys. *)
Theorem Format_selector_ignored (h : host) (d : bool) (n : nat) (name : string)
    (args : list value) (arg : value) :
  Z.of_nat n < 2147483647 ->
  is_identifier name = true ->
  nth_error args n = Some arg ->
  understands arg name = false ->
  Format h d ("{" ++ decimal (Z.of_nat n) ++ "." ++ name ++ "}") args
  = Format h d ("{" ++ decimal (Z.of_nat n) ++ "}") args.
Proof.
  intros Hn Hid Ha Hu.
  change ("{" ++ decimal (Z.of_nat n) ++ "." ++ name ++ "}")
    with ("{" ++ decimal (Z.of_nat n) ++ ("." ++ name) ++ "}").
  rewrite (Format_one_field h d _ (plain_field (Z.of_nat n) [name]) args arg).
  - rewrite (Format_one_field h d ("{" ++ decimal (Z.of_nat n) ++ "}")
               (plain_field (Z.of_nat n) []) args arg).
    + now apply rendered_not_understood.
    + apply (ParseFormatStr_plain h (Z.of_nat n) "" "" []); [lia | now left].
    + cbn. lia.
    + cbn [plain_field index]. now rewrite Nat2Z.id.
  - apply (ParseFormatStr_plain h (Z.of_nat n) ("." ++ name) name [name]); [lia|].
    right. auto.
  - cbn. lia.
  - cbn [plain_field index]. now rewrite Nat2Z.id.
Qed.

Lemma Format_selector_ignored_witness :
  Format bare_host strict ("{" ++ decimal (Z.of_nat 0) ++ "." ++ "2" ++ "}")
         [VSequence [VInt 1; VInt 2; VInt 3]]
  = Format bare_host strict ("{" ++ decimal (Z.of_nat 0) ++ "}")
           [VSequence [VInt 1; VInt 2; VInt 3]].
Proof.
  apply (Format_selector_ignored bare_host strict 0 "2" [VSequence [VInt 1; VInt 2; VInt 3]]
           (VSequence [VInt 1; VInt 2; VInt 3])); [cbn; lia | reflexivity ..].
Defined.

(** The text of the value a key maps to, as the map overload writes it:
    what the conversion of that value writes, whatever it returns. *)
Lemma rendered_map_key (h : host) (entries : list (string * value)) (n : Z)
    (name : string) (elem : value) :
  map_at entries name = Some elem ->
  rendered h (VMap entries) (plain_field n [name])
  = match elem with
    | VSequence _ | VPair _ _ => Ok ""
    | _ => rendered h elem (plain_field 0 [])
    end.
Proof.
  intros Hk. unfold rendered at 1.
  rewrite (ConvertAndFormatType_map h entries (plain_field n [name]) name [] eq_refl), Hk.
  change (pop_selector (plain_field n [name])) with (plain_field n []).
  assert (Hb : forall m : outcome string,
             ('(isHandled, fragment', out) <-
                ('(_, f', out) <- wrote (plain_field n []) m ;; Ok (true, f', out)) ;;
              (if isHandled then Ok out
               else more <- FormatType h (VMap entries) (c_str (formatSpecifier fragment')) ;;
                    Ok (out ++ more)))
             = m)
    by (intros m; unfold wrote; destruct m; reflexivity).
  destruct elem as [z|q|b|s|elements|items|first second]; try reflexivity;
    rewrite <- (rendered_plain h _ n 0); unfold rendered;
    cbn [ConvertAndFormatType];
    unfold ConvertAndFormatType_int64, ConvertAndFormatType_long_double,
      ConvertAndFormatType_bool, ConvertAndFormatType_string, ConvertAndFormatType_cstr,
      plain_field;
    cbn [ConvertAndFormatType_int64_loop selectors explicitConversion formatSpecifier c_str];
    change (Ascii.eqb NUL "s") with false; change (Ascii.eqb NUL "r") with false;
    change (Ascii.eqb NUL "i") with false; change (Ascii.eqb NUL "d") with false;
    change (Ascii.eqb "s" "s") with true;
    cbn [orb]; fold (plain_field n []); rewrite Hb; wrote_out; reflexivity.
Qed.

(** X15: a selector that is a key of a map argument selects the value
    the key maps to: the field renders as the template [{}] renders that
    value alone. The exception is a value that is a sequence or a pair, for
    which the field renders as the empty text. *)
Theorem Format_map_key (h : host) (d : bool) (n : nat) (name : string)
    (args : list value) (entries : list (string * value)) (elem : value) :
  Z.of_nat n < 2147483647 ->
  is_identifier name = true ->
  nth_error args n = Some (VMap entries) ->
  map_at entries name = Some elem ->
  Format h d ("{" ++ decimal (Z.of_nat n) ++ "." ++ name ++ "}") args
  = match elem with
    | VSequence _ | VPair _ _ => Ok ""
    | _ => Format h d "{}" [elem]
    end.
Proof.
  intros Hn Hid Ha Hk.
  change ("{" ++ decimal (Z.of_nat n) ++ "." ++ name ++ "}")
    with ("{" ++ decimal (Z.of_nat n) ++ ("." ++ name) ++ "}").
  rewrite (Format_one_field h d _ (plain_field (Z.of_nat n) [name]) args (VMap entries)).
  - rewrite (rendered_map_key h entries _ name elem Hk).
    destruct elem; try reflexivity;
      symmetry; apply (Format_one_field h d "{}" (plain_field 0 [])); reflexivity || (cbn; lia).
  - apply (ParseFormatStr_plain h (Z.of_nat n) ("." ++ name) name [name]); [lia|].
    right. auto.
  - cbn. lia.
  - cbn [plain_field index]. now rewrite Nat2Z.id.
Qed.

Lemma Format_map_key_witness :
  Format bare_host strict ("{" ++ decimal (Z.of_nat 0) ++ "." ++ "k" ++ "}")
         [VMap [("j", VInt 1); ("k", VSequence [VInt 1; VInt 2])]]
  = Ok "".
Proof.
  apply (Format_map_key bare_host strict 0 "k"
           [VMap [("j", VInt 1); ("k", VSequence [VInt 1; VInt 2])]]
           [("j", VInt 1); ("k", VSequence [VInt 1; VInt 2])]
           (VSequence [VInt 1; VInt 2])); [cbn; lia | reflexivity ..].
Defined.

(** X16: the selector [sign] of an integer. Where [int64_t] is
    [long long], the field renders -1 for a negative number and 1 for any
    other, zero included; where it is [long], the selector is dropped and the
    number itself is rendered. *)
Theorem Format_sign_selector (h : host) (d : bool) (n : nat) (args : list value) (v : Z) :
  Z.of_nat n < 2147483647 ->
  nth_error args n = Some (VInt v) ->
  Format h d ("{" ++ decimal (Z.of_nat n) ++ ".sign}") args
  = if int64_is_long_long h
    then Format h d "{}" [VInt (if v <? 0 then -1 else 1)]
    else Format h d "{}" [VInt v].
Proof.
  intros Hn Ha.
  change ("{" ++ decimal (Z.of_nat n) ++ ".sign}")
    with ("{" ++ decimal (Z.of_nat n) ++ ("." ++ "sign") ++ "}").
  rewrite (Format_one_field h d _ (plain_field (Z.of_nat n) ["sign"]) args (VInt v)).
  - assert (Hr : forall x, Format h d "{}" [VInt x] = FormatType_int64 h x "").
    { intros x. rewrite (Format_one_field h d "{}" (plain_field 0 []) [VInt x] (VInt x));
        [|reflexivity | cbn; lia | reflexivity].
      unfold rendered. cbn [ConvertAndFormatType]. unfold ConvertAndFormatType_int64.
      cbn [plain_field selectors ConvertAndFormatType_int64_loop explicitConversion
           formatSpecifier c_str].
      change (Ascii.eqb NUL "s") with false; change (Ascii.eqb NUL "r") with false;
        change (Ascii.eqb NUL "d") with false. cbn [orb].
      now wrote_out. }
    rewrite !Hr. unfold rendered. cbn [ConvertAndFormatType].
    unfold ConvertAndFormatType_int64.
    cbn [plain_field selectors ConvertAndFormatType_int64_loop].
    change (String.eqb "sign" "abs") with false.
    change (String.eqb "sign" "sign") with true. cbn iota.
    destruct (int64_is_long_long h).
    + cbn [set_selectors explicitConversion formatSpecifier c_str].
      change (Ascii.eqb NUL "s") with false; change (Ascii.eqb NUL "r") with false;
        change (Ascii.eqb NUL "d") with false. cbn [orb].
      now wrote_out.
    + cbn [bind set_selectors formatSpecifier c_str FormatType append].
      change (c_str (formatSpecifier (plain_field (Z.of_nat n) ["sign"]))) with "".
      destruct (FormatType_int64 h v ""); reflexivity.
  - apply (ParseFormatStr_plain h (Z.of_nat n) ("." ++ "sign") "sign" ["sign"]); [lia|].
    right. auto.
  - cbn. lia.
  - cbn [plain_field index]. now rewrite Nat2Z.id.
Qed.

Lemma Format_sign_selector_witness :
  Format bare_host strict ("{" ++ decimal (Z.of_nat 0) ++ ".sign}") [VInt (-5)]
  = if int64_is_long_long bare_host
    then Format bare_host strict "{}" [VInt (if -5 <? 0 then -1 else 1)]
    else Format bare_host strict "{}" [VInt (-5)].
Proof.
  apply (Format_sign_selector bare_host strict 0 [VInt (-5)] (-5)); [cbn; lia | reflexivity].
Defined.

(** X3: [ParseIntegerNumber] reads back the decimal digits of every
    number from 0 to 2147483647, when the text after the digits starts with
    neither a digit nor a minus sign, and advances the position by the number
    of digits. On a text that starts with neither it returns the default
    value and consumes nothing. The flag [allowNegative] plays no part. *)
Theorem ParseIntegerNumber_reads_decimal (allowNegative : bool) (n : Z) (r : string)
    (pos defaultValue : Z) :
  0 <= n < 2147483648 ->
  is_digit (peek r) = false ->
  Ascii.eqb (peek r) "-" = false ->
  ParseIntegerNumber pos (decimal n ++ r) allowNegative defaultValue
  = Ok (n, pos + strlen (decimal n), r)
  /\ ParseIntegerNumber pos r allowNegative defaultValue = Ok (defaultValue, pos, r).
Proof.
  intros Hn Hd Hm. split; [now apply ParseIntegerNumber_of_decimal|].
  unfold ParseIntegerNumber. rewrite ParseIntegerNumber_loop_stop by assumption.
  cbn [bind]. change (1 <? 0) with false. rewrite andb_false_r. now rewrite Z.mul_1_r.
Qed.

Lemma ParseIntegerNumber_reads_decimal_witness :
  ParseIntegerNumber 1 (decimal 2147483647 ++ "}") false 0
  = Ok (2147483647, 1 + strlen (decimal 2147483647), "}")
  /\ ParseIntegerNumber 1 "}" false 0 = Ok (0, 1, "}").
Proof.
  apply (ParseIntegerNumber_reads_decimal false 2147483647 "}" 1 0); [lia | reflexivity ..].
Defined.

(** What [ParseIntegerNumber] returns when it may not read a sign. *)
Lemma ParseIntegerNumber_range (pos : Z) (rest : string) (d v pos' : Z) (rest' : string) :
  ParseIntegerNumber pos rest false d = Ok (v, pos', rest') ->
  (v = d /\ pos' = pos /\ rest' = rest) \/ 0 <= v < 2147483648.
Proof.
  unfold ParseIntegerNumber. intros H. bind_inv H.
  destruct a as [[[[p s] fa] q] r].
  assert (Hloop : forall rest p0 s0 fc fa0 pos0 p1 s1 fa1 pos1 rest1,
             ParseIntegerNumber_loop false p0 s0 fc fa0 pos0 rest
             = Ok (p1, s1, fa1, pos1, rest1) ->
             0 <= p0 < 2147483648 ->
             s1 = s0 /\ 0 <= p1 < 2147483648
             /\ (fa1 = false -> fa0 = false /\ pos1 = pos0 /\ rest1 = rest)).
  { clear. induction rest as [|c rest IH]; intros p0 s0 fc fa0 pos0 p1 s1 fa1 pos1 rest1 H Hp.
    - injection H as <- <- <- <- <-. auto.
    - cbn [ParseIntegerNumber_loop andb] in H.
      destruct (Ascii.eqb c "-"); [discriminate|].
      destruct (is_digit c).
      + cbv zeta in H.
        destruct (Z.ltb_spec INT_MAX (p0 * 10 + (code c - code "0"))); [discriminate|].
        destruct (Z.ltb_spec (p0 * 10 + (code c - code "0")) 0); [discriminate|].
        apply IH in H as (-> & Hr & Hfa); [|unfold INT_MAX in *; lia].
        split; [reflexivity|]. split; [exact Hr|].
        intros E. destruct (Hfa E) as [Hx _]. discriminate.
      + injection H as <- <- <- <- <-. auto. }
  apply Hloop in Ha as (-> & Hp & Hfa); [|lia].
  change (1 <? 0) with false in H. rewrite andb_false_r in H.
  injection H as <- <- <-.
  destruct fa.
  - right. lia.
  - left. destruct (Hfa eq_refl) as (_ & -> & ->). repeat split. lia.
Qed.

(** X4: in every specifier that [ConvertToBasicFormatSpecifiers]
    accepts, the width is between 0 and 2147483647, and the precision is -1
    (not set) or between 0 and 2147483647. A width or a precision written
    with a number that does not fit [int] overflows the signed sum in
    [ParseIntegerNumber], which is undefined behaviour: such a run leaves
    the model, it returns no specifier here, and nothing is stated about
    what the compiled code makes of it. *)
Theorem ConvertToBasicFormatSpecifiers_range (formatParameter : string)
    (sp : BasicFormatSpecifiers) :
  ConvertToBasicFormatSpecifiers formatParameter InitializeFormatSpecifier = Ok sp ->
  0 <= width sp < 2147483648 /\ -1 <= precision sp < 2147483648.
Proof.
  unfold ConvertToBasicFormatSpecifiers.
  destruct formatParameter as [|c s].
  { intros H; injection H as <-.
    unfold InitializeFormatSpecifier, PRECISION_NOT_SET. cbn [width precision]. lia. }
  set (init := InitializeFormatSpecifier).
  assert (Hi : precision init = -1) by reflexivity.
  assert (Hprec : forall sp0 p r sp1 p1 r1,
             ReadAlignSpecifier sp0 p r = (sp1, p1, r1) -> precision sp1 = precision sp0).
  { intros sp0 p r sp1 p1 r1. unfold ReadAlignSpecifier.
    destruct r as [|a [|b r]]; try (intros E; now injection E as <- _ _).
    destruct (is_align_token b); [intros E; now injection E as <- _ _|].
    destruct (is_align_token a); intros E; now injection E as <- _ _. }
  destruct (ReadAlignSpecifier init 0 (String c s)) as [[s1 p1] r1] eqn:E1.
  apply Hprec in E1.
  destruct (ReadSignSpecifier s1 p1 r1) as [[s2 p2] r2] eqn:E2.
  assert (H2 : precision s2 = precision s1).
  { unfold ReadSignSpecifier in E2.
    match type of E2 with (if ?b then _ else _) = _ => destruct b end;
      now injection E2 as <- _ _. }
  destruct (ReadAlternateSpecifier s2 p2 r2) as [[s3 p3] r3] eqn:E3.
  assert (H3 : precision s3 = precision s2).
  { unfold ReadAlternateSpecifier in E3.
    match type of E3 with (if ?b then _ else _) = _ => destruct b end;
      now injection E3 as <- _ _. }
  destruct (ReadSignAwareZeroSpecifier s3 p3 r3) as [[s4 p4] r4] eqn:E4.
  assert (H4 : precision s4 = precision s3).
  { unfold ReadSignAwareZeroSpecifier in E4.
    match type of E4 with (if ?b then _ else _) = _ => destruct b end;
      [|now injection E4 as <- _ _].
    match type of E4 with ((if ?b then _ else _), _, _) = _ => destruct b end;
      now injection E4 as <- _ _. }
  intros H. bind_inv H. destruct a as [[s5 p5] r5].
  unfold ReadWidthSpecifier in Ha. bind_inv Ha. destruct a as [[w q] r].
  injection Ha as <- _ <-.
  apply ParseIntegerNumber_range in Ha0.
  destruct (ReadThousandSepSpecifier (set_width s4 w) p5 r) as [[s6 p6] r6] eqn:E6.
  assert (H6 : precision s6 = precision s4 /\ width s6 = w).
  { unfold ReadThousandSepSpecifier in E6.
    match type of E6 with (if ?b then _ else _) = _ => destruct b end;
      injection E6 as <- _ _; split; reflexivity. }
  bind_inv H. destruct a as [[s7 p7] r7].
  assert (H7 : width s7 = w /\ -1 <= precision s7 < 2147483648).
  { unfold ReadPrecisionSpecifier in Ha.
    destruct (Ascii.eqb (peek r6) FORMAT_PRECISION_TOGGLE).
    - bind_inv Ha. destruct a as [[pr q'] r']. injection Ha as <- _ _.
      apply ParseIntegerNumber_range in Ha1.
      cbn [set_precision width precision]. split; [tauto | lia].
    - injection Ha as <- _ _. split; [tauto|].
      destruct H6 as [-> _]. rewrite H4, H3, H2, E1, Hi. lia. }
  destruct (ReadTypeSpecifier s7 p7 r7) as [[s8 p8] r8] eqn:E8.
  injection H as <-.
  assert (H8 : width s8 = width s7 /\ precision s8 = precision s7).
  { unfold ReadTypeSpecifier in E8.
    match type of E8 with (if ?b then _ else _) = _ => destruct b end;
      injection E8 as <- _ _; split; reflexivity. }
  destruct H8 as [-> ->]. destruct H7 as [-> H7]. split; [lia | exact H7].
Qed.

Lemma ConvertToBasicFormatSpecifiers_range_witness :
  0 <= width (mkSpecifiers 12 3 "*" "^" "+" "f" false true) < 2147483648
  /\ -1 <= precision (mkSpecifiers 12 3 "*" "^" "+" "f" false true) < 2147483648.
Proof.
  exact (ConvertToBasicFormatSpecifiers_range "*^+12,.3f" _ eq_refl).
Defined.

(** ** A conversion mark that ends the template *)

Lemma ParseFormatParameter_conversion_at_end (h : host) (idx : string) (pos next : Z) :
  (idx = "" \/ exists n, 0 <= n < 2147483647 /\ idx = decimal n) ->
  next < 2147483647 ->
  ParseFormatParameter h pos ("{" ++ idx ++ "!") next
  = Stuck "ReadExplicitTypeConversion: position moved past the terminator".
Proof.
  intros Hidx Hnext.
  assert (Hw : is_whitespace (peek (idx ++ "!")) = false
               /\ Ascii.eqb (peek (idx ++ "!")) FORMAT_ENVIRONMENT = false).
  { destruct Hidx as [->|(n & Hn & ->)]; [split; reflexivity|].
    pose proof (peek_decimal n "!" (proj1 Hn)) as Hd.
    destruct (digit_is_plain _ Hd) as (Hw & He & _). auto. }
  destruct Hw as [Hw He].
  assert (Hp : exists i p2,
             ParseIntegerNumber (pos + 1) (idx ++ "!") false next = Ok (i, p2, "!")
             /\ i < 2147483647).
  { destruct Hidx as [->|(n & Hn & ->)].
    - exists next, (pos + 1). split; [|exact Hnext].
      unfold ParseIntegerNumber; cbn; destruct ((next =? 0) && false) eqn:E;
        [now rewrite andb_false_r in E | now rewrite Z.mul_1_r].
    - exists n, (pos + 1 + strlen (decimal n)). split; [|lia].
      apply ParseIntegerNumber_of_decimal; [lia | reflexivity | reflexivity]. }
  destruct Hp as (i & p2 & Hp & Hi).
  unfold ParseFormatParameter. cbn [append peek advance].
  change (assert (Ascii.eqb "{" FORMAT_START)) with (Ok tt). cbn [bind].
  rewrite (SkipWhitespace_none _ _ Hw), He, Hp. cbn [bind].
  destruct (Z.leb_spec INT_MAX i) as [Hmax|_]; [unfold INT_MAX in Hmax; lia|].
  cbn [bind].
  unfold ReadSelectors. cbn [String.length ReadSelectors_loop peek].
  change (is_selector_start "!") with false. cbn iota. cbn [bind].
  reflexivity.
Qed.

Lemma first_scan_conversion_at_end (idx : string) (pos : Z) :
  (idx = "" \/ exists n, 0 <= n < 2147483647 /\ idx = decimal n) ->
  GetPlainTextFragment_loop NUL pos ("{" ++ idx ++ "!") = Ok ("", pos, "{" ++ idx ++ "!")
  /\ c_str ("{" ++ idx ++ "!") = "{" ++ idx ++ "!".
Proof.
  intros [->|(n & Hn & ->)]; [split; reflexivity|].
  split; [apply first_scan_field; lia|].
  now rewrite c_str_field by lia.
Qed.

(** X9: a template that ends with the conversion mark [!] of a field,
    after well-formed literal text and with or without an index, makes
    [ReadExplicitTypeConversion] step over the terminator of the string:
    [strchr] finds the terminator in the list of conversions, so it is taken
    as a conversion and the position is moved past it. *)
Theorem Format_conversion_at_end (h : host) (d : bool) (t : string) (n : Z)
    (args : list value) :
  literal_only (c_str t) = true ->
  0 <= n < 2147483647 ->
  Format h d (c_str t ++ "{" ++ decimal n ++ "!") args
  = Stuck "ReadExplicitTypeConversion: position moved past the terminator"
  /\ Format h d (c_str t ++ "{!") args
     = Stuck "ReadExplicitTypeConversion: position moved past the terminator".
Proof.
  intros Hlit Hn.
  assert (H : forall idx,
             (idx = "" \/ exists n, 0 <= n < 2147483647 /\ idx = decimal n) ->
             Format h d (c_str t ++ "{" ++ idx ++ "!") args
             = Stuck "ReadExplicitTypeConversion: position moved past the terminator").
  { intros idx Hidx.
    destruct (first_scan_conversion_at_end idx 0 Hidx) as [_ Hc].
    unfold Format, ParseFormatStr, GetPlainTextFragment.
    rewrite (c_str_append_plain (c_str t)) by apply c_str_idempotent. rewrite Hc.
    destruct (GetPlainTextFragment_literal_then ("{" ++ idx ++ "!") ("{" ++ idx ++ "!")
                (String.length (c_str t))
                (fun p => ex_intro _ p (proj1 (first_scan_conversion_at_end idx p Hidx)))
                (c_str t) 0 (le_n _) Hlit) as [p1 ->].
    cbn [bind append String.length ParseFormatStr_loop].
    pose proof (ParseFormatParameter_conversion_at_end h idx p1 0 Hidx ltac:(lia)) as Hp.
    cbn [append] in Hp. rewrite Hp. reflexivity. }
  split.
  - apply H. right. eauto.
  - apply (H ""). now left.
Qed.

Lemma Format_conversion_at_end_witness :
  Format bare_host strict (c_str "x = " ++ "{" ++ decimal 0 ++ "!") [VInt 1]
  = Stuck "ReadExplicitTypeConversion: position moved past the terminator"
  /\ Format bare_host strict (c_str "x = " ++ "{!") [VInt 1]
     = Stuck "ReadExplicitTypeConversion: position moved past the terminator".
Proof.
  apply (Format_conversion_at_end bare_host strict "x = " 0 [VInt 1]); [reflexivity | lia].
Defined.

(** ** Environment variables that are set *)

Lemma FormatType_cstr_plain (v : string) : FormatType_cstr v "" = Ok v.
Proof.
  rewrite (FormatType_cstr_unfold v "" InitializeFormatSpecifier eq_refl).
  rewrite string_written, PostprocessStreamForString_shape. cbn.
  unfold flush_left, padding. pose proof (strlen_nonneg v).
  replace (Z.to_nat (0 - strlen v)) with O by lia. cbn. now rewrite append_nil_r.
Qed.

Lemma env_field_set (h : host) (name content : string) (pos next : Z) :
  is_identifier name = true ->
  getenv h name = Some content ->
  exists pos' f,
    ParseFormatParameter h pos ("{$" ++ name ++ "}") next = Ok ([f], pos', "", next)
    /\ index f = FORMAT_ENVIRONMENT_INDEX /\ handled f = true /\ text f = c_str content.
Proof.
  intros Hn Hg. unfold ParseFormatParameter.
  cbn [append peek advance].
  change (assert (Ascii.eqb "{" FORMAT_START)) with (Ok tt). cbn [bind].
  cbn [SkipWhitespace]. change (is_whitespace "$") with false. cbn iota.
  cbn [peek]. change (Ascii.eqb "$" FORMAT_ENVIRONMENT) with true. cbn iota.
  unfold ReadEnvironmentVariableName. cbn [peek advance].
  change (assert (Ascii.eqb "$" FORMAT_ENVIRONMENT)) with (Ok tt). cbn [bind].
  destruct (ReadIdentifier_identifier name "}" Hn eq_refl (pos + 1 + 1)) as [pos2 ->].
  cbn [bind].
  assert (Hc : c_str name = name).
  { rewrite <- (append_nil_r name) at 1. rewrite c_str_identifier by exact Hn.
    apply append_nil_r. }
  unfold ReadSelectors. cbn [String.length ReadSelectors_loop peek].
  change (is_selector_start "}") with false. cbn iota. cbn [bind].
  unfold ReadExplicitTypeConversion. cbn [peek].
  change (Ascii.eqb "}" FORMAT_EXPLICIT_TYPE) with false. cbn iota. cbn [bind].
  unfold ParseFormatSpecifier. cbn [peek].
  change (Ascii.eqb "}" FORMAT_SPECIFIER) with false. cbn iota. cbn [bind].
  unfold TranslateEnvironmentFragment.
  cbn [InitializeFormatFragment index text set_text new_fragment formatSpecifier selectors].
  change (FORMAT_ENVIRONMENT_INDEX =? FORMAT_ENVIRONMENT_INDEX) with true. cbn iota.
  rewrite Hc, Hg.
  replace (ConvertAndFormatType_string h content
             (InitializeFormatFragment (set_text new_fragment name) FORMAT_ENVIRONMENT_INDEX))
    with (Ok (true, InitializeFormatFragment (set_text new_fragment name)
                                             FORMAT_ENVIRONMENT_INDEX, c_str content)).
  2:{ unfold ConvertAndFormatType_string, ConvertAndFormatType_cstr.
      cbn [InitializeFormatFragment explicitConversion formatSpecifier set_text
           new_fragment c_str].
      change (Ascii.eqb NUL "i") with false. change (Ascii.eqb NUL "d") with false.
      cbn iota. now rewrite FormatType_cstr_plain. }
  cbn [bind set_text]. cbn.
  do 2 eexists. split; [reflexivity|]. repeat split.
Qed.

(** X10: the field [{$name}] of a variable that is set renders as the
    value of the variable, in both builds and whatever the arguments. *)
Theorem Format_environment_variable (h : host) (d : bool) (name content : string)
    (args : list value) :
  is_identifier name = true ->
  getenv h name = Some content ->
  Format h d ("{$" ++ name ++ "}") args = Ok (c_str content).
Proof.
  intros Hn Hg.
  unfold Format, ParseFormatStr.
  change (c_str ("{$" ++ name ++ "}")) with ("{$" ++ c_str (name ++ "}")).
  rewrite (c_str_identifier name "}" Hn).
  change (c_str "}") with "}".
  change (GetPlainTextFragment 0 ("{$" ++ name ++ "}"))
    with (Ok ("", 0, "{$" ++ name ++ "}") : outcome (string * Z * string)).
  cbn [bind]. cbn [append String.length ParseFormatStr_loop].
  destruct (env_field_set h name content 0 0 Hn Hg) as (pos' & f & Hp & Hi & Hh & Ht).
  cbn [append] in Hp. rewrite Hp. cbn [bind app ParseFormatStr_loop].
  rewrite FormatParameters_negative;
    [|lia|constructor; [rewrite Hi; unfold FORMAT_ENVIRONMENT_INDEX; lia|constructor]].
  cbn [bind OutputFragments]. rewrite Hh, Ht.
  destruct d; cbn; now rewrite append_nil_r.
Qed.

Lemma Format_environment_variable_witness :
  Format (mkHost (fun name => if String.eqb name "HOME" then Some "/root" else None)
                 (Some classic_numpunct) false)
         strict ("{$" ++ "HOME" ++ "}") []
  = Ok (c_str "/root").
Proof.
  apply Format_environment_variable; reflexivity.
Defined.

(** ** A field between literal texts *)

Lemma undouble_nonempty (c : ascii) (t : string) : undouble (String c t) <> "".
Proof. cbn [undouble]. destruct t; [discriminate|]. now destruct (is_bracket c && _). Qed.

Lemma ParseFormatParameter_plain_then (h : host) (n pos next : Z) (lit : string) :
  0 <= n < 2147483647 ->
  literal_only lit = true ->
  exists pos' : Z,
    ParseFormatParameter h pos ("{" ++ decimal n ++ "}" ++ lit) next
    = Ok (plain_field n [] :: literal_fragments lit, pos', "", n + 1).
Proof.
  intros Hn Hlit.
  assert (Hn' : 0 <= n < 2147483648) by lia.
  pose proof (peek_decimal n ("}" ++ lit) (proj1 Hn)) as Hd.
  destruct (digit_is_plain _ Hd) as (Hw & He & _).
  unfold ParseFormatParameter. cbn [append peek advance].
  change (assert (Ascii.eqb "{" FORMAT_START)) with (Ok tt). cbn [bind].
  cbn [append] in Hw, He.
  rewrite (SkipWhitespace_none _ _ Hw), He.
  rewrite (ParseIntegerNumber_of_decimal false n (String "}" lit) (pos + 1) next Hn' eq_refl eq_refl).
  cbn [bind].
  destruct (Z.leb_spec INT_MAX n) as [Hmax|_]; [unfold INT_MAX in Hmax; lia|].
  cbn [bind].
  unfold ReadSelectors. cbn [String.length ReadSelectors_loop peek].
  change (is_selector_start "}") with false. cbn iota. cbn [bind].
  assert (Hh : (n <? 0) = false) by (apply Z.ltb_ge; lia).
  unfold ReadExplicitTypeConversion. cbn [peek].
  change (Ascii.eqb "}" FORMAT_EXPLICIT_TYPE) with false. cbn iota. cbn [bind].
  unfold ParseFormatSpecifier. cbn [peek].
  change (Ascii.eqb "}" FORMAT_SPECIFIER) with false. cbn iota. cbn [bind].
  unfold TranslateEnvironmentFragment.
  cbn [InitializeFormatFragment set_selectors index new_fragment text formatSpecifier
       selectors].
  destruct (Z.eqb_spec n FORMAT_ENVIRONMENT_INDEX) as [E|_];
    [unfold FORMAT_ENVIRONMENT_INDEX in E; lia|].
  cbn [bind SkipWhitespace]. change (is_whitespace "}") with false. cbn iota.
  cbn [peek advance]. change (Ascii.eqb "}" FORMAT_END) with true. cbn [negb]. cbn iota.
  destruct lit as [|c lit].
  { eexists. unfold plain_field, literal_fragments, InitializeFormatFragment, new_fragment.
    cbn [text formatSpecifier selectors index explicitConversion handled].
    now rewrite Hh. }
  destruct (GetPlainTextFragment_literal (String c lit)
              (pos + 1 + strlen (decimal n) + 1) Hlit) as [pos' ->].
  cbn [bind]. exists pos'.
  pose proof (undouble_nonempty c lit) as Hne. unfold literal_fragments.
  destruct (undouble (String c lit)) as [|c0 s0]; [congruence|].
  unfold plain_field, InitializeFormatFragment, new_fragment, set_text.
  cbn [text formatSpecifier selectors index explicitConversion handled].
  now rewrite Hh.
Qed.

Lemma FormatParameters_skips (h : host) (args : list value) :
  forall (i : Z) (fragments : list FormatFragment),
    Forall (fun f => index f < i \/ i + Z.of_nat (List.length args) <= index f) fragments ->
    FormatParameters h i fragments args = Ok fragments.
Proof.
  induction args as [|arg args IH]; intros i fragments H; [reflexivity|].
  cbn [FormatParameters]. cbn [List.length] in H. rewrite FormatParameter_none.
  - cbn [bind]. apply IH. eapply Forall_impl; [|exact H]. cbn. intros; lia.
  - eapply Forall_impl; [|exact H]. cbn. intros; lia.
Qed.

Lemma OutputFragments_all_handled (d : bool) (fragments : list FormatFragment) :
  Forall (fun f => handled f = true) fragments ->
  OutputFragments d fragments = Ok (texts fragments).
Proof.
  induction 1 as [|f fragments Hf _ IH]; [reflexivity|].
  cbn [OutputFragments]. rewrite Hf, IH. cbn [negb]. rewrite andb_false_r. reflexivity.
Qed.

(** One field bound to an argument that is there, and literal text around
    it. *)
Lemma Format_field_and_text (h : host) (d : bool) (t ostr : string) (f : FormatFragment)
    (fs : list FormatFragment) (args : list value) (arg : value) :
  ParseFormatStr h (c_str t) = Ok (ostr, f :: fs) ->
  0 <= index f ->
  Forall (fun g => index g < 0 /\ handled g = true) fs ->
  nth_error args (Z.to_nat (index f)) = Some arg ->
  Format h d t args = (out <- rendered h arg f ;; Ok (ostr ++ out ++ texts fs)).
Proof.
  intros Hp Hi Hfs Hn. unfold Format. rewrite Hp. cbn [bind].
  apply skipn_nth_error in Hn as (l1 & l2 & -> & Hl).
  assert (Hneg : Forall (fun g => index g < 0) fs)
    by (eapply Forall_impl; [|exact Hfs]; cbn; tauto).
  assert (Hhan : Forall (fun g => handled g = true) fs)
    by (eapply Forall_impl; [|exact Hfs]; cbn; tauto).
  rewrite FormatParameters_app.
  rewrite FormatParameters_skips.
  2:{ constructor; [right; lia|]. eapply Forall_impl; [|exact Hneg]. cbn. intros; lia. }
  cbn [bind FormatParameters FormatParameter].
  replace (0 + Z.of_nat (List.length l1)) with (index f) by lia.
  rewrite Z.eqb_refl. unfold rendered.
  destruct (ConvertAndFormatType h arg f) as [[[b f'] out]| |] eqn:E; cbn [bind];
    try reflexivity.
  apply ConvertAndFormatType_requeues in E as [q ->].
  set (m := if b then Ok out else _).
  destruct m as [buffer| |]; cbn [bind]; try reflexivity.
  rewrite FormatParameter_none
    by (eapply Forall_impl; [|exact Hneg]; cbn; intros; lia).
  cbn [bind].
  rewrite FormatParameters_none.
  2:{ constructor; [cbn; lia|]. eapply Forall_impl; [|exact Hneg]. cbn. intros; lia. }
  cbn [bind]. rewrite OutputFragments_all_handled by (constructor; [reflexivity | exact Hhan]).
  reflexivity.
Qed.

Lemma texts_literal_fragments (t : string) : texts (literal_fragments t) = undouble t.
Proof.
  destruct t as [|c t]; [reflexivity|]. unfold literal_fragments.
  cbn [texts fold_right text]. apply append_nil_r.
Qed.

(** X11: a field [{n}] between two well-formed literal texts. The result
    is the text before, un-doubled, then what the template [{}] gives for the
    argument of index [n] alone, then the text after, un-doubled; when that
    argument fails to render, the call fails the same way. *)
Theorem Format_field_in_text (h : host) (d : bool) (t1 t2 : string) (n : nat)
    (args : list value) (arg : value) :
  literal_only (c_str t1) = true ->
  literal_only (c_str t2) = true ->
  Z.of_nat n < 2147483647 ->
  nth_error args n = Some arg ->
  Format h d (c_str t1 ++ "{" ++ decimal (Z.of_nat n) ++ "}" ++ c_str t2) args
  = (out <- Format h d "{}" [arg] ;;
     Ok (undouble (c_str t1) ++ out ++ undouble (c_str t2))).
Proof.
  intros H1 H2 Hn Ha.
  assert (Hn' : 0 <= Z.of_nat n < 2147483647) by lia.
  rewrite (Format_one_field h d "{}" (plain_field 0 []) [arg] arg);
    [|reflexivity | cbn; lia | reflexivity].
  rewrite (rendered_plain h arg 0 (Z.of_nat n)).
  rewrite <- (texts_literal_fragments (c_str t2)).
  apply Format_field_and_text.
  - rewrite (c_str_append_plain (c_str t1)) by apply c_str_idempotent.
    rewrite c_str_field by lia.
    rewrite (c_str_append_plain "}") by reflexivity. rewrite c_str_idempotent.
    unfold ParseFormatStr, GetPlainTextFragment.
    destruct (GetPlainTextFragment_literal_then
                ("{" ++ decimal (Z.of_nat n) ++ "}" ++ c_str t2)
                ("{" ++ decimal (Z.of_nat n) ++ "}" ++ c_str t2)
                (String.length (c_str t1))
                (fun p => ex_intro _ p (first_scan_field (Z.of_nat n) ("}" ++ c_str t2) p
                                          (proj1 Hn')))
                (c_str t1) 0 (le_n _) H1) as [p1 ->].
    cbn [bind].
    destruct (ParseFormatParameter_plain_then h (Z.of_nat n) p1 0 (c_str t2) Hn' H2)
      as [pos' Hp].
    cbn [append String.length ParseFormatStr_loop] in *. rewrite Hp. cbn [bind app].
    destruct (String.length (decimal (Z.of_nat n) ++ String "}" (c_str t2))); reflexivity.
  - cbn. lia.
  - unfold literal_fragments. destruct (c_str t2); repeat constructor.
  - cbn [plain_field index]. now rewrite Nat2Z.id.
Qed.

Lemma Format_field_in_text_witness :
  Format bare_host strict
         (c_str "{{x}} = " ++ "{" ++ decimal (Z.of_nat 1) ++ "}" ++ c_str " units")
         [VString "a"; VInt 42]
  = (out <- Format bare_host strict "{}" [VInt 42] ;;
     Ok (undouble (c_str "{{x}} = ") ++ out ++ undouble (c_str " units"))).
Proof.
  apply (Format_field_in_text bare_host strict "{{x}} = " " units" 1
           [VString "a"; VInt 42] (VInt 42)); [reflexivity | reflexivity | cbn; lia | reflexivity].
Defined.

(** ** Where the scanner of literal text raises *)

Lemma GetPlainTextFragment_loop_raises (n : nat) :
  forall (rest : string) (expect : ascii) (pos : Z) (e : exn),
    (String.length rest <= n)%nat ->
    expect = NUL \/ expect = FORMAT_END ->
    GetPlainTextFragment_loop expect pos rest = Throw e ->
    (expect = FORMAT_END
     /\ exists c tail,
         rest = String c tail /\ Ascii.eqb c FORMAT_END = false
         /\ e = IllegalFormatStringException pos
                  "Expected a different character, is this supposed to be escaped?")
    \/ (exists scannedText c tail,
           rest = scannedText ++ "}" ++ String c tail /\ Ascii.eqb c FORMAT_END = false
           /\ e = IllegalFormatStringException (pos + strlen scannedText + 1)
                    "Expected a different character, is this supposed to be escaped?").
Proof.
  induction n as [|n IH]; intros rest expect pos e Hlen Hexp H.
  - destruct rest; [discriminate | simpl in Hlen; lia].
  - destruct rest as [|c rest']; [discriminate|].
    cbn [String.length] in Hlen. cbn [GetPlainTextFragment_loop] in H.
    assert (Hsnd : forall (pre : string) (k : Z) (rest0 : string),
               (String.length rest0 <= n)%nat ->
               String c rest' = pre ++ rest0 -> k = strlen pre ->
               GetPlainTextFragment_loop NUL (pos + k) rest0 = Throw e ->
               exists scannedText c0 tail,
                 String c rest' = scannedText ++ "}" ++ String c0 tail
                 /\ Ascii.eqb c0 FORMAT_END = false
                 /\ e = IllegalFormatStringException (pos + strlen scannedText + 1)
                          "Expected a different character, is this supposed to be escaped?").
    { intros pre k rest0 Hl Hr Hk Hrec.
      destruct (IH rest0 NUL (pos + k) e Hl (or_introl eq_refl) Hrec)
        as [[Hx _]|(s & c0 & tail & -> & Hc0 & ->)]; [discriminate|].
      exists (pre ++ s), c0, tail. rewrite Hr, append_assoc.
      split; [reflexivity|]. split; [exact Hc0|].
      rewrite strlen_append. f_equal. lia. }
    destruct Hexp as [->| ->].
    + change (negb (Ascii.eqb NUL NUL)) with false in H. cbn [andb] in H.
      right.
      destruct (Ascii.eqb_spec c FORMAT_START) as [->|Hs].
      { destruct rest' as [|c1 rest'']; [discriminate|].
        destruct (Ascii.eqb_spec c1 FORMAT_START) as [->|_]; [|discriminate].
        destruct (GetPlainTextFragment_loop NUL (pos + 2) rest'') as [[[o p] r]|e'|w] eqn:E;
          cbn [bind] in H; try discriminate.
        injection H as ->.
        apply (Hsnd "{{" 2 rest''); [simpl in Hlen; lia | reflexivity | reflexivity | exact E]. }
      destruct (Ascii.eqb_spec c FORMAT_END) as [->|He].
      { change (Ascii.eqb NUL FORMAT_END) with false in H.
        change (Ascii.eqb NUL NUL) with true in H. cbv iota in H.
        destruct (IH rest' FORMAT_END (pos + 1) e ltac:(lia) (or_intror eq_refl) H)
          as [(_ & c0 & tail & -> & Hc0 & ->)|(s & c0 & tail & -> & Hc0 & ->)].
        - exists "", c0, tail. split; [reflexivity|]. split; [exact Hc0|].
          f_equal. change (strlen "") with 0. lia.
        - exists (String FORMAT_END s), c0, tail. split; [reflexivity|].
          split; [exact Hc0|]. rewrite strlen_String. f_equal. lia. }
      destruct (GetPlainTextFragment_loop NUL (pos + 1) rest') as [[[o p] r]|e'|w] eqn:E;
        cbn [bind] in H; try discriminate.
      injection H as ->.
      apply (Hsnd (String c "") 1 rest'); [lia | reflexivity | reflexivity | exact E].
    + change (negb (Ascii.eqb FORMAT_END NUL)) with true in H. cbn [andb] in H.
      destruct (Ascii.eqb_spec FORMAT_END c) as [<-|Hc].
      * cbn [negb] in H.
        change (Ascii.eqb FORMAT_END FORMAT_START) with false in H.
        change (Ascii.eqb FORMAT_END FORMAT_END) with true in H. cbv iota in H.
        destruct (GetPlainTextFragment_loop NUL (pos + 1) rest') as [[[o p] r]|e'|w] eqn:E;
          cbn [bind] in H; try discriminate.
        injection H as ->. right.
        apply (Hsnd (String FORMAT_END "") 1 rest'); [lia | reflexivity | reflexivity | exact E].
      * cbn [negb] in H. left. split; [reflexivity|].
        exists c, rest'. split; [reflexivity|]. split.
        -- destruct (Ascii.eqb_spec c FORMAT_END); [congruence | reflexivity].
        -- unfold illegal in H. now injection H as <-.
Qed.

(** X2: the scan of literal text raises for one reason only, a closing
    bracket followed by a character that is not a closing bracket. The
    exception is [IllegalFormatStringException] with the message about the
    escape, and its position is the one of the character after the
    bracket. *)
Theorem GetPlainTextFragment_raises (pos : Z) (rest : string) (e : exn) :
  GetPlainTextFragment pos rest = Throw e ->
  exists (scannedText : string) (c : ascii) (tail : string),
    rest = scannedText ++ "}" ++ String c tail
    /\ Ascii.eqb c FORMAT_END = false
    /\ e = IllegalFormatStringException (pos + strlen scannedText + 1)
             "Expected a different character, is this supposed to be escaped?".
Proof.
  intros H. unfold GetPlainTextFragment in H.
  destruct (GetPlainTextFragment_loop_raises (String.length rest) rest NUL pos e
              (le_n _) (or_introl eq_refl) H) as [[Hx _]|Hr]; [discriminate | exact Hr].
Qed.

Lemma GetPlainTextFragment_raises_witness :
  exists (scannedText : string) (c : ascii) (tail : string),
    "ab}c" = scannedText ++ "}" ++ String c tail
    /\ Ascii.eqb c FORMAT_END = false
    /\ IllegalFormatStringException 3
         "Expected a different character, is this supposed to be escaped?"
       = IllegalFormatStringException (0 + strlen scannedText + 1)
           "Expected a different character, is this supposed to be escaped?".
Proof.
  exact (GetPlainTextFragment_raises 0 "ab}c" _ eq_refl).
Defined.

(** ** The alternate form without a presentation type *)

Lemma paddings_shift (alignment : ascii) (w c : Z) :
  paddings alignment true w (c + 2) = paddings alignment true (w - 2) c.
Proof.
  unfold paddings.
  assert (Hpair : forall a b c' a' b' d' : Z,
             a = a' -> b = b' -> c' = d' -> (a, b, c') = (a', b', d'))
    by (intros; subst; reflexivity).
  destruct (Ascii.eqb alignment FORMAT_ALIGN_LEFT); [apply Hpair; lia|].
  destruct (Ascii.eqb alignment FORMAT_ALIGN_CENTER).
  { cbv zeta. replace (w - 2 - c) with (w - (c + 2)) by lia.
    generalize (Z.quot (w - (c + 2)) 2). intros q. apply Hpair; lia. }
  destruct (Ascii.eqb alignment FORMAT_ALIGN_INTERNAL); apply Hpair; lia.
Qed.

(** X22: the alternate form [#] with no presentation type, for a number
    that is centred or has the blank sign. Room for a base prefix is counted
    and no prefix is written, so the number is rendered as it is without [#]
    in a field two characters narrower. *)
Theorem FormatType_int64_alternate_without_type (h : host) (v : Z) (spec spec' : string)
    (sp : BasicFormatSpecifiers) :
  ConvertToBasicFormatSpecifiers spec InitializeFormatSpecifier = Ok sp ->
  ConvertToBasicFormatSpecifiers spec' InitializeFormatSpecifier
  = Ok (set_width (set_alternateForm sp false) (width sp - 2)) ->
  alternateForm sp = true ->
  type sp = NUL ->
  laid_out_after sp = true ->
  FormatType_int64 h v spec = FormatType_int64 h v spec'.
Proof.
  intros H H' Halt Ht Hl. unfold FormatType_int64. rewrite H, H'. cbn [bind].
  set (sp' := set_width (set_alternateForm sp false) (width sp - 2)).
  assert (Hpre : PreprocessStreamForInteger h sp' new_stream v
                 = PreprocessStreamForInteger h sp new_stream v).
  { unfold PreprocessStreamForInteger, preprocess_common, preprocess_sign, preprocess_align.
    subst sp'. unfold laid_out_after in Hl.
    cbn [set_width set_alternateForm width fill sign align type thousandSeparator
         alternateForm precision].
    cbv zeta. rewrite Ht.
    change (Ascii.eqb NUL FORMAT_BINARY_TOGGLE) with false.
    change (Ascii.eqb NUL FORMAT_UNICODE_CHAR_TOGGLE) with false.
    change (Ascii.eqb NUL FORMAT_OCTAL_TOGGLE) with false.
    change (Ascii.eqb NUL FORMAT_UPPERCASE_HEX_TOGGLE) with false.
    change (Ascii.eqb NUL FORMAT_LOWERCASE_HEX_TOGGLE) with false.
    change (Ascii.eqb NUL FORMAT_LOCALIZED_NUMBER_TOGGLE) with false.
    cbv iota.
    destruct (Ascii.eqb_spec (sign sp) FORMAT_SIGN_NEGATIVES_TOGGLE) as [Es|_];
      [rewrite Es in Hl; change (Ascii.eqb FORMAT_SIGN_NEGATIVES_TOGGLE
                                   FORMAT_SIGN_POSITIVE_SPACE_TOGGLE) with false in Hl
      |destruct (Ascii.eqb_spec (sign sp) FORMAT_SIGN_ALWAYS_TOGGLE) as [Es|_];
       [rewrite Es in Hl; change (Ascii.eqb FORMAT_SIGN_ALWAYS_TOGGLE
                                    FORMAT_SIGN_POSITIVE_SPACE_TOGGLE) with false in Hl
       |destruct (Ascii.eqb (sign sp) FORMAT_SIGN_POSITIVE_SPACE_TOGGLE)]];
      cbn [orb] in Hl;
      (destruct (Ascii.eqb_spec (align sp) FORMAT_ALIGN_LEFT) as [Ea|_];
       [try (rewrite Ea in Hl; discriminate)|]);
      (try destruct (Ascii.eqb_spec (align sp) FORMAT_ALIGN_INTERNAL) as [Ea'|_];
       [try (rewrite Ea' in Hl; discriminate)|..]);
      try rewrite Hl;
      try destruct (Ascii.eqb (align sp) FORMAT_ALIGN_CENTER);
      destruct (thousandSeparator sp); destruct (Ascii.eqb (fill sp) NUL);
      try reflexivity; try discriminate. }
  rewrite Hpre.
  destruct (PreprocessStreamForInteger h sp new_stream v)
    as [[[buffer written] useValue]|e|w]; cbn [bind]; [|reflexivity|reflexivity].
  f_equal. unfold PostprocessStreamForInteger, postprocess_number. cbv zeta.
  subst sp'.
  cbn [set_width set_alternateForm width fill sign align type thousandSeparator
       alternateForm precision].
  fold (laid_out_after sp). rewrite Hl, Halt, Ht.
  change (strchr "boxX" NUL) with true. cbn [andb].
  rewrite paddings_shift.
  unfold alternate_prefix.
  cbn [set_width set_alternateForm width fill sign align type thousandSeparator
       alternateForm precision].
  rewrite Halt, Ht. reflexivity.
Qed.

Lemma FormatType_int64_alternate_without_type_witness :
  FormatType_int64 bare_host 42 "^#10" = FormatType_int64 bare_host 42 "^8".
Proof.
  apply (FormatType_int64_alternate_without_type bare_host 42 "^#10" "^8"
           (mkSpecifiers 10 (-1) NUL "^" "-" NUL true false));
    reflexivity.
Defined.

(** ** Containers *)

(** X23: containers. A sequence renders as its elements, each formatted
    with the specifier of the field, separated by a comma and a blank inside
    square brackets; a map renders as its entries, the key and the value each
    formatted with that specifier and joined by a colon and a blank, inside
    braces. The first element that fails gives the failure of the whole. *)
Theorem FormatType_containers (h : host) (spec : string) :
  (forall elements : list value,
      FormatType h (VSequence elements) spec
      = (outs <- each_ok (fun elem => FormatType h elem spec) elements ;;
         Ok ("[" ++ joined ", " outs ++ "]")))
  /\ (forall entries : list (string * value),
         FormatType h (VMap entries) spec
         = (outs <- each_ok (fun entry =>
                               k <- FormatType_string (fst entry) spec ;;
                               out <- FormatType h (snd entry) spec ;;
                               Ok (k ++ ": " ++ out)) entries ;;
            Ok ("{" ++ joined ", " outs ++ "}"))).
Proof.
  split.
  - intros elements. cbn [FormatType].
    set (each := fix each (first : bool) (l : list value) : outcome string :=
                   match l with
                   | [] => Ok ""
                   | elem :: l' =>
                     out <- FormatType h elem spec ;;
                     more <- each false l' ;;
                     Ok ((if first then "" else FORMAT_ARRAY_SEP) ++ out ++ more)
                   end).
    assert (Hrest : forall l,
               each false l
               = (outs <- each_ok (fun elem => FormatType h elem spec) l ;;
                  Ok (fold_right (fun b acc => ", " ++ b ++ acc) "" outs))).
    { induction l as [|e l IH]; [reflexivity|].
      cbn [each_ok]. unfold each. fold each.
      destruct (FormatType h e spec) as [out| |]; cbn [bind]; try reflexivity.
      rewrite IH.
      destruct (each_ok (fun elem => FormatType h elem spec) l); reflexivity. }
    destruct elements as [|e l]; [reflexivity|].
    cbn [each_ok]. unfold each. fold each.
    destruct (FormatType h e spec) as [out| |]; cbn [bind]; try reflexivity.
    rewrite Hrest.
    destruct (each_ok (fun elem => FormatType h elem spec) l); reflexivity.
  - intros entries. cbn [FormatType].
    set (f := fun entry : string * value =>
                k <- FormatType_string (fst entry) spec ;;
                out <- FormatType h (snd entry) spec ;;
                Ok (k ++ ": " ++ out)).
    set (each := fix each (first : bool) (l : list (string * value)) : outcome string :=
                   match l with
                   | [] => Ok ""
                   | (key, elem) :: l' =>
                     k <- FormatType_string key spec ;;
                     out <- FormatType h elem spec ;;
                     more <- each false l' ;;
                     Ok ((if first then "" else FORMAT_MAP_SEP)
                         ++ FORMAT_PAIR_OPEN ++ k ++ FORMAT_PAIR_SEP ++ out
                         ++ FORMAT_PAIR_CLOSE ++ more)
                   end).
    assert (Hstep : forall (first : bool) (key : string) (elem : value) l,
               each first ((key, elem) :: l)
               = (b <- f (key, elem) ;;
                  more <- each false l ;;
                  Ok ((if first then "" else ", ") ++ b ++ more))).
    { intros first key elem l. unfold each at 1. fold each. unfold f. cbn [fst snd].
      destruct (FormatType_string key spec) as [k| |]; cbn [bind]; try reflexivity.
      destruct (FormatType h elem spec) as [out| |]; cbn [bind]; try reflexivity.
      destruct (each false l) as [more| |]; cbn [bind]; try reflexivity.
      unfold FORMAT_PAIR_OPEN, FORMAT_PAIR_CLOSE, FORMAT_PAIR_SEP, FORMAT_MAP_SEP.
      cbn [append]. now rewrite !append_assoc. }
    assert (Hrest : forall l,
               each false l
               = (outs <- each_ok f l ;;
                  Ok (fold_right (fun b acc => ", " ++ b ++ acc) "" outs))).
    { induction l as [|[key elem] l IH]; [reflexivity|].
      rewrite Hstep. cbn [each_ok].
      destruct (f (key, elem)) as [b| |]; cbn [bind]; try reflexivity.
      rewrite IH. destruct (each_ok f l); reflexivity. }
    destruct entries as [|[key elem] l]; [reflexivity|].
    rewrite Hstep. cbn [each_ok].
    destruct (f (key, elem)) as [b| |]; cbn [bind]; try reflexivity.
    rewrite Hrest. destruct (each_ok f l); reflexivity.
Qed.

(** ** Inputs on which the theorems with conditions apply *)

Lemma Format_unclosed_field_witness :
  ParseFormatStr bare_host (c_str "{0")
  = Throw (IllegalFormatStringException 2 "Expected format closing bracket '}'")
  /\ ((exists (pos : Z) (message : string),
         IllegalFormatStringException 2 "Expected format closing bracket '}'"
         = IllegalFormatStringException pos message /\ In message parser_errors)
      \/ (user_numpunct bare_host = None
          /\ IllegalFormatStringException 2 "Expected format closing bracket '}'"
             = runtime_error LOCALE_NAME_NOT_VALID)).
Proof.
  exact (Format_unclosed_field bare_host strict "{0" [VInt 1] eq_refl eq_refl).
Defined.

Lemma FormatType_cstr_aligned_witness :
  FormatType_cstr "abc" "*^7" = Ok "**abc**"
  /\ forall out : string, FormatType_cstr "abc" "*^7" = Ok out -> strlen out = 7.
Proof.
  apply (FormatType_cstr_aligned "abc" "*^7"
           (mkSpecifiers 7 (-1) "*" "^" "-" NUL false false) eq_refl).
  cbn. lia.
Defined.

Lemma FormatType_int64_fills_width_witness :
  width (mkSpecifiers 10 (-1) NUL "^" "-" "x" true false)
  <= strlen "   0xff   ".
Proof.
  apply (FormatType_int64_fills_width bare_host 255 "^#10x"
           (mkSpecifiers 10 (-1) NUL "^" "-" "x" true false) "   0xff   " eq_refl);
    [discriminate | reflexivity].
Defined.

Lemma FormatType_int64_prefix_outside_witness :
  exists text : string,
    "0x        ff"
    = alternate_prefix (mkSpecifiers 10 (-1) NUL NUL "-" "x" true false) ++ text
    /\ width (mkSpecifiers 10 (-1) NUL NUL "-" "x" true false) <= strlen text.
Proof.
  exact (FormatType_int64_prefix_outside bare_host 255 "#10x"
           (mkSpecifiers 10 (-1) NUL NUL "-" "x" true false) eq_refl eq_refl).
Defined.

(** ** Escapes in a format specifier *)

Lemma ReadFormatSpecifier_literal_then (r : string) (n : nat) :
  Ascii.eqb (peek r) FORMAT_END = false ->
  forall (s : string) (pos : Z),
    (String.length s <= n)%nat ->
    literal_only s = true ->
    ReadFormatSpecifier pos (s ++ String "}" r)
    = Ok (undouble s, pos + strlen s, String "}" r).
Proof.
  intros Hr.
  assert (Hstop : forall pos,
             ReadFormatSpecifier pos (String "}" r) = Ok ("", pos, String "}" r)).
  { intros pos. cbn [ReadFormatSpecifier].
    change (Ascii.eqb "}" FORMAT_END) with true. cbn iota.
    destruct r as [|c r]; [reflexivity|]. cbn [peek] in Hr. now rewrite Hr. }
  induction n as [|n IH]; intros s pos Hlen Hlit.
  - destruct s; [|simpl in Hlen; lia]. cbn [append strlen String.length undouble].
    rewrite (Hstop pos). unfold strlen. cbn. now rewrite Z.add_0_r.
  - destruct s as [|c s'].
    { cbn [append undouble]. rewrite (Hstop pos). unfold strlen. cbn. now rewrite Z.add_0_r. }
    cbn [literal_only] in Hlit. cbn [append ReadFormatSpecifier undouble].
    destruct (is_bracket_cases c) as [[-> Hb]|[[-> Hb]|(Hs & He & Hb)]].
    + rewrite Hb in Hlit. destruct s' as [|c' s'']; [discriminate|].
      apply andb_prop in Hlit as [Hc Hlit]. apply Ascii.eqb_eq in Hc. subst c'.
      change (Ascii.eqb FORMAT_START FORMAT_END) with false.
      change (Ascii.eqb FORMAT_START FORMAT_START) with true.
      cbn [append andb]. cbn iota.
      change (Ascii.eqb FORMAT_START FORMAT_START) with true. cbn iota.
      rewrite (IH s'' (pos + 2)) by (simpl in Hlen; lia || exact Hlit).
      cbn [bind]. rewrite Hb. cbn [andb]. rewrite !strlen_String. do 2 f_equal. f_equal. lia.
    + rewrite Hb in Hlit. destruct s' as [|c' s'']; [discriminate|].
      apply andb_prop in Hlit as [Hc Hlit]. apply Ascii.eqb_eq in Hc. subst c'.
      change (Ascii.eqb FORMAT_END FORMAT_END) with true.
      cbn [append andb]. cbn iota.
      change (Ascii.eqb FORMAT_END FORMAT_END) with true. cbn iota.
      rewrite (IH s'' (pos + 2)) by (simpl in Hlen; lia || exact Hlit).
      cbn [bind]. rewrite Hb. cbn [andb]. rewrite !strlen_String. do 2 f_equal. f_equal. lia.
    + rewrite Hb in Hlit. rewrite Hs, He.
      rewrite (IH s' (pos + 1)) by (simpl in Hlen; lia || exact Hlit).
      cbn [bind]. rewrite Hb. cbn [andb]. rewrite strlen_String.
      destruct s'; do 2 f_equal; f_equal; lia.
Qed.

(** X24: the text of a format specifier is read up to the first closing
    bracket that is not doubled, and the doubled brackets in it are
    un-doubled. For a well-formed text [s] followed by a closing bracket that
    no other closing bracket follows, [ReadFormatSpecifier] returns [s]
    un-doubled and stops on that bracket, the position advanced by the
    length of [s]. *)
Theorem ReadFormatSpecifier_undoubles (s r : string) (pos : Z) :
  literal_only s = true ->
  Ascii.eqb (peek r) FORMAT_END = false ->
  ReadFormatSpecifier pos (s ++ "}" ++ r) = Ok (undouble s, pos + strlen s, "}" ++ r).
Proof.
  intros Hlit Hr.
  apply (ReadFormatSpecifier_literal_then r (String.length s) Hr s pos (le_n _) Hlit).
Qed.

Lemma ReadFormatSpecifier_undoubles_witness :
  ReadFormatSpecifier 3 ("}}>5{{" ++ "}" ++ " and {1}")
  = Ok (undouble "}}>5{{", 3 + strlen "}}>5{{", "}" ++ " and {1}").
Proof.
  apply (ReadFormatSpecifier_undoubles "}}>5{{" " and {1}" 3); reflexivity.
Defined.

(** ** Integers written as text and read back *)

Lemma string_rev_involutive (s : string) : string_rev (string_rev s) = s.
Proof.
  unfold string_rev.
  now rewrite list_ascii_of_string_of_list_ascii, rev_involutive,
    string_of_list_ascii_of_string.
Qed.

Lemma group_digits_classic (ds : string) : group_digits classic_numpunct ds = ds.
Proof.
  unfold group_digits. cbn [classic_numpunct grouping thousands_sep].
  destruct (String.length ds); cbn [group_loop]; apply string_rev_involutive.
Qed.

Lemma to_string_int64_shape (v : Z) :
  to_string_int64 v = (if v <? 0 then "-" else "") ++ decimal (Z.abs v).
Proof.
  unfold to_string_int64, put_int. cbn [new_stream ios_base ios_showpos ios_punct].
  rewrite group_digits_classic. unfold pad. cbv zeta. cbn [new_stream ios_width].
  match goal with |- context [Z.leb 0 ?len] => destruct (Z.leb_spec 0 len) as [_|Hneg] end;
    [reflexivity|].
  pose proof (strlen_nonneg (if v <? 0 then "-" else "")).
  pose proof (strlen_nonneg (decimal (Z.abs v))). lia.
Qed.

Lemma read_digits_decimal (n : Z) :
  0 <= n ->
  forall r : string,
    read_digits (decimal n ++ r) 0 0 = read_digits r n (strlen (decimal n)).
Proof.
  intros Hn. pattern n. apply (Wf_Z.Zlt_0_ind); [|exact Hn]. clear n Hn.
  intros n IH Hn r.
  destruct (Z_lt_le_dec n 10) as [Hsmall|Hbig].
  - unfold decimal. rewrite digits_small by lia.
    destruct (digit_char_decimal n ltac:(lia)) as (Hd & Hv & _).
    cbn [append read_digits]. rewrite Hd.
    replace (0 * 10 + (code (digit_char false n) - code "0")) with n by lia.
    reflexivity.
  - unfold decimal in *. rewrite digits_step by lia.
    rewrite append_assoc. cbn [append].
    pose proof (Z.div_pos n 10 ltac:(lia) ltac:(lia)).
    pose proof (Z.div_lt n 10 ltac:(lia) ltac:(lia)).
    pose proof (Z.mod_pos_bound n 10 ltac:(lia)).
    pose proof (Z.div_mod n 10 ltac:(lia)).
    rewrite IH by lia.
    destruct (digit_char_decimal (n mod 10) ltac:(lia)) as (Hd & Hv & _).
    cbn [read_digits]. rewrite Hd, Hv.
    replace (n / 10 * 10 + n mod 10) with n by lia.
    rewrite strlen_append, strlen_String. reflexivity.
Qed.

Lemma digit_not_space (c : ascii) :
  is_digit c = true ->
  isspace c = false /\ c <> "-"%char /\ c <> "+"%char /\ Ascii.eqb c NUL = false.
Proof.
  destruct c as [[] [] [] [] [] [] [] []]; intros H; try discriminate H;
    repeat split; try reflexivity; discriminate.
Qed.

Lemma strtoll_decimal (n : Z) :
  0 <= n ->
  strtoll (decimal n) = Z.min (two63 - 1) n
  /\ strtoll ("-" ++ decimal n) = Z.max (- two63) (- n).
Proof.
  intros Hn.
  pose proof (decimal_is_digits n Hn) as Hd. pose proof (decimal_nonempty n) as Hne.
  pose proof (read_digits_decimal n Hn "") as Hr. rewrite append_nil_r in Hr.
  cbn [read_digits] in Hr.
  unfold strtoll. split.
  - destruct (decimal n) as [|c s] eqn:E; [congruence|].
    cbn [is_digits] in Hd. apply andb_prop in Hd as [Hc _].
    destruct (digit_not_space c Hc) as (Hsp & Hminus & Hplus & _).
    cbn [skip_space]. rewrite Hsp.
    assert (Hs : read_sign (String c s) = (false, String c s)).
    { unfold read_sign.
      destruct c as [[] [] [] [] [] [] [] []]; try reflexivity; congruence. }
    rewrite Hs, Hr. unfold two63. lia.
  - cbn [append skip_space]. change (isspace "-") with false. cbn iota.
    cbn [read_sign]. rewrite Hr. unfold two63. lia.
Qed.

Lemma strtoll_to_string_int64 (v : Z) :
  - two63 <= v < two63 -> strtoll (to_string_int64 v) = v.
Proof.
  intros Hv. rewrite to_string_int64_shape.
  destruct (strtoll_decimal (Z.abs v) (Z.abs_nonneg v)) as [Hp Hm].
  destruct (Z.ltb_spec v 0).
  - rewrite Hm. unfold two63 in *. lia.
  - cbn [append]. rewrite Hp. unfold two63 in *. lia.
Qed.

Lemma c_str_to_string_int64 (v : Z) : c_str (to_string_int64 v) = to_string_int64 v.
Proof.
  rewrite to_string_int64_shape.
  assert (H : c_str (decimal (Z.abs v)) = decimal (Z.abs v)).
  { rewrite <- (append_nil_r (decimal (Z.abs v))) at 1.
    rewrite c_str_digits by (apply decimal_is_digits, Z.abs_nonneg).
    apply append_nil_r. }
  destruct (v <? 0); [|exact H].
  rewrite (c_str_append_plain "-") by reflexivity. now rewrite H.
Qed.

(** X26: an integer written as text and read back. The conversion [!i]
    of the text that [std::to_string] gives for an [int64_t] renders as the
    integer itself, and the conversion [!s] of an integer renders as that
    text. *)
Theorem Format_integer_round_trip (h : host) (d : bool) (v : Z) :
  - two63 <= v < two63 ->
  Format h d "{!i}" [VString (to_string_int64 v)] = Format h d "{}" [VInt v]
  /\ Format h d "{!s}" [VInt v] = Format h d "{}" [VString (to_string_int64 v)].
Proof.
  intros Hv.
  assert (Hi : forall arg,
             Format h d "{!i}" [arg] = rendered h arg (mkFragment "" "" [] 0 "i" false))
    by (intros arg; apply Format_one_field; [reflexivity | cbn; lia | reflexivity]).
  assert (Hs : forall arg,
             Format h d "{!s}" [arg] = rendered h arg (mkFragment "" "" [] 0 "s" false))
    by (intros arg; apply Format_one_field; [reflexivity | cbn; lia | reflexivity]).
  assert (Hp : forall arg, Format h d "{}" [arg] = rendered h arg (plain_field 0 []))
    by (intros arg; apply Format_one_field; [reflexivity | cbn; lia | reflexivity]).
  rewrite Hi, Hs, !Hp. unfold rendered, plain_field.
  cbn [ConvertAndFormatType].
  unfold ConvertAndFormatType_int64, ConvertAndFormatType_string, ConvertAndFormatType_cstr.
  cbn [ConvertAndFormatType_int64_loop selectors explicitConversion formatSpecifier c_str].
  change (Ascii.eqb "i" "i") with true. change (Ascii.eqb "s" "s") with true.
  change (Ascii.eqb "s" "i") with false. change (Ascii.eqb "s" "d") with false.
  change (Ascii.eqb NUL "s") with false. change (Ascii.eqb NUL "r") with false.
  change (Ascii.eqb NUL "i") with false. change (Ascii.eqb NUL "d") with false.
  cbn [orb]. cbv iota.
  rewrite c_str_to_string_int64, strtoll_to_string_int64 by exact Hv.
  unfold FormatType_string. rewrite c_str_to_string_int64.
  split; now wrote_out.
Qed.

Lemma Format_integer_round_trip_witness :
  Format bare_host strict "{!i}" [VString (to_string_int64 (-9223372036854775808))]
  = Format bare_host strict "{}" [VInt (-9223372036854775808)]
  /\ Format bare_host strict "{!s}" [VInt (-9223372036854775808)]
     = Format bare_host strict "{}" [VString (to_string_int64 (-9223372036854775808))].
Proof.
  apply (Format_integer_round_trip bare_host strict (-9223372036854775808)).
  unfold two63. lia.
Defined.

(** ** Blanks after the opening bracket *)

Lemma SkipWhitespace_blanks (blanks r : string) :
  is_blank blanks = true ->
  is_whitespace (peek r) = false ->
  forall pos : Z, SkipWhitespace pos (blanks ++ r) = (pos + strlen blanks, r).
Proof.
  intros Hb Hr. induction blanks as [|c blanks IH]; intros pos.
  - cbn [append]. rewrite SkipWhitespace_none by exact Hr.
    change (strlen "") with 0. now rewrite Z.add_0_r.
  - cbn [is_blank] in Hb. apply andb_prop in Hb as [Hc Hb].
    cbn [append SkipWhitespace]. rewrite Hc, (IH Hb), strlen_String.
    f_equal. lia.
Qed.

Lemma whitespace_is_plain (c : ascii) :
  is_whitespace c = true ->
  Ascii.eqb c NUL = false /\ Ascii.eqb c FORMAT_START = false.
Proof.
  unfold is_whitespace. intros H.
  repeat (apply orb_prop in H as [H|H]); apply Ascii.eqb_eq in H; subst c;
    split; reflexivity.
Qed.

Lemma c_str_blanks (blanks t : string) :
  is_blank blanks = true -> c_str (blanks ++ t) = blanks ++ c_str t.
Proof.
  induction blanks as [|c blanks IH]; intros Hb; [reflexivity|].
  cbn [is_blank] in Hb. apply andb_prop in Hb as [Hc Hb].
  destruct (whitespace_is_plain c Hc) as [Hn _].
  cbn [append c_str]. now rewrite Hn, IH.
Qed.

Lemma ParseFormatParameter_blanks (h : host) (blanks r : string) (pos next : Z) :
  is_blank blanks = true ->
  is_whitespace (peek r) = false ->
  ParseFormatParameter h pos ("{" ++ blanks ++ r) next
  = ParseFormatParameter h (pos + strlen blanks) ("{" ++ r) next.
Proof.
  intros Hb Hr. rewrite !ParseFormatParameter_unfold. cbn [append peek advance].
  rewrite (SkipWhitespace_blanks blanks r Hb Hr), (SkipWhitespace_none _ _ Hr).
  replace (pos + strlen blanks + 1) with (pos + 1 + strlen blanks) by lia.
  reflexivity.
Qed.

Lemma first_scan_open (r : string) (pos : Z) :
  Ascii.eqb (peek r) FORMAT_START = false ->
  GetPlainTextFragment_loop NUL pos ("{" ++ r) = Ok ("", pos, "{" ++ r).
Proof.
  intros H. cbn [append GetPlainTextFragment_loop].
  destruct r as [|c r]; [reflexivity|]. cbn [peek] in H. now rewrite H.
Qed.

(** X25: blanks (spaces, tabs, line feeds and carriage returns) between
    the opening bracket of a field and what the field holds are ignored. The
    template with the blanks and the template without them give the same
    result, up to the position that an [IllegalFormatStringException]
    reports. *)
Theorem Format_blanks_after_open (h : host) (d : bool) (lit blanks rest : string)
    (args : list value) :
  literal_only lit = true ->
  is_blank blanks = true ->
  is_whitespace (peek rest) = false ->
  Ascii.eqb (peek rest) FORMAT_START = false ->
  same_result (Format h d (lit ++ "{" ++ blanks ++ rest) args)
              (Format h d (lit ++ "{" ++ rest) args).
Proof.
  intros Hl Hb Hw Ho. apply Format_agree.
  destruct (c_str_append_cases lit) as [Hc|Hc]; rewrite !Hc.
  { apply agree_refl. reflexivity. }
  rewrite !(c_str_append_plain "{") by reflexivity.
  rewrite (c_str_blanks blanks rest Hb).
  rewrite <- (peek_c_str rest) in Hw, Ho.
  set (r := c_str rest) in *.
  assert (Ho' : Ascii.eqb (peek (blanks ++ r)) FORMAT_START = false).
  { destruct blanks as [|c blanks]; [exact Ho|].
    cbn [is_blank] in Hb. apply andb_prop in Hb as [Hcw _].
    now destruct (whitespace_is_plain c Hcw). }
  unfold ParseFormatStr, GetPlainTextFragment.
  destruct (GetPlainTextFragment_literal_then _ _ (String.length lit)
              (fun p => ex_intro _ p (first_scan_open (blanks ++ r) p Ho'))
              lit 0 (le_n _) Hl) as [p1 ->].
  destruct (GetPlainTextFragment_literal_then _ _ (String.length lit)
              (fun p => ex_intro _ p (first_scan_open r p Ho))
              lit 0 (le_n _) Hl) as [p2 ->].
  cbn [bind].
  apply (agree_bind eq eq); [|intros x y <-; reflexivity].
  cbn [append String.length ParseFormatStr_loop].
  pose proof (ParseFormatParameter_blanks h blanks r p1 0 Hb Hw) as E.
  cbn [append] in E. rewrite E.
  eapply agree_bind;
    [apply (ParseFormatParameter_agree h (String "{" r) (p1 + strlen blanks) p2 0)|].
  intros [[[l q] s] nx] [[[l' q'] s'] nx'] (E1 & E2 & E3 & Hlen).
  cbn in E1, E2, E3, Hlen. subst l' s' nx'.
  apply ParseFormatStr_loop_agree; rewrite ?length_append; lia.
Qed.

Lemma Format_blanks_after_open_witness :
  same_result (Format bare_host strict ("x = " ++ "{" ++ "  " ++ "0:>4}!") [VInt 7])
              (Format bare_host strict ("x = " ++ "{" ++ "0:>4}!") [VInt 7]).
Proof.
  apply (Format_blanks_after_open bare_host strict "x = " "  " "0:>4}!" [VInt 7]);
    reflexivity.
Defined.

(** ** Binary digits *)

Lemma digits2_head (n : Z) :
  0 < n -> exists s : string, digits 2 false n = String "1" s.
Proof.
  intros Hn. assert (H0 : 0 <= n) by lia. revert Hn. pattern n.
  apply (Wf_Z.Zlt_0_ind); [|exact H0]. clear n H0.
  intros n IH _ Hn.
  destruct (Z_lt_le_dec n 2) as [Hsmall|Hbig].
  - assert (n = 1) by lia. subst n. exists "". reflexivity.
  - rewrite digits_step by lia.
    pose proof (Z.div_lt n 2 ltac:(lia) ltac:(lia)).
    pose proof (Z.div_le_lower_bound n 2 1 ltac:(lia) ltac:(lia)).
    destruct (IH (n / 2) ltac:(lia) ltac:(lia)) as [s ->].
    eexists. reflexivity.
Qed.

Lemma strlen_digits2 (k : nat) :
  forall n : Z, 0 < n < 2 ^ Z.of_nat k -> strlen (digits 2 false n) <= Z.of_nat k.
Proof.
  induction k as [|k IH]; intros n Hn.
  - change (2 ^ Z.of_nat 0) with 1 in Hn. lia.
  - rewrite Nat2Z.inj_succ, Z.pow_succ_r in Hn by lia.
    destruct (Z_lt_le_dec n 2) as [Hsmall|Hbig].
    + rewrite digits_small by lia. rewrite strlen_String. change (strlen "") with 0. lia.
    + rewrite digits_step by lia.
      rewrite strlen_append, strlen_String. change (strlen "") with 0.
      pose proof (Z.div_le_lower_bound n 2 1 ltac:(lia) ltac:(lia)).
      assert (n / 2 < 2 ^ Z.of_nat k) by (apply Z.div_lt_upper_bound; lia).
      specialize (IH (n / 2) ltac:(lia)). lia.
Qed.

Lemma skip_leading_zeros_exact (k : nat) (s : string) :
  skip_leading_zeros k (replicate k "0" ++ s) = s.
Proof.
  induction k as [|k IH]; [destruct s; reflexivity|].
  cbn [replicate append skip_leading_zeros].
  change (Ascii.eqb "0" "0") with true. exact IH.
Qed.

Lemma skip_leading_zeros_one (k : nat) (s : string) :
  forall fuel : nat,
    (k <= fuel)%nat ->
    skip_leading_zeros fuel (replicate k "0" ++ String "1" s) = String "1" s.
Proof.
  induction k as [|k IH]; intros fuel Hk.
  - cbn [replicate append]. destruct fuel; reflexivity.
  - destruct fuel as [|fuel]; [lia|].
    cbn [replicate append skip_leading_zeros].
    change (Ascii.eqb "0" "0") with true. apply IH. lia.
Qed.

Lemma binary_digits (v : Z) :
  skip_leading_zeros 63 (bitset64_to_string v) = digits 2 false (v mod two64).
Proof.
  unfold bitset64_to_string. cbv zeta.
  pose proof (Z.mod_pos_bound v two64 ltac:(unfold two64; lia)) as Hm.
  set (m := v mod two64) in *.
  destruct (Z.eq_dec m 0) as [->|Hne].
  - change (digits 2 false 0) with "0". apply (skip_leading_zeros_exact 63 "0").
  - destruct (digits2_head m ltac:(lia)) as [s Hs].
    pose proof (strlen_digits2 64 m ltac:(unfold two64 in Hm; change (2 ^ Z.of_nat 64) with 18446744073709551616; lia)) as Hlen.
    rewrite Hs in *. rewrite strlen_String in *. pose proof (strlen_nonneg s).
    unfold zeros. apply skip_leading_zeros_one.
    change (Z.of_nat 64) with 64 in Hlen. lia.
Qed.

(** The binary type, without and with the alternate form. *)
Lemma FormatType_int64_binary (h : host) (v : Z) :
  FormatType_int64 h v "b" = Ok (digits 2 false (v mod two64))
  /\ FormatType_int64 h v "#b" = Ok ("0b" ++ digits 2 false (v mod two64)).
Proof.
  assert (Hput : forall s : ios, ios_width s = 0 -> forall t, put_string s t = t).
  { intros s Hs t. rewrite put_string_shape, Hs.
    pose proof (strlen_nonneg t).
    unfold flush_left, flush_right, padding.
    replace (Z.to_nat (0 - strlen t)) with O by lia.
    destruct (ios_adjust s); cbn [replicate append]; now rewrite ?append_nil_r. }
  unfold FormatType_int64.
  change (ConvertToBasicFormatSpecifiers "b" InitializeFormatSpecifier)
    with (Ok (mkSpecifiers 0 (-1) NUL NUL "-" "b" false false)).
  change (ConvertToBasicFormatSpecifiers "#b" InitializeFormatSpecifier)
    with (Ok (mkSpecifiers 0 (-1) NUL NUL "-" "b" true false)).
  cbn [bind]. unfold PreprocessStreamForInteger. cbv zeta.
  cbn [type thousandSeparator].
  change (Ascii.eqb "b" FORMAT_BINARY_TOGGLE) with true. cbv iota.
  cbn [bind]. rewrite binary_digits.
  split; (rewrite Hput by reflexivity);
    unfold PostprocessStreamForInteger, postprocess_number; cbv zeta;
    cbn [sign align fill width type alternateForm];
    change (Ascii.eqb "-" FORMAT_SIGN_POSITIVE_SPACE_TOGGLE) with false;
    change (Ascii.eqb NUL FORMAT_ALIGN_CENTER) with false;
    cbn [orb andb]; unfold paddings, padding_text, alternate_prefix;
    cbn [andb alternateForm type append];
    change (Ascii.eqb "b" FORMAT_BINARY_TOGGLE) with true; cbv iota;
    cbn [append]; now rewrite ?append_nil_r.
Qed.

Lemma put_int_radix (s : ios) (v : Z) :
  ios_width s = 0 -> ios_punct s = classic_numpunct ->
  put_int s v
  = match ios_base s with
    | base_dec => (if v <? 0 then "-" else if ios_showpos s then "+" else "")
                  ++ decimal (Z.abs v)
    | base_oct => digits 8 false (v mod two64)
    | base_hex => digits 16 (ios_uppercase s) (v mod two64)
    end.
Proof.
  intros Hw Hp. unfold put_int. rewrite Hp, !group_digits_classic.
  assert (Hpad : forall sgn body, pad s sgn body = sgn ++ body).
  { intros sgn body. unfold pad. cbv zeta. rewrite Hw.
    pose proof (strlen_nonneg sgn). pose proof (strlen_nonneg body).
    destruct (Z.leb_spec 0 (strlen sgn + strlen body)); [reflexivity | lia]. }
  destruct (ios_base s); now rewrite Hpad.
Qed.

(** X27: the presentation types [b], [o], [x] and [X] render the 64-bit
    two's complement pattern of the integer in base 2, 8 and 16, with no
    leading zeroes and no sign: a negative number is rendered as the
    unsigned number that has the same bits. *)
Theorem FormatType_int64_radix (h : host) (v : Z) :
  FormatType_int64 h v "b" = Ok (digits 2 false (v mod two64))
  /\ FormatType_int64 h v "o" = Ok (digits 8 false (v mod two64))
  /\ FormatType_int64 h v "x" = Ok (digits 16 false (v mod two64))
  /\ FormatType_int64 h v "X" = Ok (digits 16 true (v mod two64)).
Proof.
  split; [apply FormatType_int64_binary|].
  unfold FormatType_int64.
  change (ConvertToBasicFormatSpecifiers "o" InitializeFormatSpecifier)
    with (Ok (mkSpecifiers 0 (-1) NUL NUL "-" "o" false false)).
  change (ConvertToBasicFormatSpecifiers "x" InitializeFormatSpecifier)
    with (Ok (mkSpecifiers 0 (-1) NUL NUL "-" "x" false false)).
  change (ConvertToBasicFormatSpecifiers "X" InitializeFormatSpecifier)
    with (Ok (mkSpecifiers 0 (-1) NUL NUL "-" "X" false false)).
  cbn [bind].
  repeat split;
    cbv -[put_int digits two64 Z.modulo];
    match goal with
    | |- context [put_int ?s v] => rewrite (put_int_radix s v eq_refl eq_refl)
    end; cbn [ios_base ios_uppercase]; fold append; now rewrite append_nil_r.
Qed.

(** ** The position an exception reports *)

(** The scan of well-formed literal text in front of a field ends on the
    field, at the offset of its opening bracket. *)
Lemma GetPlainTextFragment_literal_offset (lit r : string) (pos : Z) :
  literal_only lit = true ->
  Ascii.eqb (peek r) FORMAT_START = false ->
  GetPlainTextFragment pos (lit ++ "{" ++ r)
  = Ok (undouble lit, pos + strlen lit, "{" ++ r).
Proof.
  intros Hl Ho. unfold GetPlainTextFragment.
  destruct (GetPlainTextFragment_literal_then _ _ (String.length lit)
              (fun p => ex_intro _ p (first_scan_open r p Ho))
              lit pos (le_n _) Hl) as [p1 E].
  rewrite E. do 2 f_equal. f_equal.
  apply (GetPlainTextFragment_loop_stops (String.length (lit ++ "{" ++ r))) in E
    as ((scannedText & Ht & ->) & _); [|lia].
  apply (f_equal strlen) in Ht. rewrite !strlen_append in Ht. lia.
Qed.

(** X28: a minus sign at the start of the index of a field is refused, and
    the exception reports the offset of the sign in the template: the
    characters of the literal text in front of the field are counted as they
    are written, a doubled bracket for two. *)
Theorem Format_sign_in_index (h : host) (d : bool) (t r : string) (args : list value) :
  literal_only (c_str t) = true ->
  Format h d (c_str t ++ "{-" ++ r) args
  = Throw (IllegalFormatStringException (strlen (c_str t) + 1)
             "A sign character is not allowed at this position").
Proof.
  intros Hl. unfold Format, ParseFormatStr.
  rewrite (c_str_append_plain (c_str t)) by apply c_str_idempotent.
  rewrite (c_str_append_plain "{-") by reflexivity.
  change ("{-" ++ c_str r) with ("{" ++ "-" ++ c_str r).
  rewrite (GetPlainTextFragment_literal_offset (c_str t) ("-" ++ c_str r) 0 Hl eq_refl).
  cbn [bind append String.length ParseFormatStr_loop].
  unfold ParseFormatParameter. cbn [peek advance].
  change (assert (Ascii.eqb "{" FORMAT_START)) with (Ok tt). cbn [bind].
  cbn [SkipWhitespace]. change (is_whitespace "-") with false. cbv iota.
  cbn [peek]. change (Ascii.eqb "-" FORMAT_ENVIRONMENT) with false. cbv iota.
  unfold ParseIntegerNumber. cbn [ParseIntegerNumber_loop].
  change (Ascii.eqb "-" "-") with true. cbn [andb]. cbv iota.
  unfold illegal. cbn [bind]. apply f_equal.
  apply (f_equal2 IllegalFormatStringException); [lia | reflexivity].
Qed.

Lemma Format_sign_in_index_witness :
  Format bare_host strict (c_str "{{x}} = " ++ "{-" ++ "1}") [VInt 1]
  = Throw (IllegalFormatStringException (strlen (c_str "{{x}} = ") + 1)
             "A sign character is not allowed at this position").
Proof.
  apply (Format_sign_in_index bare_host strict "{{x}} = " "1}" [VInt 1]). reflexivity.
Defined.
